(** * Extraction orchestrator: schema metrics, chunking, merging, scoring

    A shallow embedding of the Python sources of the extraction system
    ([utils.py], [schema_analyzer.py], [document_processor.py],
    [confidence_scorer.py], [extraction_engine.py]) and the properties
    proved about them.

    Conventions of the embedding.
    - Python [int] is [Z]; Python [float] is an exact rational [Q], and the
      one product of floats whose rounding decides a comparison with an
      integer, the threshold of [_calculate_chunk_priority], is rounded to
      the nearest double ([Py.float_mul]); [bool], [str], [list]
      and [dict] are [bool], [string], [list] and association lists that
      keep insertion order (a Python [dict] never holds a key twice).
      A [string] holds one [ascii] per character, so [len] is its length.
    - External libraries (the tokenizer, the regular-expression engine, the
      JSON validator, the model client) are [Variable]s of the [Section]
      that uses them.
    - Code that can raise returns a [result]. *)

From Stdlib Require Import List String Ascii ZArith QArith Qminmax Qround Qpower Bool
  Lia Lqa Permutation Sorted DecimalString.
Import ListNotations.

Set Warnings "-register-all".

Open Scope string_scope.
Open Scope Z_scope.

(** ** Python values *)

Module Py.

(** A value as [json.loads] produces it. *)
Inductive json : Type :=
| JNull
| JBool (b : bool)
| JInt (n : Z)
| JFloat (q : Q)
| JStr (s : string)
| JList (l : list json)
| JDict (d : list (string * json)).

(** Exceptions the modelled code can raise. *)
Inductive exn : Type :=
| TypeError
| AttributeError
| ValueError
| OtherError (msg : string).

Inductive result (A : Type) : Type :=
| Ok (a : A)
| Raise (e : exn).
Arguments Ok {A} a.
Arguments Raise {A} e.

Definition bind {A B : Type} (m : result A) (f : A -> result B) : result B :=
  match m with
  | Ok a => f a
  | Raise e => Raise e
  end.

Notation "x <- m ;; k" := (bind m (fun x => k))
  (at level 61, m at next level, right associativity).

(** *** Dictionaries: association lists in insertion order *)

Definition dict (A : Type) : Type := list (string * A).

Fixpoint dict_get {A : Type} (k : string) (d : dict A) : option A :=
  match d with
  | [] => None
  | (k', v) :: d' => if String.eqb k k' then Some v else dict_get k d'
  end.

(** [k in d] *)
Definition dict_has {A : Type} (k : string) (d : dict A) : bool :=
  match dict_get k d with
  | Some _ => true
  | None => false
  end.

(** [d[k] = v]: overwrite in place, or append a new key. *)
Fixpoint dict_set {A : Type} (k : string) (v : A) (d : dict A) : dict A :=
  match d with
  | [] => [(k, v)]
  | (k', v') :: d' =>
      if String.eqb k k' then (k', v) :: d' else (k', v') :: dict_set k v d'
  end.

(** [d.update(d2)] *)
Definition dict_update {A : Type} (d d2 : dict A) : dict A :=
  fold_left (fun acc kv => dict_set (fst kv) (snd kv) acc) d2 d.

(** [dict(items)] *)
Definition dict_of_items {A : Type} (items : list (string * A)) : dict A :=
  dict_update [] items.

Definition dict_keys {A : Type} (d : dict A) : list string := map fst d.

(** [d.get(k, default)] *)
Definition dict_get_default {A : Type} (k : string) (default : A) (d : dict A) : A :=
  match dict_get k d with
  | Some v => v
  | None => default
  end.

(** *** Sets of strings, kept as duplicate-free lists *)

Definition set_mem (x : string) (s : list string) : bool :=
  existsb (String.eqb x) s.

Definition set_add (x : string) (s : list string) : list string :=
  if set_mem x s then s else s ++ [x].

Definition set_remove (x : string) (s : list string) : list string :=
  filter (fun y => negb (String.eqb x y)) s.

(** *** Numbers *)

(** [bool] is a subclass of [int]: [isinstance(True, int)] holds, and
    [True == 1]. *)
Definition is_number (v : json) : bool :=
  match v with
  | JBool _ | JInt _ | JFloat _ => true
  | _ => false
  end.

Definition num_value (v : json) : option Q :=
  match v with
  | JBool b => Some (if b then 1%Q else 0%Q)
  | JInt n => Some (inject_Z n)
  | JFloat q => Some q
  | _ => None
  end.

Definition Qltb (a b : Q) : bool := negb (Qle_bool b a).

(** *** Rounded floats

    [90 * 0.7] is [62.99999999999999]: where an integer is compared with a
    product of floats the rounding decides, and the product is rounded as
    the machine does, to the nearest IEEE 754 double with ties to the even
    mantissa.  A double is the rational it stands for; overflow and
    subnormal numbers are out of reach of the values that are rounded. *)

(** The nearest integer, ties to even. *)
Definition round_half_even (q : Q) : Z :=
  let f := Qfloor q in
  match Qcompare (q - inject_Z f) (1 # 2) with
  | Lt => f
  | Gt => f + 1
  | Eq => if Z.even f then f else f + 1
  end.

(** The exponent [e] of a positive rational: [2^e <= q < 2^(e+1)]. *)
Definition binade (q : Q) : Z :=
  let e := Z.log2 (Qnum q) - Z.log2 (Z.pos (Qden q)) in
  if Qle_bool (2 ^ e) q then e else e - 1.

(** The double nearest to a positive rational: a mantissa of 53 bits. *)
Definition nearest_double (q : Q) : Q :=
  let e := binade q in
  (inject_Z (round_half_even (q * 2 ^ (52 - e))) * 2 ^ (e - 52))%Q.

Definition double (q : Q) : Q :=
  match Qcompare q 0 with
  | Eq => 0%Q
  | Gt => nearest_double q
  | Lt => (- nearest_double (- q))%Q
  end.

(** [float(n)], a float literal, and [x * y] on floats. *)
Definition float_of_int (n : Z) : Q := double (inject_Z n).

Definition float_literal (q : Q) : Q := double q.

Definition float_mul (x y : Q) : Q := double (x * y).

(** The integer a [bool] or an [int] stands for. *)
Definition int_value (v : json) : option Z :=
  match v with
  | JBool b => Some (if b then 1 else 0)
  | JInt n => Some n
  | _ => None
  end.

(** [a + b] with a number on the left: an [int] when both are integers, a
    [float] when both are numbers, [TypeError] otherwise. *)
Definition py_add (a b : json) : result json :=
  match int_value a, int_value b with
  | Some x, Some y => Ok (JInt (x + y))
  | _, _ =>
      match num_value a, num_value b with
      | Some x, Some y => Ok (JFloat (x + y))
      | _, _ => Raise TypeError
      end
  end.

(** [sum(values)] *)
Definition py_sum (values : list json) : result json :=
  fold_left (fun acc v => a <- acc ;; py_add a v) values (Ok (JInt 0)).

(** Truth value of an object, as [if v:] and [not v] test it. *)
Definition truthy (v : json) : bool :=
  match v with
  | JNull => false
  | JBool b => b
  | JInt n => negb (Z.eqb n 0)
  | JFloat q => negb (Qeq_bool q 0)
  | JStr s => negb (String.eqb s "")
  | JList l => match l with [] => false | _ => true end
  | JDict d => match d with [] => false | _ => true end
  end.

(** [a == b] on JSON values: numbers compare by value across [bool], [int]
    and [float]; lists element by element; dicts as mappings, whatever the
    order of their keys. *)
Fixpoint py_eq (a b : json) {struct a} : bool :=
  match a, b with
  | JNull, JNull => true
  | JStr s, JStr t => String.eqb s t
  | JList l, JList m =>
      (fix eq_list (l : list json) (m : list json) {struct l} : bool :=
         match l, m with
         | [], [] => true
         | x :: l', y :: m' => py_eq x y && eq_list l' m'
         | _, _ => false
         end) l m
  | JDict d, JDict e =>
      Nat.eqb (List.length d) (List.length e) &&
      (fix sub (d : list (string * json)) {struct d} : bool :=
         match d with
         | [] => true
         | (k, v) :: d' =>
             match dict_get k e with
             | Some w => py_eq v w && sub d'
             | None => false
             end
         end) d
  | _, _ =>
      match num_value a, num_value b with
      | Some x, Some y => Qeq_bool x y
      | _, _ => false
      end
  end.

(** [a < b] on JSON values: numbers by value, strings and lists
    lexicographically (a list by its first element that differs from the
    other's), [TypeError] for every other pair. *)
Fixpoint py_lt (a b : json) {struct a} : result bool :=
  match a, b with
  | JStr s, JStr t => Ok (String.ltb s t)
  | JList l, JList m =>
      (fix lt_list (l : list json) (m : list json) {struct l} : result bool :=
         match l, m with
         | [], [] => Ok false
         | [], _ :: _ => Ok true
         | _ :: _, [] => Ok false
         | x :: l', y :: m' => if py_eq x y then lt_list l' m' else py_lt x y
         end) l m
  | _, _ =>
      match num_value a, num_value b with
      | Some x, Some y => Ok (Qltb x y)
      | _, _ => Raise TypeError
      end
  end.

(** [a > b] on JSON values: [b < a]. *)
Definition py_gt (a b : json) : result bool := py_lt b a.

(** [isinstance] tests used by the code. *)
Definition is_str (v : json) : bool := match v with JStr _ => true | _ => false end.
Definition is_bool (v : json) : bool := match v with JBool _ => true | _ => false end.
Definition is_int (v : json) : bool := match v with JBool _ | JInt _ => true | _ => false end.
Definition is_float (v : json) : bool := match v with JFloat _ => true | _ => false end.
Definition is_list (v : json) : bool := match v with JList _ => true | _ => false end.
Definition is_dict (v : json) : bool := match v with JDict _ => true | _ => false end.
Definition is_none (v : json) : bool := match v with JNull => true | _ => false end.

(** Hashable values are those a [set] or a [dict] key can hold. *)
Definition hashable (v : json) : bool :=
  match v with
  | JList _ | JDict _ => false
  | _ => true
  end.

(** *** Strings *)

Definition str_len (s : string) : Z := Z.of_nat (String.length s).

Definition dot : ascii := "."%char.

(** [s.split('.')] *)
Fixpoint split_dot (s : string) : list string :=
  match s with
  | EmptyString => [""]
  | String c s' =>
      if Ascii.eqb c dot then "" :: split_dot s'
      else match split_dot s' with
           | [] => [String c ""]
           | w :: ws => String c w :: ws
           end
  end.

(** [s.count('.')] *)
Fixpoint count_dot (s : string) : Z :=
  match s with
  | EmptyString => 0
  | String c s' => (if Ascii.eqb c dot then 1 else 0) + count_dot s'
  end.

(** [sep.join(parts)] *)
Definition join (sep : string) (parts : list string) : string :=
  String.concat sep parts.

(** ASCII white space, as [str.strip] and [str.split] see it. *)
Definition is_space (c : ascii) : bool :=
  let n := nat_of_ascii c in
  (Nat.eqb n 32 || (Nat.leb 9 n && Nat.leb n 13) || (Nat.leb 28 n && Nat.leb n 31))%bool.

Fixpoint lstrip (s : string) : string :=
  match s with
  | EmptyString => EmptyString
  | String c s' => if is_space c then lstrip s' else s
  end.

Fixpoint rstrip (s : string) : string :=
  match s with
  | EmptyString => EmptyString
  | String c s' =>
      match rstrip s' with
      | EmptyString => if is_space c then EmptyString else String c EmptyString
      | r => String c r
      end
  end.

(** [s.strip()] *)
Definition strip (s : string) : string := rstrip (lstrip s).

(** [s.split()]: the maximal runs of characters that are not white space. *)
Fixpoint split_ws_aux (s : string) (cur : string) : list string :=
  match s with
  | EmptyString => if String.eqb cur "" then [] else [cur]
  | String c s' =>
      if is_space c
      then (if String.eqb cur "" then split_ws_aux s' "" else cur :: split_ws_aux s' "")
      else split_ws_aux s' (cur ++ String c "")
  end.

Definition split_ws (s : string) : list string := split_ws_aux s "".

(** [s.lower()] on ASCII letters. *)
Definition lower_char (c : ascii) : ascii :=
  let n := nat_of_ascii c in
  if (Nat.leb 65 n && Nat.leb n 90)%bool then ascii_of_nat (n + 32) else c.

Fixpoint lower (s : string) : string :=
  match s with
  | EmptyString => EmptyString
  | String c s' => String (lower_char c) (lower s')
  end.

(** [s.replace(old, new)] for a non-empty [old]: occurrences are replaced
    from the left and do not overlap; [skip] counts the characters of a
    replaced occurrence still to pass over. *)
Fixpoint replace_from (old new : string) (skip : nat) (s : string) : string :=
  match s with
  | EmptyString => EmptyString
  | String c s' =>
      match skip with
      | S n => replace_from old new n s'
      | O =>
          if String.prefix old s
          then new ++ replace_from old new (String.length old - 1) s'
          else String c (replace_from old new O s')
      end
  end.

Definition replace (old new s : string) : string := replace_from old new O s.

(** [sub in s] for strings. *)
Fixpoint str_contains (sub s : string) : bool :=
  if String.prefix sub s then true
  else match s with
       | EmptyString => false
       | String _ s' => str_contains sub s'
       end.

End Py.

Import Py.

(** ** Schemas

    A schema node is a Python [dict].  The keywords whose values the code
    traverses or measures have the type JSON Schema gives them:
    ['properties'] maps names to schema nodes, ['items'] is a schema node,
    ['enum'] is a list and ['$ref'] is a string.  Every other keyword
    (['type'], ['required'], ['pattern'], ['minimum'], ['if'], ...) stays an
    untyped JSON value in [attrs]. *)

Inductive schema : Type :=
| Node (attrs : dict json)
       (enum : option (list json))
       (ref : option string)
       (properties : option (list (string * schema)))
       (items : option schema).

Definition attrs (s : schema) : dict json :=
  match s with Node a _ _ _ _ => a end.
Definition enum (s : schema) : option (list json) :=
  match s with Node _ e _ _ _ => e end.
Definition ref (s : schema) : option string :=
  match s with Node _ _ r _ _ => r end.
Definition properties (s : schema) : option (list (string * schema)) :=
  match s with Node _ _ _ p _ => p end.
Definition items (s : schema) : option schema :=
  match s with Node _ _ _ _ i => i end.

(** ['properties' in s] *)
Definition has_properties (s : schema) : bool :=
  match properties s with Some _ => true | None => false end.

(** The literal [{}]. *)
Definition empty_schema : schema := Node [] None None None None.

(** The literal [{'properties': {}}]. *)
Definition empty_chunk : schema := Node [] None None (Some []) None.

(** The literal [{'type': 'object', 'properties': {}}]. *)
Definition empty_object : schema :=
  Node [("type", JStr "object")] None None (Some []) None.

(** [s.get(k)] for a keyword kept in [attrs]. *)
Definition attr (k : string) (s : schema) : option json := dict_get k (attrs s).

(** ** utils.py *)

Module Utils.

(** [f"{prefix}.{key}" if prefix else key] *)
Definition full_key (prefix key : string) : string :=
  if String.eqb prefix "" then key else prefix ++ "." ++ key.

(** [flatten_schema(schema, prefix)] *)
Fixpoint flatten_schema (s : schema) (prefix : string) : dict schema :=
  match properties s with
  | Some props =>
      fold_left
        (fun flattened kv =>
           let key := fst kv in
           let value := snd kv in
           let fk := full_key prefix key in
           match properties value with
           | Some _ => dict_update flattened (flatten_schema value fk)
           | None => dict_set fk value flattened
           end)
        props []
  | None => []
  end.

(** [calculate_schema_depth(schema, current_depth)] *)
Fixpoint calculate_schema_depth (s : schema) (current_depth : Z) : Z :=
  match properties s with
  | Some props =>
      fold_left
        (fun max_depth kv =>
           let value := snd kv in
           match properties value with
           | Some _ =>
               let depth := calculate_schema_depth value (current_depth + 1) in
               Z.max max_depth depth
           | None => max_depth
           end)
        props current_depth
  | None => current_depth
  end.

(** [value.get('type') == 'object'] *)
Definition type_is_object (s : schema) : bool :=
  match attr "type" s with
  | Some t => py_eq t (JStr "object")
  | None => false
  end.

(** [count_schema_objects(schema)] *)
Fixpoint count_schema_objects (s : schema) : Z :=
  match properties s with
  | Some props =>
      fold_left
        (fun count kv =>
           let value := snd kv in
           if (type_is_object value || has_properties value)%bool
           then count + 1 + count_schema_objects value
           else count)
        props 0
  | None => 0
  end.

(** [count_enum_values(schema)] *)
Fixpoint count_enum_values (s : schema) : Z :=
  let count :=
    match enum s with
    | Some e => 0 + Z.of_nat (List.length e)
    | None => 0
    end in
  let count :=
    match properties s with
    | Some props =>
        fold_left (fun count kv => count + count_enum_values (snd kv)) props count
    | None => count
    end in
  match items s with
  | Some it => count + count_enum_values it
  | None => count
  end.

(** What [jsonschema.validate] does: it returns, raises [ValidationError]
    on an instance that does not conform, or raises [SchemaError] on a
    schema that is itself invalid. *)
Inductive validation : Type :=
| Valid
| ValidationError (message : string)
| SchemaError (message : string).

(** [validate_json_against_schema(data, schema)], over the library's
    [validate]: only [ValidationError] is caught. *)
Definition validate_json_against_schema (validate : json -> schema -> validation)
    (data : json) (s : schema) : result (bool * string) :=
  match validate data s with
  | Valid => Ok (true, "")
  | ValidationError e => Ok (false, e)
  | SchemaError e => Raise (OtherError e)
  end.

End Utils.

(** ** Python arithmetic on [int] and [float] *)

Module Num.

Inductive num : Type :=
| NInt (n : Z)
| NFloat (q : Q).

Definition to_Q (a : num) : Q :=
  match a with
  | NInt n => inject_Z n
  | NFloat q => q
  end.

(** [a + b]: an [int] when both are, a [float] otherwise. *)
Definition add (a b : num) : num :=
  match a, b with
  | NInt x, NInt y => NInt (x + y)
  | _, _ => NFloat (to_Q a + to_Q b)
  end.

(** [a / b] on integers is true division and always gives a [float]
    ([b] is a non-zero literal wherever the code divides). *)
Definition truediv (a b : Z) : num := NFloat (inject_Z a / inject_Z b).

(** [min(a, b)]: the first argument unless the second is smaller. *)
Definition min (a b : num) : num :=
  if Qltb (to_Q b) (to_Q a) then b else a.

(** [int(a)]: truncation toward zero. *)
Definition to_int (a : num) : Z :=
  match a with
  | NInt n => n
  | NFloat q => Z.quot (Qnum q) (Zpos (Qden q))
  end.

End Num.

(** ** schema_analyzer.py: metrics, score and strategy *)

Module SchemaAnalyzer.

Record metrics : Type := {
  max_depth : Z;
  total_fields : Z;
  object_count : Z;
  enum_complexity : Z;
  estimated_tokens : Z;
  required_fields : Z
}.

Inductive strategy : Type :=
| single_pass
| multi_pass_hierarchical
| multi_pass_chunked.

Record analysis : Type := {
  a_metrics : metrics;
  complexity_score : Z;
  a_strategy : strategy;
  needs_chunking : bool
}.

(** [_calculate_complexity_score(metrics)] *)
Definition _calculate_complexity_score (m : metrics) : Z :=
  let score := Num.NInt 0 in
  let depth_score := Num.min (Num.NInt 30) (Num.NInt (max_depth m * 5)) in
  let score := Num.add score depth_score in
  let field_score := Num.min (Num.NInt 25) (Num.truediv (total_fields m) 10) in
  let score := Num.add score field_score in
  let object_score := Num.min (Num.NInt 25) (Num.NInt (object_count m * 2)) in
  let score := Num.add score object_score in
  let enum_score := Num.min (Num.NInt 20) (Num.truediv (enum_complexity m) 50) in
  let score := Num.add score enum_score in
  Num.to_int score.

(** [_count_required_fields(schema)]; the [path] argument of the source is
    built but never read. *)
Fixpoint _count_required_fields (s : schema) : Z :=
  let count :=
    match attr "required" s with
    | Some (JList l) => 0 + Z.of_nat (List.length l)
    | _ => 0
    end in
  match properties s with
  | Some props =>
      fold_left (fun count kv => count + _count_required_fields (snd kv)) props count
  | None => count
  end.

Section Analyzer.

(** [estimate_schema_tokens]: [json.dumps] followed by the tokenizer. *)
Variable estimate_schema_tokens : schema -> Z.

(** [self.max_tokens_per_chunk] *)
Variable max_tokens_per_chunk : Z.

(** [_determine_strategy(metrics)] *)
Definition _determine_strategy (m : metrics) : strategy :=
  if estimated_tokens m >? max_tokens_per_chunk then multi_pass_chunked
  else if ((max_depth m >? 1) || (object_count m >? 1))%bool then multi_pass_hierarchical
  else single_pass.

(** [analyze_complexity(schema)] *)
Definition analyze_complexity (s : schema) : analysis :=
  let m := {| max_depth := Utils.calculate_schema_depth s 0;
              total_fields := Z.of_nat (List.length (Utils.flatten_schema s ""));
              object_count := Utils.count_schema_objects s;
              enum_complexity := Utils.count_enum_values s;
              estimated_tokens := estimate_schema_tokens s;
              required_fields := _count_required_fields s |} in
  let score := _calculate_complexity_score m in
  let strat := _determine_strategy m in
  {| a_metrics := m;
     complexity_score := score;
     a_strategy := strat;
     needs_chunking := estimated_tokens m >? max_tokens_per_chunk |}.

(** *** Dependencies between fields *)

(** [_extract_field_references(schema_part)] *)
Fixpoint _extract_field_references (schema_part : json) : list string :=
  match schema_part with
  | JDict d =>
      flat_map
        (fun kv =>
           let key := fst kv in
           let value := snd kv in
           match value with
           | JDict v =>
               if String.eqb key "properties" then dict_keys v
               else _extract_field_references value
           | JList _ => _extract_field_references value
           | _ => []
           end)
        d
  | JList l => flat_map _extract_field_references l
  | _ => []
  end.

(** [_find_dependencies(field_path, field_schema, all_fields)] *)
Definition _find_dependencies (field_path : string) (field_schema : schema)
    (all_fields : dict schema) : list string :=
  let dependencies :=
    match ref field_schema with
    | Some r =>
        let ref_path := replace "/" "." (replace "#/" "" r) in
        if dict_has ref_path all_fields then [ref_path] else []
    | None => []
    end in
  match attr "if" field_schema with
  | Some if_schema => (dependencies ++ _extract_field_references if_schema)%list
  | None => dependencies
  end.

Record dependency : Type := {
  depends_on : list string;
  dep_required : json;
  dep_type : json;
  has_enum : bool
}.

(** [build_dependency_graph(schema)] *)
Definition build_dependency_graph (s : schema) : dict dependency :=
  let flattened := Utils.flatten_schema s "" in
  fold_left
    (fun dependencies kv =>
       let field_path := fst kv in
       let field_schema := snd kv in
       dict_set field_path
         {| depends_on := _find_dependencies field_path field_schema flattened;
            dep_required := match attr "required" field_schema with
                            | Some v => v
                            | None => JBool false
                            end;
            dep_type := match attr "type" field_schema with
                        | Some v => v
                        | None => JStr "unknown"
                        end;
            has_enum := match enum field_schema with Some _ => true | None => false end |}
         dependencies)
    flattened [].

(** *** Extraction order *)

(** The three variables that the nested function [visit] closes over. *)
Record dfs : Type := {
  ordered_fields : list string;
  visited : list string;
  temp_visited : list string
}.

(** [dependencies.get(field, {}).get('depends_on', [])] *)
Definition depends_on_of (dependencies : dict dependency) (field : string) : list string :=
  match dict_get field dependencies with
  | Some d => depends_on d
  | None => []
  end.

(** [visit(field)].  The recursion of the source descends along fields that
    are not yet in [temp_visited]; [fuel] bounds its depth, and [None] is
    "out of fuel". *)
Fixpoint visit (dependencies : dict dependency) (fuel : nat) (field : string) (st : dfs)
  : option dfs :=
  match fuel with
  | O => None
  | S fuel' =>
      if set_mem field (temp_visited st) then Some st
      else if set_mem field (visited st) then Some st
      else
        let st := {| ordered_fields := ordered_fields st;
                     visited := visited st;
                     temp_visited := set_add field (temp_visited st) |} in
        match fold_left
                (fun acc dep =>
                   match acc with
                   | Some st =>
                       if dict_has dep dependencies
                       then visit dependencies fuel' dep st
                       else Some st
                   | None => None
                   end)
                (depends_on_of dependencies field) (Some st)
        with
        | Some st =>
            Some {| ordered_fields := (ordered_fields st ++ [field])%list;
                    visited := set_add field (visited st);
                    temp_visited := set_remove field (temp_visited st) |}
        | None => None
        end
  end.

(** [get_extraction_order(schema)]; the depth of [visit] never exceeds the
    number of fields. *)
Definition get_extraction_order (s : schema) : option (list string) :=
  let dependencies := build_dependency_graph s in
  let fuel := S (List.length dependencies) in
  match fold_left
          (fun acc field =>
             match acc with
             | Some st =>
                 if negb (set_mem field (visited st))
                 then visit dependencies fuel field st
                 else Some st
             | None => None
             end)
          (dict_keys dependencies)
          (Some {| ordered_fields := []; visited := []; temp_visited := [] |})
  with
  | Some st => Some (ordered_fields st)
  | None => None
  end.

(** *** Schema chunks *)

Inductive priority : Type :=
| high
| medium
| low.

Record schema_chunk : Type := {
  chunk_schema_of : schema;
  chunk_id : Z;
  total_chunks : Z;
  dependencies_of : list string;
  priority_of : priority
}.

(** [estimate_schema_tokens({field_path: field_schema})]: the estimator on a
    one-entry dict. *)
Variable estimate_field_tokens : string -> schema -> Z.

(** [_get_field_schema(schema, field_parts)] *)
Fixpoint _get_field_schema (current : schema) (field_parts : list string) : schema :=
  match field_parts with
  | [] => current
  | part :: parts' =>
      match properties current with
      | Some props =>
          match dict_get part props with
          | Some child => _get_field_schema child parts'
          | None => empty_schema
          end
      | None => empty_schema
      end
  end.

(** [current['properties'] = props], keeping the other keys. *)
Definition with_properties (current : schema) (props : dict schema) : schema :=
  Node (attrs current) (enum current) (ref current) (Some props) (items current).

(** [current['properties']] after [if 'properties' not in current:
    current['properties'] = {}]. *)
Definition properties_or_empty (current : schema) : dict schema :=
  match properties current with
  | Some props => props
  | None => []
  end.

(** [_add_field_to_chunk(chunk, field_parts, field_schema)].  The source
    updates the chunk in place; the function returns the updated chunk.  The
    two agree as long as no path runs through a node that was inserted as a
    field, for such a node is shared with the schema it came from. *)
Fixpoint _add_field_to_chunk (current : schema) (field_parts : list string)
    (field_schema : schema) : schema :=
  match field_parts with
  | [] => current
  | [last] =>
      with_properties current (dict_set last field_schema (properties_or_empty current))
  | part :: parts' =>
      let props := properties_or_empty current in
      let props :=
        if negb (dict_has part props) then dict_set part empty_object props else props in
      match dict_get part props with
      | Some child =>
          with_properties current
            (dict_set part (_add_field_to_chunk child parts' field_schema) props)
      | None => with_properties current props
      end
  end.

(** [_get_chunk_dependencies(chunk, dependencies)]; the source collects a
    [set], whose order is not specified: here, the order of insertion. *)
Definition _get_chunk_dependencies (chunk : schema) (dependencies : dict dependency)
  : list string :=
  let chunk_fields := dict_keys (Utils.flatten_schema chunk "") in
  fold_left
    (fun chunk_deps field =>
       if dict_has field dependencies then
         fold_left
           (fun chunk_deps dep =>
              if negb (set_mem dep chunk_fields) then set_add dep chunk_deps else chunk_deps)
           (depends_on_of dependencies field) chunk_deps
       else chunk_deps)
    chunk_fields [].

(** [_calculate_chunk_priority(chunk, dependencies)] *)
Definition _calculate_chunk_priority (chunk : schema) (dependencies : dict dependency)
  : priority :=
  let chunk_fields := Utils.flatten_schema chunk "" in
  let required_count :=
    List.length
      (filter
         (fun kv =>
            match dict_get (fst kv) dependencies with
            | Some d => truthy (dep_required d)
            | None => false
            end)
         chunk_fields) in
  let n := float_of_int (Z.of_nat (List.length chunk_fields)) in
  if Qltb (float_mul n (float_literal 0.7)) (inject_Z (Z.of_nat required_count)) then high
  else if Qltb (float_mul n (float_literal 0.3)) (inject_Z (Z.of_nat required_count))
  then medium
  else low.

(** The local variables of the loop of [_create_dependency_chunks]. *)
Record chunking : Type := {
  chunks : list schema_chunk;
  current_chunk : schema;
  current_tokens : Z;
  next_chunk_id : Z
}.

(** [bool(current_chunk['properties'])] *)
Definition has_fields (chunk : schema) : bool :=
  match properties chunk with
  | Some (_ :: _) => true
  | _ => false
  end.

Definition close_chunk (dependencies : dict dependency) (st : chunking) : schema_chunk :=
  {| chunk_schema_of := current_chunk st;
     chunk_id := next_chunk_id st;
     total_chunks := 0;
     dependencies_of := _get_chunk_dependencies (current_chunk st) dependencies;
     priority_of := _calculate_chunk_priority (current_chunk st) dependencies |}.

(** The body of the loop of [_create_dependency_chunks] for one field. *)
Definition field_step (s : schema) (dependencies : dict dependency) (max_tokens : Z)
    (st : chunking) (field_path : string) : chunking :=
  let field_parts := split_dot field_path in
  let field_schema := _get_field_schema s field_parts in
  let field_tokens := estimate_field_tokens field_path field_schema in
  let st :=
    if ((current_tokens st + field_tokens >? max_tokens)
        && has_fields (current_chunk st))%bool
    then {| chunks := (chunks st ++ [close_chunk dependencies st])%list;
            current_chunk := empty_chunk;
            current_tokens := 0;
            next_chunk_id := next_chunk_id st + 1 |}
    else st in
  {| chunks := chunks st;
     current_chunk := _add_field_to_chunk (current_chunk st) field_parts field_schema;
     current_tokens := current_tokens st + field_tokens;
     next_chunk_id := next_chunk_id st |}.

(** [chunk['total_chunks'] = total_chunks] *)
Definition with_total (total : Z) (chunk : schema_chunk) : schema_chunk :=
  {| chunk_schema_of := chunk_schema_of chunk;
     chunk_id := chunk_id chunk;
     total_chunks := total;
     dependencies_of := dependencies_of chunk;
     priority_of := priority_of chunk |}.

(** [_create_dependency_chunks(schema, dependencies, max_tokens)] *)
Definition _create_dependency_chunks (s : schema) (dependencies : dict dependency)
    (max_tokens : Z) : option (list schema_chunk) :=
  match get_extraction_order s with
  | None => None
  | Some ordered_fields =>
      let st :=
        fold_left (field_step s dependencies max_tokens) ordered_fields
          {| chunks := []; current_chunk := empty_chunk;
             current_tokens := 0; next_chunk_id := 0 |} in
      let chunks :=
        if has_fields (current_chunk st)
        then (chunks st ++ [close_chunk dependencies st])%list
        else chunks st in
      let total := Z.of_nat (List.length chunks) in
      Some (map (with_total total) chunks)
  end.

(** [chunk_schema(schema, max_tokens)]; [None] for [max_tokens] is the
    default, [self.max_tokens_per_chunk]. *)
Definition chunk_schema (s : schema) (max_tokens : option Z) : option (list schema_chunk) :=
  let max_tokens :=
    match max_tokens with
    | Some m => m
    | None => max_tokens_per_chunk
    end in
  let estimated_tokens := estimate_schema_tokens s in
  if estimated_tokens <=? max_tokens then
    Some [{| chunk_schema_of := s;
             chunk_id := 0;
             total_chunks := 1;
             dependencies_of := [];
             priority_of := high |}]
  else
    let dependencies := build_dependency_graph s in
    _create_dependency_chunks s dependencies max_tokens.

End Analyzer.

End SchemaAnalyzer.


(** ** The score as the specification words it

    "depth contributes up to 30 (depth x 5, capped), field count up to 25
    (fields/10, capped), object count up to 25 (objects x 2, capped), enum
    volume up to 20 (enum_count/50, capped); final score is the integer
    sum".  [complexity_formula] is that sum over the rationals and
    [integer_value] drops its fractional part. *)

Definition complexity_formula (depth field_count object_count enum_count : Z) : Q :=
  (Qmin 30 (inject_Z depth * 5)
   + Qmin 25 (inject_Z field_count / 10)
   + Qmin 25 (inject_Z object_count * 2)
   + Qmin 20 (inject_Z enum_count / 50))%Q.

Definition integer_value (q : Q) : Z :=
  if Qle_bool 0 q then Qfloor q else Qceiling q.

(** ** Leaves of a schema

    A leaf is a property whose value has no ['properties'] key of its own;
    [count_leaves] counts the leaves reachable from a node through
    ['properties'], and [leaf_segs] lists, for each of them, the property
    names on the way down. *)

Fixpoint count_leaves (s : schema) : nat :=
  match properties s with
  | Some props =>
      list_sum (map (fun kv =>
                       match properties (snd kv) with
                       | Some _ => count_leaves (snd kv)
                       | None => 1%nat
                       end) props)
  | None => O
  end.

Fixpoint leaf_segs (s : schema) : list (list string) :=
  match properties s with
  | Some props =>
      flat_map (fun kv =>
                  match properties (snd kv) with
                  | Some _ => map (cons (fst kv)) (leaf_segs (snd kv))
                  | None => [[fst kv]]
                  end) props
  | None => []
  end.

(** The path [flatten_schema] gives to a leaf reached from [prefix] through
    the names [segs]. *)
Definition path_of (prefix : string) (segs : list string) : string :=
  fold_left Utils.full_key segs prefix.

(** No key occurs twice in one ['properties'] mapping: so it is of every
    Python [dict]. *)
Fixpoint unique (ks : list string) : bool :=
  match ks with
  | [] => true
  | k :: ks' => negb (set_mem k ks') && unique ks'
  end.

Fixpoint well_formed (s : schema) : bool :=
  match properties s with
  | Some props =>
      unique (map fst props) && forallb (fun kv => well_formed (snd kv)) props
  | None => true
  end.

Fixpoint dot_free (k : string) : bool :=
  match k with
  | EmptyString => true
  | String c k' => negb (Ascii.eqb c dot) && dot_free k'
  end.

(** A property name that is not empty and holds no ['.']. *)
Definition plain (k : string) : bool := negb (String.eqb k "") && dot_free k.

Fixpoint plain_names (s : schema) : bool :=
  match properties s with
  | Some props =>
      forallb (fun kv => plain (fst kv) && plain_names (snd kv)) props
  | None => true
  end.

(** ** utils.py: nested values *)

Module Nested.

(** [get_nested_value(data, path, default)] after [keys = path.split('.')] *)
Fixpoint get_nested (keys : list string) (current : json) (default : json) : json :=
  match keys with
  | [] => current
  | key :: keys' =>
      match current with
      | JDict d =>
          match dict_get key d with
          | Some v => get_nested keys' v default
          | None => default
          end
      | _ => default
      end
  end.

Definition get_nested_value (data : json) (path : string) (default : json) : json :=
  get_nested (split_dot path) data default.

(** [set_nested_value(data, path, value)] after [keys = path.split('.')]:
    the dict is updated in place; what is met on the way down must be a
    dict, or the subscript raises [TypeError]. *)
Fixpoint set_nested (keys : list string) (value : json) (current : dict json)
  : result (dict json) :=
  match keys with
  | [] => Ok current
  | [key] => Ok (dict_set key value current)
  | key :: keys' =>
      let current' :=
        if dict_has key current then current else dict_set key (JDict []) current in
      match dict_get key current' with
      | Some (JDict sub) =>
          sub' <- set_nested keys' value sub ;;
          Ok (dict_set key (JDict sub') current')
      | _ => Raise TypeError
      end
  end.

Definition set_nested_value (data : dict json) (path : string) (value : json)
  : result (dict json) :=
  set_nested (split_dot path) value data.

(** [merge_dicts_deep(dict1, dict2)]; the recursion descends into the
    values of [dict2], which [merge_deep] takes as a JSON value. *)
Fixpoint merge_deep (dict1 : dict json) (dict2 : json) {struct dict2} : dict json :=
  match dict2 with
  | JDict d2 =>
      fold_left
        (fun result kv =>
           let key := fst kv in
           let value := snd kv in
           match dict_get key result, value with
           | Some (JDict r), JDict _ => dict_set key (JDict (merge_deep r value)) result
           | _, _ => dict_set key value result
           end)
        d2 dict1
  | _ => dict1
  end.

Definition merge_dicts_deep (dict1 dict2 : dict json) : dict json :=
  merge_deep dict1 (JDict dict2).

End Nested.

(** ** document_processor.py: merging the results of document chunks *)

Module Merge.

(** [_flatten_dict(d, parent_key)]; [flatten_value] takes the dict as a JSON
    value, on which the recursion descends. *)
Fixpoint flatten_value (v : json) (parent_key : string) : dict json :=
  match v with
  | JDict d =>
      dict_of_items
        (flat_map
           (fun kv =>
              let new_key := Utils.full_key parent_key (fst kv) in
              match snd kv with
              | JDict _ => flatten_value (snd kv) new_key
              | _ => [(new_key, snd kv)]
              end)
           d)
  | _ => []
  end.

Definition _flatten_dict (d : dict json) (parent_key : string) : dict json :=
  flatten_value (JDict d) parent_key.

(** [value_counts[val] = value_counts.get(val, 0) + 1]: keys are compared
    with [==], so [True], [1] and [1.0] are one key. *)
Fixpoint count_value (val : json) (value_counts : list (json * Z)) : list (json * Z) :=
  match value_counts with
  | [] => [(val, 0 + 1)]
  | (k, n) :: rest =>
      if py_eq k val then (k, n + 1) :: rest else (k, n) :: count_value val rest
  end.

(** [max(items, key=lambda x: x[1])]: the first item of maximal count. *)
Definition max_by_count (items : list (json * Z)) : result (json * Z) :=
  match items with
  | [] => Raise ValueError
  | x :: rest =>
      Ok (fold_left (fun best y => if snd y >? snd best then y else best) rest x)
  end.

(** [item in seen] for a [set] of hashable values. *)
Definition seen_mem (item : json) (seen : list json) : bool :=
  existsb (py_eq item) seen.

(** [_resolve_field_conflict(existing_value, new_value, all_values)] *)
Definition _resolve_field_conflict (existing_value new_value : json) (all_values : list json)
  : result json :=
  if py_eq existing_value new_value then Ok existing_value
  else
    match existing_value, new_value with
    | JStr e, JStr n =>
        Ok (if str_len e >=? str_len n then existing_value else new_value)
    | _, _ =>
        if (is_number existing_value && is_number new_value)%bool then
          value_counts <-
            fold_left
              (fun acc val =>
                 counts <- acc ;;
                 if hashable val then Ok (count_value val counts) else Raise TypeError)
              all_values (Ok []) ;;
          best <- max_by_count value_counts ;;
          Ok (fst best)
        else
          match existing_value, new_value with
          | JList e, JList n =>
              let combined := (e ++ n)%list in
              r <- fold_left
                     (fun acc item =>
                        st <- acc ;;
                        let seen := fst st in
                        let result := snd st in
                        if hashable item then
                          if negb (seen_mem item seen)
                          then Ok ((seen ++ [item])%list, (result ++ [item])%list)
                          else Ok st
                        else Raise TypeError)
                     combined (Ok ([], [])) ;;
              Ok (JList (snd r))
          | JBool e, JBool n => Ok (JBool (e || n))
          | _, _ =>
              if negb (is_none new_value) then Ok new_value else Ok existing_value
          end
    end.

(** The dictionaries that [merge_extractions] shares with every call of
    [_merge_with_conflict_resolution]. *)
Record tracking : Type := {
  field_values : dict (list json);
  field_occurrences : dict Z
}.

(** [_merge_with_conflict_resolution(merged_data, chunk_data, field_values,
    field_occurrences)]: the merged data and the updated tracking
    dictionaries. *)
Definition _merge_with_conflict_resolution (merged_data : dict json) (chunk_data : json)
    (tr : tracking) : result (dict json * tracking) :=
  let merged_flat := _flatten_dict merged_data "" in
  chunk_flat <- match chunk_data with
                | JDict d => Ok (_flatten_dict d "")
                | _ => Raise AttributeError
                end ;;
  st <- fold_left
          (fun acc kv =>
             st <- acc ;;
             let merged_flat := fst st in
             let tr := snd st in
             let field_path := fst kv in
             let value := snd kv in
             if is_none value then Ok st
             else
               let tr :=
                 if negb (dict_has field_path (field_occurrences tr))
                 then {| field_values := dict_set field_path [] (field_values tr);
                         field_occurrences := dict_set field_path 0 (field_occurrences tr) |}
                 else tr in
               let tr :=
                 {| field_values :=
                      dict_set field_path
                        (dict_get_default field_path [] (field_values tr) ++ [value])%list
                        (field_values tr);
                    field_occurrences :=
                      dict_set field_path
                        (dict_get_default field_path 0 (field_occurrences tr) + 1)
                        (field_occurrences tr) |} in
               match dict_get field_path merged_flat with
               | None => Ok (dict_set field_path value merged_flat, tr)
               | Some existing_value =>
                   resolved_value <-
                     _resolve_field_conflict existing_value value
                       (dict_get_default field_path [] (field_values tr)) ;;
                   Ok (dict_set field_path resolved_value merged_flat, tr)
               end)
          chunk_flat (Ok (merged_flat, tr)) ;;
  result <- fold_left
              (fun acc kv =>
                 result <- acc ;;
                 Nested.set_nested_value result (fst kv) (snd kv))
              (fst st) (Ok []) ;;
  Ok (result, snd st).

(** [x.get(k, {})] on a value that must be a dict. *)
Definition get_or_empty (k : string) (v : json) : result json :=
  match v with
  | JDict d => Ok (dict_get_default k (JDict []) d)
  | _ => Raise AttributeError
  end.

(** [x.items()] *)
Definition items_of (v : json) : result (dict json) :=
  match v with
  | JDict d => Ok d
  | _ => Raise AttributeError
  end.

(** [a / n] for a number [a] and a positive length [n]. *)
Definition div_len (a : json) (n : nat) : result Q :=
  match num_value a with
  | Some x => Ok (x / inject_Z (Z.of_nat n))%Q
  | None => Raise TypeError
  end.

Record merge_state : Type := {
  merged_data : dict json;
  all_field_confidences : dict (list json);
  total_tokens : json;
  track : tracking
}.

(** [merge_extractions(chunk_results)] *)
Definition merge_extractions (chunk_results : list (dict json)) : result (dict json) :=
  match chunk_results with
  | [] =>
      Ok [("data", JDict []);
          ("confidence", JDict [("overall", JFloat 0); ("fields", JDict [])]);
          ("strategy", JStr "document_chunked");
          ("total_chunks", JInt 0)]
  | [first] =>
      let result := first in
      let result := dict_set "strategy" (JStr "document_chunked") result in
      let result := dict_set "total_chunks" (JInt 1) result in
      Ok result
  | _ =>
      st <- fold_left
              (fun acc chunk_result =>
                 st <- acc ;;
                 let chunk_data := dict_get_default "data" (JDict []) chunk_result in
                 let chunk_confidence := dict_get_default "confidence" (JDict []) chunk_result in
                 m <- _merge_with_conflict_resolution (merged_data st) chunk_data (track st) ;;
                 fields <- get_or_empty "fields" chunk_confidence ;;
                 field_items <- items_of fields ;;
                 let confs :=
                   fold_left
                     (fun all kv =>
                        let all :=
                          if negb (dict_has (fst kv) all) then dict_set (fst kv) [] all else all in
                        dict_set (fst kv)
                          (dict_get_default (fst kv) [] all ++ [snd kv])%list all)
                     field_items (all_field_confidences st) in
                 tokens <- py_add (total_tokens st)
                             (dict_get_default "token_usage" (JInt 0) chunk_result) ;;
                 Ok {| merged_data := fst m;
                       all_field_confidences := confs;
                       total_tokens := tokens;
                       track := snd m |})
              chunk_results
              (Ok {| merged_data := [];
                     all_field_confidences := [];
                     total_tokens := JInt 0;
                     track := {| field_values := []; field_occurrences := [] |} |}) ;;
      final_confidences <-
        fold_left
          (fun acc kv =>
             final <- acc ;;
             let confidences := snd kv in
             total <- py_sum confidences ;;
             avg_confidence <- div_len total (List.length confidences) ;;
             let frequency_weight :=
               (inject_Z (Z.of_nat (List.length confidences))
                / inject_Z (Z.of_nat (List.length chunk_results)))%Q in
             Ok (dict_set (fst kv) (JFloat (avg_confidence * frequency_weight)) final))
          (all_field_confidences st) (Ok []) ;;
      overall_confidence <-
        match final_confidences with
        | [] => Ok (JFloat 0)
        | _ =>
            total <- py_sum (map snd final_confidences) ;;
            q <- div_len total (List.length final_confidences) ;;
            Ok (JFloat q)
        end ;;
      Ok [("data", JDict (merged_data st));
          ("confidence", JDict [("overall", overall_confidence);
                                ("fields", JDict final_confidences)]);
          ("strategy", JStr "document_chunked");
          ("total_chunks", JInt (Z.of_nat (List.length chunk_results)));
          ("token_usage", total_tokens st);
          ("chunk_results", JList (map JDict chunk_results))]
  end.

End Merge.

(** ** confidence_scorer.py: the score of one field *)

Module ConfidenceScorer.

(** [extraction_context]: the source text when the key ['original_text'] is
    present. *)
Record context : Type := { original_text : option string }.

Section Scorer.

(** [re.match(pattern, value)]: whether the pattern matches, or [None] when
    the pattern does not compile ([re.error]). *)
Variable re_match : string -> string -> option bool.

(** [isinstance(value, type_mapping[t])] for the type names of the table;
    [None] when the name is not in the table. *)
Definition type_mapping (t : string) : option (json -> bool) :=
  if String.eqb t "string" then Some is_str
  else if String.eqb t "number" then Some is_number
  else if String.eqb t "integer" then Some is_int
  else if String.eqb t "boolean" then Some is_bool
  else if String.eqb t "array" then Some is_list
  else if String.eqb t "object" then Some is_dict
  else if String.eqb t "null" then Some is_none
  else None.

(** [_score_data_type(value, schema)] *)
Definition _score_data_type (value : json) (s : schema) : result Q :=
  match attr "type" s with
  | None => Ok 1.0%Q
  | Some expected_type =>
      if negb (truthy expected_type) then Ok 1.0%Q
      else if negb (hashable expected_type) then Raise TypeError
      else
        let expected_python_type :=
          match expected_type with
          | JStr t => type_mapping t
          | _ => None
          end in
        if match expected_python_type with
           | Some isinstance => isinstance value
           | None => false
           end
        then Ok 1.0%Q
        else if (py_eq expected_type (JStr "number") && is_int value)%bool then Ok 1.0%Q
        else if (py_eq expected_type (JStr "string") && is_number value)%bool then Ok 0.8%Q
        else Ok 0.3%Q
  end.

(** [_score_enum_match(value, schema)] *)
Definition _score_enum_match (value : json) (s : schema) : Q :=
  match enum s with
  | None => 1.0%Q
  | Some enum_values =>
      if existsb (py_eq value) enum_values then 1.0%Q
      else
        match value with
        | JStr v =>
            if existsb
                 (fun enum_val =>
                    match enum_val with
                    | JStr e => String.eqb (lower v) (lower e)
                    | _ => false
                    end)
                 enum_values
            then 0.9%Q else 0.2%Q
        | _ => 0.2%Q
        end
  end.

(** [_score_pattern_match(value, schema)] *)
Definition _score_pattern_match (value : json) (s : schema) : result Q :=
  match attr "pattern" s, value with
  | Some pattern, JStr v =>
      match pattern with
      | JStr p =>
          match re_match p v with
          | Some true => Ok 1.0%Q
          | Some false => Ok 0.4%Q
          | None => Ok 1.0%Q
          end
      | _ => Raise TypeError
      end
  | _, _ => Ok 1.0%Q
  end.

(** [key in schema and test(value, schema[key])], for a comparison of
    numbers. *)
Definition violates (key : string) (test : Q -> Q -> bool) (value : Q) (s : schema)
  : result bool :=
  match attr key s with
  | None => Ok false
  | Some bound =>
      match num_value bound with
      | Some b => Ok (test value b)
      | None => Raise TypeError
      end
  end.

Definition Qgtb (a b : Q) : bool := Qltb b a.
Definition Qgeb (a b : Q) : bool := Qle_bool b a.

(** [_score_range_validation(value, schema)] *)
Definition _score_range_validation (value : json) (s : schema) : result Q :=
  match num_value value with
  | None => Ok 1.0%Q
  | Some v =>
      let score := 1.0%Q in
      b <- violates "minimum" Qltb v s ;;
      let score := if b then (score * 0.3)%Q else score in
      b <- violates "maximum" Qgtb v s ;;
      let score := if b then (score * 0.3)%Q else score in
      b <- violates "exclusiveMinimum" Qle_bool v s ;;
      let score := if b then (score * 0.3)%Q else score in
      b <- violates "exclusiveMaximum" Qgeb v s ;;
      let score := if b then (score * 0.3)%Q else score in
      Ok score
  end.

(** [_score_length_validation(value, schema)] *)
Definition _score_length_validation (value : json) (s : schema) : result Q :=
  match match value with
        | JStr v => Some (str_len v)
        | JList l => Some (Z.of_nat (List.length l))
        | _ => None
        end with
  | None => Ok 1.0%Q
  | Some length =>
      let score := 1.0%Q in
      b <- violates "minLength" Qltb (inject_Z length) s ;;
      let score := if b then (score * 0.5)%Q else score in
      b <- violates "maxLength" Qgtb (inject_Z length) s ;;
      let score := if b then (score * 0.5)%Q else score in
      Ok score
  end.

(** [_score_context_relevance(value, original_text)] *)
Definition _score_context_relevance (value : json) (text : string) : Q :=
  match value with
  | JStr v =>
      if String.eqb text "" then 1.0%Q
      else
        let value_lower := lower v in
        let text_lower := lower text in
        if str_contains value_lower text_lower then 1.0%Q
        else
          let words := split_ws value_lower in
          if (1 <? List.length words)%nat then
            let matches :=
              List.length (filter (fun word => str_contains word text_lower) words) in
            (0.5 + (inject_Z (Z.of_nat matches) / inject_Z (Z.of_nat (List.length words))) * 0.5)%Q
          else 0.7%Q
  | _ => 1.0%Q
  end.

(** [max(0.0, min(1.0, confidence))] *)
Definition clamp (confidence : Q) : Q :=
  let m := if Qltb confidence 1.0%Q then confidence else 1.0%Q in
  if Qltb 0.0%Q m then m else 0.0%Q.

(** [field_schema.get('required', False)], as a condition. *)
Definition is_required (s : schema) : bool :=
  match attr "required" s with
  | Some v => truthy v
  | None => false
  end.

(** [score_field(field_value, field_schema, extraction_context)] *)
Definition score_field (field_value : json) (field_schema : schema) (ctx : context)
  : result Q :=
  let confidence := 1.0%Q in
  if is_none field_value then
    if is_required field_schema then Ok 0.0%Q else Ok 0.5%Q
  else
    f <- _score_data_type field_value field_schema ;;
    let confidence := (confidence * f)%Q in
    let confidence := (confidence * _score_enum_match field_value field_schema)%Q in
    f <- _score_pattern_match field_value field_schema ;;
    let confidence := (confidence * f)%Q in
    f <- _score_range_validation field_value field_schema ;;
    let confidence := (confidence * f)%Q in
    f <- _score_length_validation field_value field_schema ;;
    let confidence := (confidence * f)%Q in
    let confidence :=
      match original_text ctx with
      | Some text => (confidence * _score_context_relevance field_value text)%Q
      | None => confidence
      end in
    Ok (clamp confidence).

(** *** The scores of a whole extraction *)

(** [jsonschema.validate] and [self.confidence_threshold] *)
Variable validate : json -> schema -> Utils.validation.
Variable confidence_threshold : Q.

(** [_get_review_reason(confidence)] *)
Definition _get_review_reason (confidence : Q) : string :=
  if Qltb confidence 0.3%Q then "Very low confidence - likely extraction error"
  else if Qltb confidence 0.5%Q then "Low confidence - validation failed"
  else if Qltb confidence 0.7%Q then "Medium confidence - may need verification"
  else "Below threshold - minor issues detected".

(** [_get_review_priority(confidence)] *)
Definition _get_review_priority (confidence : Q) : string :=
  if Qltb confidence 0.3%Q then "high"
  else if Qltb confidence 0.5%Q then "medium"
  else "low".

(** One element of the list that [get_review_candidates] returns. *)
Record review_candidate : Type := {
  rc_field : string;
  rc_confidence : Q;
  rc_reason : string;
  rc_priority : string
}.

(** [review_candidates.sort(key=lambda x: x['confidence'])]: a stable
    sort. *)
Fixpoint insert_candidate (x : review_candidate) (l : list review_candidate)
  : list review_candidate :=
  match l with
  | [] => [x]
  | y :: l' =>
      if Qle_bool (rc_confidence x) (rc_confidence y) then x :: l
      else y :: insert_candidate x l'
  end.

Definition sort_candidates (l : list review_candidate) : list review_candidate :=
  fold_right insert_candidate [] l.

(** [get_review_candidates(field_scores, threshold)]; [None] for
    [threshold] is the default, [self.confidence_threshold]. *)
Definition get_review_candidates (field_scores : dict Q) (threshold : option Q)
  : list review_candidate :=
  let threshold :=
    match threshold with
    | Some t => t
    | None => confidence_threshold
    end in
  let review_candidates :=
    fold_left
      (fun review_candidates kv =>
         let field_path := fst kv in
         let score := snd kv in
         if Qltb score threshold
         then (review_candidates ++
               [{| rc_field := field_path;
                   rc_confidence := score;
                   rc_reason := _get_review_reason score;
                   rc_priority := _get_review_priority score |}])%list
         else review_candidates)
      field_scores [] in
  sort_candidates review_candidates.

(** [_calculate_field_scores(result, schema, original_text)] *)
Definition _calculate_field_scores (extracted : json) (s : schema) (text : string)
  : result (dict Q) :=
  let flattened_schema := Utils.flatten_schema s "" in
  fold_left
    (fun acc kv =>
       field_scores <- acc ;;
       let field_path := fst kv in
       let field_schema := snd kv in
       let field_value := Nested.get_nested_value extracted field_path JNull in
       score <- score_field field_value field_schema {| original_text := Some text |} ;;
       Ok (dict_set field_path score field_scores))
    flattened_schema (Ok []).

(** The dict that [_calculate_completion_metrics] returns. *)
Record completion : Type := {
  total_fields : Z;
  completed_fields : Z;
  required_fields : Z;
  completed_required : Z;
  completion_rate : Q;
  required_completion_rate : Q
}.

(** The counters of its loop. *)
Record counters : Type := {
  n_completed_fields : Z;
  n_required_fields : Z;
  n_completed_required : Z
}.

(** [_calculate_completion_metrics(result, schema)] *)
Definition _calculate_completion_metrics (extracted : json) (s : schema) : completion :=
  let flattened_schema := Utils.flatten_schema s "" in
  let total_fields := Z.of_nat (List.length flattened_schema) in
  let st :=
    fold_left
      (fun st kv =>
         let field_path := fst kv in
         let field_schema := snd kv in
         let field_value := Nested.get_nested_value extracted field_path JNull in
         let st :=
           if is_required field_schema then
             {| n_completed_fields := n_completed_fields st;
                n_required_fields := n_required_fields st + 1;
                n_completed_required :=
                  if negb (is_none field_value) then n_completed_required st + 1
                  else n_completed_required st |}
           else st in
         if negb (is_none field_value) then
           {| n_completed_fields := n_completed_fields st + 1;
              n_required_fields := n_required_fields st;
              n_completed_required := n_completed_required st |}
         else st)
      flattened_schema
      {| n_completed_fields := 0; n_required_fields := 0; n_completed_required := 0 |} in
  {| total_fields := total_fields;
     completed_fields := n_completed_fields st;
     required_fields := n_required_fields st;
     completed_required := n_completed_required st;
     completion_rate :=
       if total_fields >? 0
       then (inject_Z (n_completed_fields st) / inject_Z total_fields)%Q
       else 0.0%Q;
     required_completion_rate :=
       if n_required_fields st >? 0
       then (inject_Z (n_completed_required st) / inject_Z (n_required_fields st))%Q
       else 1.0%Q |}.

(** [_flatten_dict(d, parent_key)]: the method has the text of its namesake
    in document_processor.py. *)
Definition _flatten_dict (d : dict json) (parent_key : string) : dict json :=
  Merge.flatten_value (JDict d) parent_key.

(** [_calculate_type_consistency(result, schema)], on the flattened result
    and the flattened schema. *)
Definition _calculate_type_consistency (flat : dict json) (flattened_schema : dict schema)
  : result Q :=
  match flat with
  | [] => Ok 1.0%Q
  | _ =>
      st <- fold_left
              (fun acc kv =>
                 st <- acc ;;
                 let consistent_fields := fst st in
                 let total_fields := snd st in
                 match dict_get (fst kv) flattened_schema with
                 | Some field_schema =>
                     score <- _score_data_type (snd kv) field_schema ;;
                     Ok (if Qle_bool 0.8%Q score then consistent_fields + 1
                         else consistent_fields,
                         total_fields + 1)
                 | None => Ok st
                 end)
              flat (Ok (0, 0)) ;;
      Ok (if snd st >? 0 then (inject_Z (fst st) / inject_Z (snd st))%Q else 1.0%Q)
  end.

(** [_calculate_enum_consistency(result, schema)] *)
Definition _calculate_enum_consistency (flat : dict json) (flattened_schema : dict schema)
  : Q :=
  match flat with
  | [] => 1.0%Q
  | _ =>
      let st :=
        fold_left
          (fun st kv =>
             let consistent_fields := fst st in
             let enum_fields := snd st in
             match dict_get (fst kv) flattened_schema with
             | Some field_schema =>
                 match enum field_schema with
                 | Some _ =>
                     (if Qle_bool 0.8%Q (_score_enum_match (snd kv) field_schema)
                      then consistent_fields + 1 else consistent_fields,
                      enum_fields + 1)
                 | None => st
                 end
             | None => st
             end)
          flat (0, 0) in
      if snd st >? 0 then (inject_Z (fst st) / inject_Z (snd st))%Q else 1.0%Q
  end.

(** [_calculate_cross_field_consistency(result, schema)] *)
Definition _calculate_cross_field_consistency (extracted : json) (s : schema) : Q := 0.8%Q.

(** The dict that [_calculate_consistency_scores] returns. *)
Record consistency : Type := {
  type_consistency : Q;
  enum_consistency : Q;
  cross_field_consistency : Q;
  overall_consistency : Q
}.

(** [_calculate_consistency_scores(result, schema)]; a result that is no
    dict has no [items]. *)
Definition _calculate_consistency_scores (extracted : json) (s : schema)
  : result consistency :=
  flattened_result <- match extracted with
                      | JDict d => Ok (_flatten_dict d "")
                      | _ => Raise AttributeError
                      end ;;
  let flattened_schema := Utils.flatten_schema s "" in
  type_consistency <- _calculate_type_consistency flattened_result flattened_schema ;;
  let enum_consistency := _calculate_enum_consistency flattened_result flattened_schema in
  let cross_field_consistency := _calculate_cross_field_consistency extracted s in
  let overall_consistency :=
    ((type_consistency + enum_consistency + cross_field_consistency) / 3)%Q in
  Ok {| type_consistency := type_consistency;
        enum_consistency := enum_consistency;
        cross_field_consistency := cross_field_consistency;
        overall_consistency := overall_consistency |}.

(** [_calculate_overall_confidence(field_scores, completion_metrics,
    consistency_scores, is_schema_valid)] *)
Definition _calculate_overall_confidence (field_scores : dict Q)
    (completion_metrics : completion) (consistency_scores : consistency)
    (is_schema_valid : bool) : Q :=
  match field_scores with
  | [] => 0.0%Q
  | _ =>
      let field_confidence :=
        (fold_left Qplus (map snd field_scores) 0
         / inject_Z (Z.of_nat (List.length field_scores)))%Q in
      let completion_factor :=
        (completion_rate completion_metrics * 0.3
         + required_completion_rate completion_metrics * 0.7)%Q in
      let consistency_factor := overall_consistency consistency_scores in
      let schema_factor := if is_schema_valid then 1.0%Q else 0.5%Q in
      let overall :=
        (field_confidence * 0.5 + completion_factor * 0.2
         + consistency_factor * 0.2 + schema_factor * 0.1)%Q in
      clamp overall
  end.

(** The dict that [score_extraction] returns. *)
Record extraction_score : Type := {
  es_overall : Q;
  es_fields : dict Q;
  es_completion : completion;
  es_consistency : consistency;
  es_schema_valid : bool;
  es_validation_error : option string;
  es_review_candidates : list review_candidate;
  es_confidence_threshold : Q
}.

(** [score_extraction(result, schema, original_text)] *)
Definition score_extraction (extracted : json) (s : schema) (text : string)
  : result extraction_score :=
  v <- Utils.validate_json_against_schema validate extracted s ;;
  let is_valid := fst v in
  let validation_error := snd v in
  field_scores <- _calculate_field_scores extracted s text ;;
  let completion_metrics := _calculate_completion_metrics extracted s in
  consistency_scores <- _calculate_consistency_scores extracted s ;;
  let overall_confidence :=
    _calculate_overall_confidence field_scores completion_metrics consistency_scores
      is_valid in
  let review_candidates := get_review_candidates field_scores (Some confidence_threshold) in
  Ok {| es_overall := overall_confidence;
        es_fields := field_scores;
        es_completion := completion_metrics;
        es_consistency := consistency_scores;
        es_schema_valid := is_valid;
        es_validation_error := if negb is_valid then Some validation_error else None;
        es_review_candidates := review_candidates;
        es_confidence_threshold := confidence_threshold |}.

End Scorer.

End ConfidenceScorer.

(** ** extraction_engine.py: the hierarchical and the chunked strategy *)

Module ExtractionEngine.

Import SchemaAnalyzer.

(** What the engine reads of a chat completion: the text of the first
    choice, and [response.usage.total_tokens] when [response.usage] is
    there. *)
Record response : Type := {
  content : string;
  usage : option Z
}.

(** [{'overall': ..., 'fields': ...}], with the validation keys that
    [calculate_confidence] adds ([None]: the key is absent). *)
Record confidence : Type := {
  overall : Q;
  fields : dict Q;
  schema_valid : option bool;
  validation_error : option string
}.

(** [{'overall': 0.0, 'fields': {}}] *)
Definition no_confidence : confidence :=
  {| overall := 0.0; fields := []; schema_valid := None; validation_error := None |}.

(** The [context] argument of [_build_extraction_prompt]. *)
Inductive prompt_context : Type :=
| NoContext
| DictContext (d : dict json)
| TextContext (t : string).

(** One element of [results] in [extract_complex]; [None] in [entry_priority]
    or [entry_error] is an absent key. *)
Record chunk_entry : Type := {
  entry_data : json;
  entry_confidence : confidence;
  entry_chunk_id : Z;
  entry_priority : option priority;
  entry_error : option string
}.

(** The dict that [extract_complex] returns. *)
Record complex_result : Type := {
  cr_data : dict json;
  cr_confidence : confidence;
  cr_strategy : strategy;
  cr_token_usage : Z;
  cr_chunk_results : list chunk_entry
}.

(** The dict that [extract_hierarchical] returns: these four keys and no
    other. *)
Record hierarchical_result : Type := {
  hr_data : dict json;
  hr_confidence : confidence;
  hr_strategy : strategy;
  hr_token_usage : Z
}.

(** [sum(scores.values()) / len(scores) if scores else 0.0] *)
Definition mean_score (scores : dict Q) : Q :=
  match scores with
  | [] => 0.0%Q
  | _ => (fold_left Qplus (map snd scores) 0 / inject_Z (Z.of_nat (List.length scores)))%Q
  end.

(** [sorted(l, key=key)]: a stable sort. *)
Fixpoint insert_by {A : Type} (key : A -> Z) (x : A) (l : list A) : list A :=
  match l with
  | [] => [x]
  | y :: l' => if key x <=? key y then x :: l else y :: insert_by key x l'
  end.

Definition sorted_by {A : Type} (key : A -> Z) (l : list A) : list A :=
  fold_right (insert_by key) [] l.

(** [{'high': 0, 'medium': 1, 'low': 2}[x['priority']]] *)
Definition priority_rank (c : schema_chunk) : Z :=
  match priority_of c with
  | high => 0
  | medium => 1
  | low => 2
  end.

(** [_group_fields_by_level(extraction_order)]: a dict from level to fields,
    in the order in which the levels first occur. *)
Fixpoint level_append (level : Z) (field : string) (levels : list (Z * list string))
  : list (Z * list string) :=
  match levels with
  | [] => [(level, [field])]
  | (l, fs) :: rest =>
      if Z.eqb l level then (l, (fs ++ [field])%list) :: rest
      else (l, fs) :: level_append level field rest
  end.

Definition _group_fields_by_level (extraction_order : list string)
  : list (Z * list string) :=
  fold_left (fun levels field => level_append (count_dot field) field levels)
    extraction_order [].

(** The body of the loop over [parts] in [_build_level_schema], and the
    insertion of the final field. *)
Fixpoint build_level_path (current_schema current_level : schema) (parts : list string)
  : schema :=
  match parts with
  | [] => current_level
  | [last] =>
      match properties current_schema with
      | Some props =>
          match dict_get last props with
          | Some field_schema =>
              with_properties current_level
                (dict_set last field_schema (properties_or_empty current_level))
          | None => current_level
          end
      | None => current_level
      end
  | part :: parts' =>
      match match properties current_schema with
            | Some props => dict_get part props
            | None => None
            end with
      | Some child_schema =>
          let props := properties_or_empty current_level in
          let props :=
            if negb (dict_has part props) then dict_set part empty_object props else props in
          match dict_get part props with
          | Some child_level =>
              with_properties current_level
                (dict_set part (build_level_path child_schema child_level parts') props)
          | None => with_properties current_level props
          end
      | None => build_level_path current_schema current_level parts'
      end
  end.

(** [_build_level_schema(full_schema, fields)] *)
Definition _build_level_schema (full_schema : schema) (fields : list string) : schema :=
  fold_left
    (fun level_schema field_path =>
       build_level_path full_schema level_schema (split_dot field_path))
    fields empty_object.

Section Engine.

(** [self.client.chat.completions.create] with a system and a user message:
    the model call, which can fail. *)
Variable chat_completion : string -> string -> result response.

(** [json.loads] *)
Variable json_loads : string -> result json.

(** [json.dumps(value, indent=2)] and [str] on integers and exceptions. *)
Variable json_dumps : json -> string.
Variable str_of_int : Z -> string.
Variable str_of_exn : exn -> string.

(** [calculate_confidence(result, schema, original_text)]; it validates with
    the JSON Schema library and compares values with bounds, and can raise. *)
Variable calculate_confidence : json -> schema -> string -> result confidence.

(** [_build_extraction_prompt(text, schema, context)]: string formatting. *)
Variable _build_extraction_prompt : string -> schema -> prompt_context -> string.

(** [response.usage.total_tokens if response.usage else 0] *)
Definition tokens_of (r : response) : Z :=
  match usage r with
  | Some n => n
  | None => 0
  end.

(** [_build_chunk_context(previous_results, dependencies)] *)
Definition _build_chunk_context (previous_results : dict json) (dependencies : list string)
  : string :=
  match previous_results, dependencies with
  | [], _ => ""
  | _, [] => ""
  | _, _ =>
      let context_data :=
        fold_left
          (fun context_data dep =>
             let value := Nested.get_nested_value (JDict previous_results) dep JNull in
             if negb (is_none value) then dict_set dep value context_data else context_data)
          dependencies [] in
      match context_data with
      | [] => ""
      | _ => "Previously extracted data: " ++ json_dumps (JDict context_data)
      end
  end.

(** The model call and the parsing of its reply, the first two statements
    of every [try]: the reply and its JSON payload, or the exception of the
    one that failed. *)
Definition ask (system prompt : string) : result (response * json) :=
  response <- chat_completion system prompt ;;
  payload <- json_loads (content response) ;;
  Ok (response, payload).

(** *** [extract_complex] *)

Record complex_state : Type := {
  results : list chunk_entry;
  total_tokens : Z;
  previous_results : dict json
}.

Definition chunk_system_message (chunk_info : schema_chunk) : string :=
  "You are extracting chunk " ++ str_of_int (chunk_id chunk_info + 1) ++ " of "
  ++ str_of_int (total_chunks chunk_info)
  ++ ". Use provided context from previous extractions.".

Definition chunk_prompt (text : string) (chunk_info : schema_chunk) (st : complex_state)
  : string :=
  let context_prompt := _build_chunk_context (previous_results st) (dependencies_of chunk_info) in
  _build_extraction_prompt text (chunk_schema_of chunk_info) (TextContext context_prompt).

(** The body of the [try] for one chunk: the state it leaves, and the
    exception if one was raised.  What was appended to [results] before the
    exception stays appended. *)
Definition try_chunk (text : string) (chunk_info : schema_chunk) (st : complex_state)
  : complex_state * option exn :=
  let chunk_schema := chunk_schema_of chunk_info in
  let prompt := chunk_prompt text chunk_info st in
  match ask (chunk_system_message chunk_info) prompt with
  | Raise e => (st, Some e)
  | Ok (response, chunk_result) =>
      match calculate_confidence chunk_result chunk_schema text with
      | Raise e => (st, Some e)
      | Ok confidence =>
          let st :=
            {| results :=
                 (results st ++
                  [{| entry_data := chunk_result;
                      entry_confidence := confidence;
                      entry_chunk_id := chunk_id chunk_info;
                      entry_priority := Some (priority_of chunk_info);
                      entry_error := None |}])%list;
               total_tokens := total_tokens st;
               previous_results := previous_results st |} in
          match chunk_result with
          | JDict d =>
              ({| results := results st;
                  total_tokens := total_tokens st + tokens_of response;
                  previous_results := Nested.merge_dicts_deep (previous_results st) d |},
               None)
          | _ => (st, Some AttributeError)
          end
      end
  end.

(** The entry that the [except] clause appends. *)
Definition error_entry (chunk_info : schema_chunk) (e : exn) : chunk_entry :=
  {| entry_data := JDict [];
     entry_confidence := no_confidence;
     entry_chunk_id := chunk_id chunk_info;
     entry_priority := None;
     entry_error := Some (str_of_exn e) |}.

(** One turn of the loop over the sorted chunks: [try] and [except]. *)
Definition chunk_step (text : string) (st : complex_state) (chunk_info : schema_chunk)
  : complex_state :=
  match try_chunk text chunk_info st with
  | (st', None) => st'
  | (st', Some e) =>
      {| results := (results st' ++ [error_entry chunk_info e])%list;
         total_tokens := total_tokens st';
         previous_results := previous_results st' |}
  end.

(** [extract_complex(text, schema_chunks)] *)
Definition extract_complex (text : string) (schema_chunks : list schema_chunk)
  : result complex_result :=
  let sorted_chunks := sorted_by priority_rank schema_chunks in
  let st :=
    fold_left (chunk_step text) sorted_chunks
      {| results := []; total_tokens := 0; previous_results := [] |} in
  merged <-
    fold_left
      (fun acc entry =>
         m <- acc ;;
         match entry_data entry with
         | JDict d =>
             Ok (Nested.merge_dicts_deep (fst m) d,
                 dict_update (snd m) (fields (entry_confidence entry)))
         | _ => Raise AttributeError
         end)
      (results st) (Ok ([], [])) ;;
  let merged_data := fst merged in
  let all_field_confidences := snd merged in
  Ok {| cr_data := merged_data;
        cr_confidence := {| overall := mean_score all_field_confidences;
                            fields := all_field_confidences;
                            schema_valid := None;
                            validation_error := None |};
        cr_strategy := multi_pass_chunked;
        cr_token_usage := total_tokens st;
        cr_chunk_results := results st |}.

(** *** [extract_hierarchical] *)

Record hierarchical_state : Type := {
  h_result : dict json;
  confidence_scores : dict Q;
  h_total_tokens : Z
}.

Definition level_system_message (level : Z) : string :=
  "You are extracting data at hierarchy level " ++ str_of_int level
  ++ ". Use any previously extracted data as context.".

Definition level_prompt (text : string) (s : schema) (level_fields : list string)
    (st : hierarchical_state) : string :=
  _build_extraction_prompt text (_build_level_schema s level_fields) (DictContext (h_result st)).

(** The body of the [try] for one level. *)
Definition try_level (text : string) (s : schema) (level : Z) (level_fields : list string)
    (st : hierarchical_state) : hierarchical_state * option exn :=
  let level_schema := _build_level_schema s level_fields in
  match ask (level_system_message level) (level_prompt text s level_fields st) with
  | Raise e => (st, Some e)
  | Ok (response, level_result) =>
      match level_result with
      | JDict d =>
          let st :=
            {| h_result := Nested.merge_dicts_deep (h_result st) d;
               confidence_scores := confidence_scores st;
               h_total_tokens := h_total_tokens st |} in
          match calculate_confidence level_result level_schema text with
          | Raise e => (st, Some e)
          | Ok level_confidence =>
              ({| h_result := h_result st;
                  confidence_scores :=
                    dict_update (confidence_scores st) (fields level_confidence);
                  h_total_tokens := h_total_tokens st + tokens_of response |},
               None)
          end
      | _ => (st, Some AttributeError)
      end
  end.

(** One turn of the loop over the levels: the [except] clause prints the
    exception and goes on. *)
Definition level_step (text : string) (s : schema) (st : hierarchical_state)
    (lf : Z * list string) : hierarchical_state :=
  fst (try_level text s (fst lf) (snd lf) st).

(** [extract_hierarchical(text, schema)]; [None] only if
    [get_extraction_order] runs out of fuel. *)
Definition extract_hierarchical (text : string) (s : schema) : option hierarchical_result :=
  match get_extraction_order s with
  | None => None
  | Some extraction_order =>
      let levels := _group_fields_by_level extraction_order in
      let st :=
        fold_left (level_step text s) levels
          {| h_result := []; confidence_scores := []; h_total_tokens := 0 |} in
      Some {| hr_data := h_result st;
              hr_confidence := {| overall := mean_score (confidence_scores st);
                                  fields := confidence_scores st;
                                  schema_valid := None;
                                  validation_error := None |};
              hr_strategy := multi_pass_hierarchical;
              hr_token_usage := h_total_tokens st |}
  end.

End Engine.

(** *** The confidence of a reply, and the single pass *)

Section Confidence.

(** [jsonschema.validate], [re.match] ([None]: the pattern does not compile)
    and [str] on values and exceptions. *)
Variable validate : json -> schema -> Utils.validation.
Variable re_match : string -> string -> option bool.
Variable str_of_json : json -> string.
Variable str_of_exn : exn -> string.

(** [_validate_type(value, expected_type)]; its table of types is that of
    [_score_data_type]. *)
Definition _validate_type (value expected_type : json) : result bool :=
  if negb (hashable expected_type) then Raise TypeError
  else
    match match expected_type with
          | JStr t => ConfidenceScorer.type_mapping t
          | _ => None
          end with
    | Some isinstance => Ok (isinstance value)
    | None => Ok true
    end.

(** [_calculate_field_confidence(result, field_path, field_schema,
    original_text)] *)
Definition _calculate_field_confidence (extracted : json) (field_path : string)
    (field_schema : schema) (text : string) : result Q :=
  let field_value := Nested.get_nested_value extracted field_path JNull in
  let confidence := 1.0%Q in
  if is_none field_value then
    if ConfidenceScorer.is_required field_schema then Ok 0.0%Q else Ok 0.5%Q
  else
    let expected_type := attr "type" field_schema in
    confidence <-
      match expected_type with
      | Some t =>
          if truthy t then
            valid <- _validate_type field_value t ;;
            Ok (if negb valid then (confidence * 0.6)%Q else confidence)
          else Ok confidence
      | None => Ok confidence
      end ;;
    let confidence :=
      match enum field_schema with
      | Some enum_values =>
          if negb (existsb (py_eq field_value) enum_values) then (confidence * 0.4)%Q
          else confidence
      | None => confidence
      end in
    confidence <-
      match expected_type, attr "pattern" field_schema with
      | Some t, Some pattern =>
          if py_eq t (JStr "string") then
            match pattern with
            | JStr p =>
                match re_match p (str_of_json field_value) with
                | Some true => Ok confidence
                | Some false => Ok (confidence * 0.7)%Q
                | None => Raise (OtherError "re.error")
                end
            | _ => Raise TypeError
            end
          else Ok confidence
      | _, _ => Ok confidence
      end ;;
    if match expected_type with
       | Some t => (py_eq t (JStr "number") || py_eq t (JStr "integer"))%bool
       | None => false
       end
    then
      below <- match attr "minimum" field_schema with
               | Some minimum => py_lt field_value minimum
               | None => Ok false
               end ;;
      let confidence := if below then (confidence * 0.5)%Q else confidence in
      above <- match attr "maximum" field_schema with
               | Some maximum => py_gt field_value maximum
               | None => Ok false
               end ;;
      let confidence := if above then (confidence * 0.5)%Q else confidence in
      Ok confidence
    else Ok confidence.

(** [calculate_confidence(result, schema, original_text)] *)
Definition calculate_confidence (extracted : json) (s : schema) (text : string)
  : result confidence :=
  v <- Utils.validate_json_against_schema validate extracted s ;;
  let is_valid := fst v in
  let validation_error := snd v in
  let base_confidence := if is_valid then 0.8%Q else 0.3%Q in
  let flattened_schema := Utils.flatten_schema s "" in
  field_confidences <-
    fold_left
      (fun acc kv =>
         field_confidences <- acc ;;
         field_confidence <- _calculate_field_confidence extracted (fst kv) (snd kv) text ;;
         Ok (dict_set (fst kv) field_confidence field_confidences))
      flattened_schema (Ok []) ;;
  let overall_confidence :=
    match field_confidences with
    | [] => base_confidence
    | _ =>
        (fold_left Qplus (map snd field_confidences) 0
         / inject_Z (Z.of_nat (List.length field_confidences)))%Q
    end in
  Ok {| overall := overall_confidence;
        fields := field_confidences;
        schema_valid := Some is_valid;
        validation_error := if negb is_valid then Some validation_error else None |}.

(** The model call, [json.loads] and the prompt, as in the section above. *)
Variable chat_completion : string -> string -> result response.
Variable json_loads : string -> result json.
Variable _build_extraction_prompt : string -> schema -> prompt_context -> string.

(** The dict that [extract_simple] returns; [None] is an absent key. *)
Record simple_result : Type := {
  sr_data : json;
  sr_confidence : confidence;
  sr_strategy : strategy;
  sr_token_usage : option Z;
  sr_error : option string
}.

Definition simple_system_message : string :=
  "You are an expert data extraction system. Extract structured data from text according to the provided JSON schema. Return only valid JSON that matches the schema exactly.".

(** [extract_simple(text, schema)] *)
Definition extract_simple (text : string) (s : schema) : simple_result :=
  let prompt := _build_extraction_prompt text s NoContext in
  match
    reply <- ask chat_completion json_loads simple_system_message prompt ;;
    confidence <- calculate_confidence (snd reply) s text ;;
    Ok {| sr_data := snd reply;
          sr_confidence := confidence;
          sr_strategy := single_pass;
          sr_token_usage := Some (tokens_of (fst reply));
          sr_error := None |}
  with
  | Ok r => r
  | Raise e =>
      {| sr_data := JDict [];
         sr_confidence := no_confidence;
         sr_strategy := single_pass;
         sr_token_usage := None;
         sr_error := Some (str_of_exn e) |}
  end.

End Confidence.

End ExtractionEngine.

(** ** document_processor.py: chunking a document *)

Module DocumentProcessor.

(** One element of the list that [chunk_document] returns; [has_overlap] is
    [None] where the dict has no such key. *)
Record chunk : Type := {
  text : string;
  chunk_id : Z;
  start_pos : Z;
  end_pos : Z;
  token_count : Z;
  sentence_count : Z;
  has_overlap : option bool
}.

(** [l[-n:]] for [n > 0] *)
Definition last_n {A : Type} (n : nat) (l : list A) : list A :=
  skipn (List.length l - n) l.

Definition sentence_pattern : string :=
  "(?<=[.!?])\s+(?=[A-Z])|(?<=[.!?])\s*\n+\s*(?=[A-Z])".

Definition clause_patterns : list string :=
  [",\s+"; ";\s+"; "\s+and\s+"; "\s+or\s+"; "\s+but\s+"].

Section Chunker.

(** [count_tokens(text)]: the tokenizer. *)
Variable count_tokens : string -> Z.

(** [re.split(pattern, text)] *)
Variable re_split : string -> string -> list string.

(** [self.max_tokens_per_chunk] and [self.overlap_tokens] *)
Variable max_tokens_per_chunk : Z.
Variable overlap_tokens : Z.

(** [_split_into_sentences(text)] *)
Definition _split_into_sentences (text : string) : list string :=
  let sentences := re_split sentence_pattern (strip text) in
  let cleaned_sentences :=
    filter (fun sentence => negb (String.eqb sentence "") && (str_len sentence >? 10))%bool
      (map strip sentences) in
  match cleaned_sentences with
  | [] => [text]
  | _ => cleaned_sentences
  end.

(** The loop over [parts] for one clause pattern in
    [_split_oversized_sentence]. *)
Definition join_clauses (max_tokens : Z) (parts : list string) : list string :=
  let st :=
    fold_left
      (fun st part =>
         let chunks := fst st in
         let current_chunk := snd st in
         let test_chunk :=
           if negb (String.eqb current_chunk "") then current_chunk ++ part else part in
         if count_tokens test_chunk <=? max_tokens then (chunks, test_chunk)
         else
           (if negb (String.eqb current_chunk "")
            then (chunks ++ [current_chunk])%list else chunks,
            part))
      parts ([], "") in
  if negb (String.eqb (snd st) "") then (fst st ++ [snd st])%list else fst st.

(** The fallback of [_split_oversized_sentence]: word by word. *)
Definition join_words (max_tokens : Z) (words : list string) : list string :=
  let st :=
    fold_left
      (fun st word =>
         let chunks := fst st in
         let current_chunk := snd st in
         let test_chunk := (current_chunk ++ [word])%list in
         if count_tokens (join " " test_chunk) <=? max_tokens then (chunks, test_chunk)
         else
           (match current_chunk with
            | [] => chunks
            | _ => (chunks ++ [join " " current_chunk])%list
            end,
            [word]))
      words ([], []) in
  match snd st with
  | [] => fst st
  | current_chunk => (fst st ++ [join " " current_chunk])%list
  end.

(** [_split_oversized_sentence(sentence, max_tokens)] *)
Definition _split_oversized_sentence (sentence : string) (max_tokens : Z) : list string :=
  (fix try_patterns (patterns : list string) : list string :=
     match patterns with
     | [] => join_words max_tokens (split_ws sentence)
     | pattern :: patterns' =>
         let parts := re_split pattern sentence in
         if (1 <? List.length parts)%nat then
           let chunks := join_clauses max_tokens parts in
           if forallb (fun chunk => count_tokens chunk <=? max_tokens) chunks
           then chunks
           else try_patterns patterns'
         else try_patterns patterns'
     end) clause_patterns.

(** The truncation loop of [_get_overlap_text]: words are taken from the end
    until one does not fit. *)
Fixpoint truncate_words (reversed_words : list string) (truncated : list string)
    (current_tokens : Z) : list string :=
  match reversed_words with
  | [] => truncated
  | word :: rest =>
      let word_tokens := count_tokens word in
      if current_tokens + word_tokens <=? overlap_tokens
      then truncate_words rest (word :: truncated) (current_tokens + word_tokens)
      else truncated
  end.

(** [_get_overlap_text(existing_chunks, current_chunk_text)] *)
Definition _get_overlap_text (existing_chunks : list chunk) (current_chunk_text : string)
  : string :=
  match rev existing_chunks with
  | [] => ""
  | last_chunk :: _ =>
      let last_chunk_sentences := _split_into_sentences (text last_chunk) in
      let overlap_sentences :=
        if (2 <=? List.length last_chunk_sentences)%nat
        then last_n 2 last_chunk_sentences
        else last_chunk_sentences in
      let overlap_text := join " " overlap_sentences in
      if count_tokens overlap_text >? overlap_tokens
      then join " " (truncate_words (rev (split_ws overlap_text)) [] 0)
      else overlap_text
  end.

(** [_get_overlap_sentences(current_chunk)] *)
Definition _get_overlap_sentences (current_chunk : list string) : list string :=
  if (List.length current_chunk <=? 2)%nat then []
  else
    let overlap_count := Nat.min 2 (List.length current_chunk / 3) in
    if (0 <? overlap_count)%nat then last_n overlap_count current_chunk else [].

(** The local variables of the loop of [chunk_document]. *)
Record chunking : Type := {
  chunks : list chunk;
  current_chunk : list string;
  current_tokens : Z;
  next_chunk_id : Z;
  text_position : Z
}.

(** The chunk that closes [current_chunk], with the overlap taken from the
    chunk before it. *)
Definition overlapped_chunk (st : chunking) : chunk :=
  let chunk_text := join " " (current_chunk st) in
  let overlap_text := _get_overlap_text (chunks st) chunk_text in
  let chunk_text :=
    if negb (String.eqb overlap_text "") then overlap_text ++ " " ++ chunk_text
    else chunk_text in
  {| text := chunk_text;
     chunk_id := next_chunk_id st;
     start_pos := text_position st - str_len (join " " (current_chunk st));
     end_pos := text_position st;
     token_count := count_tokens chunk_text;
     sentence_count := Z.of_nat (List.length (current_chunk st));
     has_overlap := Some (negb (String.eqb overlap_text "")) |}.

(** The body of the loop of [chunk_document] for one sentence. *)
Definition sentence_step (max_tokens : Z) (st : chunking) (sentence : string) : chunking :=
  let sentence_tokens := count_tokens sentence in
  if sentence_tokens >? max_tokens then
    let st :=
      match current_chunk st with
      | [] => st
      | _ =>
          let chunk_text := join " " (current_chunk st) in
          {| chunks :=
               (chunks st ++
                [{| text := chunk_text;
                    chunk_id := next_chunk_id st;
                    start_pos := text_position st - str_len chunk_text;
                    end_pos := text_position st;
                    token_count := current_tokens st;
                    sentence_count := Z.of_nat (List.length (current_chunk st));
                    has_overlap := None |}])%list;
             current_chunk := [];
             current_tokens := 0;
             next_chunk_id := next_chunk_id st + 1;
             text_position := text_position st |}
      end in
    fold_left
      (fun st sub_chunk =>
         {| chunks :=
              (chunks st ++
               [{| text := sub_chunk;
                   chunk_id := next_chunk_id st;
                   start_pos := text_position st;
                   end_pos := text_position st + str_len sub_chunk;
                   token_count := count_tokens sub_chunk;
                   sentence_count := 1;
                   has_overlap := None |}])%list;
            current_chunk := current_chunk st;
            current_tokens := current_tokens st;
            next_chunk_id := next_chunk_id st + 1;
            text_position := text_position st + str_len sub_chunk |})
      (_split_oversized_sentence sentence max_tokens) st
  else
    let st :=
      if ((current_tokens st + sentence_tokens >? max_tokens)
          && match current_chunk st with [] => false | _ => true end)%bool
      then
        let overlap_sentences := _get_overlap_sentences (current_chunk st) in
        {| chunks := (chunks st ++ [overlapped_chunk st])%list;
           current_chunk := overlap_sentences;
           current_tokens := fold_left Z.add (map count_tokens overlap_sentences) 0;
           next_chunk_id := next_chunk_id st + 1;
           text_position := text_position st |}
      else st in
    {| chunks := chunks st;
       current_chunk := (current_chunk st ++ [sentence])%list;
       current_tokens := current_tokens st + sentence_tokens;
       next_chunk_id := next_chunk_id st;
       text_position := text_position st + (str_len sentence + 1) |}.

(** [chunk_document(text, max_tokens)]; [None] for [max_tokens] is the
    default, [self.max_tokens_per_chunk]. *)
Definition chunk_document (document : string) (max_tokens : option Z) : list chunk :=
  let max_tokens :=
    match max_tokens with
    | Some m => m
    | None => max_tokens_per_chunk
    end in
  let sentences := _split_into_sentences document in
  let st :=
    fold_left (sentence_step max_tokens) sentences
      {| chunks := []; current_chunk := []; current_tokens := 0;
         next_chunk_id := 0; text_position := 0 |} in
  match current_chunk st with
  | [] => chunks st
  | _ => (chunks st ++ [overlapped_chunk st])%list
  end.

(** [summarize_chunks(chunks)] *)
Definition summarize_chunks (chunks : list chunk) : string :=
  match chunks with
  | [] => ""
  | [only] =>
      if str_len (text only) >? 1000 then substring 0 1000 (text only) ++ "..."
      else text only
  | _ =>
      let summary_parts :=
        fold_left
          (fun summary_parts chunk =>
             let chunk_text := text chunk in
             let sentences := _split_into_sentences chunk_text in
             if (2 <=? List.length sentences)%nat then
               let summary_parts := (summary_parts ++ [hd "" sentences])%list in
               if (2 <? List.length sentences)%nat
               then (summary_parts ++ [last sentences ""])%list
               else summary_parts
             else
               match sentences with
               | [] => summary_parts
               | first :: _ => (summary_parts ++ [first])%list
               end)
          (firstn 5 chunks) [] in
      let summary := join " " summary_parts in
      if str_len summary >? 2000 then substring 0 2000 summary ++ "..." else summary
  end.

End Chunker.

End DocumentProcessor.
(** * Invariants and examples *)

(** The definitions that the statements and their proofs are written with:
    an induction principle for schemas, the invariants of the loops, and the
    schemas, documents and library stand-ins of the examples. *)

(** ** Induction on schemas *)

Section SchemaInduction.

Variable P : schema -> Prop.

Hypothesis step : forall a e r props it,
  (forall ps, props = Some ps -> Forall (fun kv => P (snd kv)) ps) ->
  (forall i, it = Some i -> P i) ->
  P (Node a e r props it).

Fixpoint schema_induction (s : schema) : P s :=
  match s with
  | Node a e r props it =>
      step a e r props it
        (fun ps (E : props = Some ps) =>
           match props as o return o = Some ps -> Forall (fun kv => P (snd kv)) ps with
           | Some qs => fun E' =>
               match E' in _ = y return
                     match y with Some l => Forall (fun kv => P (snd kv)) l | None => True end
               with eq_refl =>
                 (fix all (l : list (string * schema)) : Forall (fun kv => P (snd kv)) l :=
                    match l with
                    | [] => Forall_nil _
                    | kv :: l' => Forall_cons kv (schema_induction (snd kv)) (all l')
                    end) qs
               end
           | None => fun E' => match E' in _ = y return
                                  match y with Some l => Forall (fun kv => P (snd kv)) l | None => True end
                               with eq_refl => I end
           end E)
        (fun i (E : it = Some i) =>
           match it as o return o = Some i -> P i with
           | Some j => fun E' => match E' in _ = y return match y with Some k => P k | None => True end
                                 with eq_refl => schema_induction j end
           | None => fun E' => match E' in _ = y return match y with Some k => P k | None => True end
                               with eq_refl => I end
           end E)
  end.

End SchemaInduction.

(** ** The complexity score *)

(** The score in integer arithmetic alone. *)
Definition score_closed_form (d f o e : Z) : Z :=
  Z.min 30 (d * 5) + Z.min 25 (o * 2) + (Z.min 1250 (f * 5) + Z.min 1000 e) / 50.

(** ** Example schemas *)

(** A leaf of type string. *)
Definition string_leaf : schema := Node [("type", JStr "string")] None None None None.

(** [{"properties": {"a.b": {"type": "string"},
                     "a": {"properties": {"b": {"type": "string"}}}}}] *)
Definition dotted_schema : schema :=
  Node [] None None
    (Some [("a.b", string_leaf);
           ("a", Node [] None None (Some [("b", string_leaf)]) None)])
    None.

(** [{"properties": {"name": {"type": "string"},
                     "address": {"properties": {"city": {"type": "string"},
                                                "zip": {"type": "string"}}}}}] *)
Definition person_schema : schema :=
  Node [] None None
    (Some [("name", string_leaf);
           ("address", Node [] None None
                         (Some [("city", string_leaf); ("zip", string_leaf)]) None)])
    None.

(** [{"properties": {".b": {"type": "string"}}}] *)
Definition leading_dot_schema : schema :=
  Node [] None None (Some [(".b", string_leaf)]) None.

(** ** Merged values *)

(** The [flag] that the merged data of a list of chunk results holds. *)
Definition merged_flag (chunk_results : list (dict json)) : result json :=
  r <- Merge.merge_extractions chunk_results ;;
  Ok (Nested.get_nested_value (dict_get_default "data" JNull r) "flag" JNull).

Definition flag_result (b : bool) : dict json := [("data", JDict [("flag", JBool b)])].

(** ** Field scores *)

(** The keywords that [score_field] compares or matches have the type JSON
    Schema gives them: a hashable ['type'], a string ['pattern'], numeric
    bounds. *)
Definition typed_keyword (key : string) (ok : json -> bool) (s : schema) : bool :=
  match attr key s with
  | Some v => ok v
  | None => true
  end.

Definition typed_field (s : schema) : bool :=
  typed_keyword "type" (fun v => negb (truthy v) || hashable v) s &&
  typed_keyword "pattern" is_str s &&
  forallb (fun key => typed_keyword key is_number s)
    ["minimum"; "maximum"; "exclusiveMinimum"; "exclusiveMaximum"; "minLength"; "maxLength"].

(** ** The depth-first search of [get_extraction_order] *)

(** What holds of the three variables of [visit] between any two steps. *)
Record dfs_ok (dependencies : dict SchemaAnalyzer.dependency) (st : SchemaAnalyzer.dfs)
  : Prop := {
  ok_ordered : NoDup (SchemaAnalyzer.ordered_fields st);
  ok_visited : forall x, In x (SchemaAnalyzer.visited st) <->
                         In x (SchemaAnalyzer.ordered_fields st);
  ok_keys : forall x, In x (SchemaAnalyzer.ordered_fields st) -> In x (dict_keys dependencies);
  ok_temp : NoDup (SchemaAnalyzer.temp_visited st);
  ok_temp_keys : forall x, In x (SchemaAnalyzer.temp_visited st) -> In x (dict_keys dependencies);
  ok_apart : forall x, In x (SchemaAnalyzer.temp_visited st) ->
                       ~ In x (SchemaAnalyzer.visited st)
}.

(** What one call of [visit], or a loop of such calls, does to the state. *)
Record dfs_step (dependencies : dict SchemaAnalyzer.dependency)
    (st st' : SchemaAnalyzer.dfs) : Prop := {
  step_ok : dfs_ok dependencies st';
  step_temp : SchemaAnalyzer.temp_visited st' = SchemaAnalyzer.temp_visited st;
  step_grows : forall x, In x (SchemaAnalyzer.visited st) -> In x (SchemaAnalyzer.visited st')
}.

(** The fuel left covers the fields not yet in [temp_visited]. *)
Definition enough (dependencies : dict SchemaAnalyzer.dependency) (fuel : nat)
    (st : SchemaAnalyzer.dfs) : Prop :=
  (List.length (dict_keys dependencies) - List.length (SchemaAnalyzer.temp_visited st) < fuel)%nat.

(** ** Chunk by chunk extraction *)

(** An entry is the record of a chunk: an error-tagged empty one, or one
    that holds the object the model returned. *)
Definition entry_of (str_of_exn : exn -> string) (chunk : SchemaAnalyzer.schema_chunk)
    (entry : ExtractionEngine.chunk_entry) : Prop :=
  ExtractionEngine.entry_chunk_id entry = SchemaAnalyzer.chunk_id chunk /\
  ((exists e, entry = ExtractionEngine.error_entry str_of_exn chunk e) \/
   (ExtractionEngine.entry_error entry = None /\
    is_dict (ExtractionEngine.entry_data entry) = true)).

(** A model client whose every call times out, and stand-ins for the other
    library functions. *)
Definition timeout_call (system prompt : string) : result ExtractionEngine.response :=
  Raise (OtherError "timeout").

Definition parse_empty_object (s : string) : result json := Ok (JDict []).

Definition show_exn (e : exn) : string :=
  match e with
  | TypeError => "TypeError"
  | AttributeError => "AttributeError"
  | ValueError => "ValueError"
  | OtherError msg => msg
  end.

Definition no_score (data : json) (s : schema) (text : string)
  : result ExtractionEngine.confidence :=
  Ok ExtractionEngine.no_confidence.

Definition plain_prompt (text : string) (s : schema) (c : ExtractionEngine.prompt_context)
  : string := text.

Definition whole_schema_chunk : SchemaAnalyzer.schema_chunk :=
  {| SchemaAnalyzer.chunk_schema_of := person_schema;
     SchemaAnalyzer.chunk_id := 0;
     SchemaAnalyzer.total_chunks := 1;
     SchemaAnalyzer.dependencies_of := [];
     SchemaAnalyzer.priority_of := SchemaAnalyzer.high |}.

(** A run of two chunks.  [show_int] is [str] on integers and
    [parse_reply] is [json.loads] on the replies of the examples: two
    objects, the empty object and the empty list; any other text is not
    JSON here. *)
Definition show_int (n : Z) : string := NilEmpty.string_of_int (Z.to_int n).

Definition quoted (s : string) : string :=
  String (ascii_of_nat 34) s ++ String (ascii_of_nat 34) EmptyString.

(** [{"name": "Ann"}] and [{"address": {"city": "Oslo"}}] as the model
    writes them. *)
Definition name_reply : string := "{" ++ quoted "name" ++ ": " ++ quoted "Ann" ++ "}".

Definition address_reply : string :=
  "{" ++ quoted "address" ++ ": {" ++ quoted "city" ++ ": " ++ quoted "Oslo" ++ "}}".

Definition parse_reply (s : string) : result json :=
  if String.eqb s name_reply then Ok (JDict [("name", JStr "Ann")])
  else if String.eqb s address_reply then
    Ok (JDict [("address", JDict [("city", JStr "Oslo")])])
  else if String.eqb s "{}" then Ok (JDict [])
  else if String.eqb s "[]" then Ok (JList [])
  else Raise ValueError.

(** The two chunks of [person_schema]; the chunk of the address has the
    higher priority and is taken first. *)
Definition name_chunk : SchemaAnalyzer.schema_chunk :=
  {| SchemaAnalyzer.chunk_schema_of := Node [] None None (Some [("name", string_leaf)]) None;
     SchemaAnalyzer.chunk_id := 0;
     SchemaAnalyzer.total_chunks := 2;
     SchemaAnalyzer.dependencies_of := [];
     SchemaAnalyzer.priority_of := SchemaAnalyzer.low |}.

Definition address_chunk : SchemaAnalyzer.schema_chunk :=
  {| SchemaAnalyzer.chunk_schema_of :=
       Node [] None None
         (Some [("address", Node [] None None
                              (Some [("city", string_leaf); ("zip", string_leaf)]) None)])
         None;
     SchemaAnalyzer.chunk_id := 1;
     SchemaAnalyzer.total_chunks := 2;
     SchemaAnalyzer.dependencies_of := [];
     SchemaAnalyzer.priority_of := SchemaAnalyzer.high |}.

(** A model client whose call for the chunk of the address times out and
    which answers every other call with the name. *)
Definition address_call_times_out (system prompt : string)
  : result ExtractionEngine.response :=
  if String.eqb system (ExtractionEngine.chunk_system_message show_int address_chunk)
  then Raise (OtherError "timeout")
  else Ok {| ExtractionEngine.content := name_reply; ExtractionEngine.usage := Some 12 |}.

(** A model client that answers the call for the chunk of the address with
    an empty list, and every other call with the name. *)
Definition address_call_gives_list (system prompt : string)
  : result ExtractionEngine.response :=
  if String.eqb system (ExtractionEngine.chunk_system_message show_int address_chunk)
  then Ok {| ExtractionEngine.content := "[]"; ExtractionEngine.usage := Some 7 |}
  else Ok {| ExtractionEngine.content := name_reply; ExtractionEngine.usage := Some 12 |}.

(** A model client that answers level 0 with the name and the other levels
    with the address, and a scoring that fails on a reply that holds a
    name. *)
Definition level_call (system prompt : string) : result ExtractionEngine.response :=
  if String.eqb system (ExtractionEngine.level_system_message show_int 0)
  then Ok {| ExtractionEngine.content := name_reply; ExtractionEngine.usage := Some 12 |}
  else Ok {| ExtractionEngine.content := address_reply; ExtractionEngine.usage := Some 9 |}.

Definition score_fails_on_name (data : json) (s : schema) (text : string)
  : result ExtractionEngine.confidence :=
  match Nested.get_nested_value data "name" JNull with
  | JNull =>
      Ok {| ExtractionEngine.overall := 1.0;
            ExtractionEngine.fields := [("address.city", 1.0%Q)];
            ExtractionEngine.schema_valid := Some true;
            ExtractionEngine.validation_error := None |}
  | _ => Raise TypeError
  end.

(** ** Document chunks *)

(** A document of three sentences. *)
Definition sentence1 : string := "Alpha beta gamma.".
Definition sentence2 : string := "Delta epsilon zeta.".
Definition sentence3 : string := "Eta theta iota kappa.".

(** The first two sentences, and the whole document. *)
Definition sentences12 : string := "Alpha beta gamma. Delta epsilon zeta.".
Definition three_sentences : string :=
  "Alpha beta gamma. Delta epsilon zeta. Eta theta iota kappa.".

(** A tokenizer that counts words, and a model of [re.split] for the sentence
    pattern: the white space that follows a [.], [!] or [?] and is followed
    by a capital letter separates two pieces. *)
Definition word_count (s : string) : Z := Z.of_nat (List.length (split_ws s)).

Definition is_terminal (c : ascii) : bool :=
  (Ascii.eqb c "." || Ascii.eqb c "!" || Ascii.eqb c "?")%bool.

Definition is_upper (c : ascii) : bool :=
  let n := nat_of_ascii c in (Nat.leb 65 n && Nat.leb n 90)%bool.

Fixpoint split_sentences (s : string) (piece : string) (after_terminal : bool)
    (gap : option string) : list string :=
  match s with
  | EmptyString =>
      match gap with
      | Some g => [piece ++ g]
      | None => [piece]
      end
  | String c s' =>
      match gap with
      | None =>
          if (after_terminal && is_space c)%bool
          then split_sentences s' piece false (Some (String c ""))
          else split_sentences s' (piece ++ String c "") (is_terminal c) None
      | Some g =>
          if is_space c then split_sentences s' piece false (Some (g ++ String c ""))
          else if is_upper c then piece :: split_sentences s' (String c "") false None
          else split_sentences s' (piece ++ g ++ String c "") (is_terminal c) None
      end
  end.

Definition sentence_split (pattern s : string) : list string :=
  if String.eqb pattern DocumentProcessor.sentence_pattern
  then split_sentences s "" false None
  else [s].

(** The states of the loop of [chunk_document] after each sentence of that
    document, and the chunk that is closed when the third sentence arrives. *)
Definition state1 (count_tokens : string -> Z) : DocumentProcessor.chunking :=
  {| DocumentProcessor.chunks := [];
     DocumentProcessor.current_chunk := [sentence1];
     DocumentProcessor.current_tokens := 0 + count_tokens sentence1;
     DocumentProcessor.next_chunk_id := 0;
     DocumentProcessor.text_position := 0 + (str_len sentence1 + 1) |}.

Definition state2 (count_tokens : string -> Z) : DocumentProcessor.chunking :=
  {| DocumentProcessor.chunks := [];
     DocumentProcessor.current_chunk := [sentence1; sentence2];
     DocumentProcessor.current_tokens :=
       0 + count_tokens sentence1 + count_tokens sentence2;
     DocumentProcessor.next_chunk_id := 0;
     DocumentProcessor.text_position :=
       0 + (str_len sentence1 + 1) + (str_len sentence2 + 1) |}.

Definition first_chunk (count_tokens : string -> Z) : DocumentProcessor.chunk :=
  {| DocumentProcessor.text := sentences12;
     DocumentProcessor.chunk_id := 0;
     DocumentProcessor.start_pos :=
       DocumentProcessor.text_position (state2 count_tokens) - str_len sentences12;
     DocumentProcessor.end_pos := DocumentProcessor.text_position (state2 count_tokens);
     DocumentProcessor.token_count := count_tokens sentences12;
     DocumentProcessor.sentence_count := 2;
     DocumentProcessor.has_overlap := Some false |}.

Definition state3 (count_tokens : string -> Z) : DocumentProcessor.chunking :=
  {| DocumentProcessor.chunks := [first_chunk count_tokens];
     DocumentProcessor.current_chunk := [sentence3];
     DocumentProcessor.current_tokens := 0 + count_tokens sentence3;
     DocumentProcessor.next_chunk_id := 0 + 1;
     DocumentProcessor.text_position :=
       DocumentProcessor.text_position (state2 count_tokens) + (str_len sentence3 + 1) |}.

(** ** Schema chunks *)

(** The segment lists that one entry of a ['properties'] mapping gives. *)
Definition entry_segs (kv : string * schema) : list (list string) :=
  match properties (snd kv) with
  | Some _ => map (cons (fst kv)) (leaf_segs (snd kv))
  | None => [[fst kv]]
  end.

(** [p] is an initial part of [q]. *)
Definition is_prefix (p q : list string) : Prop := exists r, q = (p ++ r)%list.

(** Every object below the root holds a leaf. *)
Fixpoint solid (s : schema) : bool :=
  match properties s with
  | Some props =>
      forallb (fun kv =>
                 match properties (snd kv) with
                 | Some _ =>
                     match leaf_segs (snd kv) with [] => false | _ => true end
                     && solid (snd kv)
                 | None => true
                 end) props
  | None => true
  end.

(** A chunk under construction: an object with distinct, plain names, without
    empty objects below it. *)
Definition tidy (c : schema) : Prop :=
  well_formed c = true /\ plain_names c = true /\ solid c = true.

Definition entry_ok (kv : string * schema) : Prop :=
  plain (fst kv) = true /\ tidy (snd kv) /\
  (properties (snd kv) <> None -> leaf_segs (snd kv) <> []).

(** The new field is no initial part of a field of the chunk, and none of
    these is an initial part of it. *)
Definition apart (segs : list string) (L : list (list string)) : Prop :=
  forall q, In q L -> ~ is_prefix q segs /\ ~ is_prefix segs q.

(** The fields of a chunk, as segment lists and as paths. *)
Definition chunk_segs (c : SchemaAnalyzer.schema_chunk) : list (list string) :=
  leaf_segs (SchemaAnalyzer.chunk_schema_of c).

Definition chunk_paths (c : SchemaAnalyzer.schema_chunk) : list string :=
  dict_keys (Utils.flatten_schema (SchemaAnalyzer.chunk_schema_of c) "").

(** What holds of the loop of [_create_dependency_chunks] once the fields
    [done] have been put into chunks. *)
Record chunks_ok (st : SchemaAnalyzer.chunking) (done : list (list string)) : Prop := {
  ok_fields :
    Permutation (flat_map chunk_segs (SchemaAnalyzer.chunks st)
                 ++ leaf_segs (SchemaAnalyzer.current_chunk st))%list done;
  ok_current : tidy (SchemaAnalyzer.current_chunk st);
  ok_object : properties (SchemaAnalyzer.current_chunk st) <> None;
  ok_closed : Forall (fun c => tidy (SchemaAnalyzer.chunk_schema_of c))
                (SchemaAnalyzer.chunks st)
}.

(** The fields still to come can each be added after those before it. *)
Fixpoint admissible (s : schema) (todo : list string) (done : list (list string)) : Prop :=
  match todo with
  | [] => True
  | path :: todo' =>
      let segs := split_dot path in
      segs <> [] /\ Forall (fun k => plain k = true) segs /\
      properties (SchemaAnalyzer._get_field_schema s segs) = None /\
      apart segs done /\
      admissible s todo' (segs :: done)
  end.


(** ** Induction on JSON values *)

Section JsonInduction.

Variable P : json -> Prop.

Hypothesis case_null : P JNull.
Hypothesis case_bool : forall b, P (JBool b).
Hypothesis case_int : forall n, P (JInt n).
Hypothesis case_float : forall q, P (JFloat q).
Hypothesis case_str : forall s, P (JStr s).
Hypothesis case_list : forall l, Forall P l -> P (JList l).
Hypothesis case_dict : forall d, Forall (fun kv => P (snd kv)) d -> P (JDict d).

Fixpoint json_induction (v : json) : P v :=
  match v with
  | JNull => case_null
  | JBool b => case_bool b
  | JInt n => case_int n
  | JFloat q => case_float q
  | JStr s => case_str s
  | JList l =>
      case_list l
        ((fix all (l : list json) : Forall P l :=
            match l with
            | [] => Forall_nil _
            | x :: l' => Forall_cons x (json_induction x) (all l')
            end) l)
  | JDict d =>
      case_dict d
        ((fix all (d : list (string * json)) : Forall (fun kv => P (snd kv)) d :=
            match d with
            | [] => Forall_nil _
            | kv :: d' => Forall_cons kv (json_induction (snd kv)) (all d')
            end) d)
  end.

End JsonInduction.

(** No dict of the value holds a key twice: so it is of every value that
    Python builds. *)
Fixpoint distinct_keys (v : json) : bool :=
  match v with
  | JDict d => unique (map fst d) && forallb (fun kv => distinct_keys (snd kv)) d
  | JList l => forallb distinct_keys l
  | _ => true
  end.

(** ** Dependencies between fields *)

(** [field] depends on [dep], a field of the graph. *)
Definition depends (dependencies : dict SchemaAnalyzer.dependency) (field dep : string)
  : Prop :=
  In dep (SchemaAnalyzer.depends_on_of dependencies field) /\
  dict_has dep dependencies = true.

(** [x] depends on [y] through a chain of dependencies. *)
Inductive reaches (dependencies : dict SchemaAnalyzer.dependency) : string -> string -> Prop :=
| reaches_here : forall x, reaches dependencies x x
| reaches_next : forall x y z,
    reaches dependencies x y -> depends dependencies y z -> reaches dependencies x z.

(** [dep] stands before [field] in [order]. *)
Definition before (order : list string) (dep field : string) : Prop :=
  exists l1 l2, order = (l1 ++ field :: l2)%list /\ In dep l1.

(** Every field of [order] comes after the fields it depends on, those
    excepted that depend on it in turn. *)
Definition settled (dependencies : dict SchemaAnalyzer.dependency) (order : list string)
  : Prop :=
  forall field dep, In field order -> depends dependencies field dep ->
    before order dep field \/ reaches dependencies dep field.

(** What a call of [visit] keeps: started on a settled order, with every
    field under visit depending on [field], it leaves a settled order. *)
Definition visit_settles (dependencies : dict SchemaAnalyzer.dependency) (fuel : nat)
  : Prop :=
  forall field st st',
    dfs_ok dependencies st -> In field (dict_keys dependencies) ->
    enough dependencies fuel st ->
    settled dependencies (SchemaAnalyzer.ordered_fields st) ->
    (forall x, In x (SchemaAnalyzer.temp_visited st) -> reaches dependencies x field) ->
    SchemaAnalyzer.visit dependencies fuel field st = Some st' ->
    settled dependencies (SchemaAnalyzer.ordered_fields st').

(** ** The loop of [chunk_document] *)

(** The chunks closed so far are numbered from 0 in order, the next number
    is their count, each counts a sentence at least, and the first carries
    no overlap. *)
Record chunks_numbered (st : DocumentProcessor.chunking) : Prop := {
  numbered_ids :
    map DocumentProcessor.chunk_id (DocumentProcessor.chunks st)
    = map Z.of_nat (seq 0 (List.length (DocumentProcessor.chunks st)));
  numbered_next :
    DocumentProcessor.next_chunk_id st
    = Z.of_nat (List.length (DocumentProcessor.chunks st));
  numbered_sentences :
    Forall (fun c => 1 <= DocumentProcessor.sentence_count c) (DocumentProcessor.chunks st);
  numbered_first :
    forall c rest, DocumentProcessor.chunks st = c :: rest ->
                   DocumentProcessor.has_overlap c <> Some true
}.

(** A group of words that [_split_oversized_sentence] joins into one piece:
    it is not empty, and it fits the budget unless it is a single word. *)
Definition word_group (count_tokens : string -> Z) (max_tokens : Z) (g : list string) : Prop :=
  g <> [] /\ (count_tokens (join " " g) <= max_tokens \/ exists w, g = [w]).

(** ** Levels of fields *)

(** [levels.get(level)] on the dict that [_group_fields_by_level] builds. *)
Fixpoint level_fields (level : Z) (levels : list (Z * list string)) : option (list string) :=
  match levels with
  | [] => None
  | (l, fs) :: rest => if Z.eqb l level then Some fs else level_fields level rest
  end.

(** ** Two chunk results and their merge *)

Definition result_a : dict json :=
  [("data", JDict [("a", JInt 1)]); ("token_usage", JInt 3)].

Definition result_b : dict json :=
  [("data", JDict [("b", JStr "x")]); ("token_usage", JInt 4)].

Definition merged_ab : dict json :=
  [("data", JDict [("a", JInt 1); ("b", JStr "x")]);
   ("confidence", JDict [("overall", JFloat 0); ("fields", JDict [])]);
   ("strategy", JStr "document_chunked");
   ("total_chunks", JInt 2);
   ("token_usage", JInt 7);
   ("chunk_results", JList [JDict result_a; JDict result_b])].

(** ** Counting completed fields *)

(** What the counters of [_calculate_completion_metrics] satisfy after [n]
    fields. *)
Definition counted (n : Z) (st : ConfidenceScorer.counters) : Prop :=
  0 <= ConfidenceScorer.n_completed_required st /\
  ConfidenceScorer.n_completed_required st <= ConfidenceScorer.n_required_fields st /\
  ConfidenceScorer.n_required_fields st <= n /\
  ConfidenceScorer.n_completed_required st <= ConfidenceScorer.n_completed_fields st /\
  ConfidenceScorer.n_completed_fields st <= n.

(** ** Counting the values found for a field *)

(** How often [v] occurs among [values], compared with [==]. *)
Definition occurrences (v : json) (values : list json) : nat :=
  List.length (filter (py_eq v) values).

(** What the counter [value_counts] of [_resolve_field_conflict] holds once
    the values [seen] have been counted. *)
Record counted_values (seen : list json) (counts : list (json * Z)) : Prop := {
  counted_keys : forall k n, In (k, n) counts ->
                   In k seen /\ n = Z.of_nat (occurrences k seen);
  counted_apart : ForallOrdPairs (fun a b => py_eq (fst a) (fst b) = false) counts;
  counted_all : forall x, In x seen -> exists k n, In (k, n) counts /\ py_eq k x = true
}.
(** * Properties *)

(** ** Metrics are non-negative *)

Lemma fold_left_invariant : forall (A B : Type) (I : A -> Prop) (Q : B -> Prop)
    (f : A -> B -> A) (l : list B) (a : A),
  Forall Q l -> (forall a b, I a -> Q b -> I (f a b)) -> I a -> I (fold_left f l a).
Proof.
  intros A B I Q f l. induction l as [|b l IH]; intros a HQ Hf Ha; simpl.
  - exact Ha.
  - inversion HQ; subst. apply IH; [assumption|exact Hf|apply Hf; assumption].
Qed.

Lemma depth_ge_start : forall s d, d <= Utils.calculate_schema_depth s d.
Proof.
  induction s as [a e r props it IHp _] using schema_induction; intro d.
  destruct props as [ps|]; simpl; [|lia].
  apply (fold_left_invariant _ _ (fun acc => d <= acc) _ _ _ _ (IHp ps eq_refl)); [|lia].
  intros acc [k v] Hacc Hv. simpl. destruct (properties v); lia.
Qed.

Lemma objects_nonneg : forall s, 0 <= Utils.count_schema_objects s.
Proof.
  induction s as [a e r props it IHp _] using schema_induction.
  destruct props as [ps|]; simpl; [|lia].
  apply (fold_left_invariant _ _ (fun acc => 0 <= acc) _ _ _ _ (IHp ps eq_refl)); [|lia].
  intros acc [k v] Hacc Hv. simpl in *. destruct (_ || _)%bool; lia.
Qed.

Lemma enums_nonneg : forall s, 0 <= Utils.count_enum_values s.
Proof.
  induction s as [a e r props it IHp IHi] using schema_induction.
  simpl.
  set (c0 := match e with Some e0 => Z.of_nat (List.length e0) | None => 0 end).
  assert (H0 : 0 <= c0) by (subst c0; destruct e; lia).
  assert (H1 : 0 <= match props with
                    | Some ps => fold_left (fun count kv => count + Utils.count_enum_values (snd kv)) ps c0
                    | None => c0
                    end).
  { destruct props as [ps|]; [|exact H0].
    apply (fold_left_invariant _ _ (fun acc => 0 <= acc) _ _ _ _ (IHp ps eq_refl)); [|exact H0].
    intros acc [k v] Hacc Hv. simpl in *. lia. }
  destruct it as [i|]; [|exact H1].
  specialize (IHi i eq_refl). lia.
Qed.

(** ** Arithmetic of the score *)

Lemma Qltb_true : forall x y, Qltb x y = true <-> (x < y)%Q.
Proof.
  intros x y. unfold Qltb. rewrite negb_true_iff.
  split; intro H.
  - apply Qnot_le_lt. intro L. apply Qle_bool_iff in L. congruence.
  - destruct (Qle_bool y x) eqn:E; [|reflexivity].
    apply Qle_bool_iff in E. exfalso. exact (Qlt_not_le _ _ H E).
Qed.

Lemma Qltb_false : forall x y, Qltb x y = false <-> (y <= x)%Q.
Proof.
  intros x y. unfold Qltb. rewrite negb_false_iff. apply Qle_bool_iff.
Qed.

Lemma min_int : forall a b, Num.min (Num.NInt a) (Num.NInt b) = Num.NInt (Z.min a b).
Proof.
  intros a b. unfold Num.min. simpl.
  destruct (Qltb (inject_Z b) (inject_Z a)) eqn:E.
  - apply Qltb_true in E. rewrite <- Zlt_Qlt in E. f_equal. lia.
  - apply Qltb_false in E. rewrite <- Zle_Qle in E. f_equal. lia.
Qed.

Lemma min_div : forall a n k,
  Num.min (Num.NInt a) (Num.truediv n (Zpos k)) =
  if n <? a * Zpos k then Num.truediv n (Zpos k) else Num.NInt a.
Proof.
  intros a n k. unfold Num.min, Num.truediv. simpl Num.to_Q.
  assert (D : forall x, (inject_Z n / inject_Z (Zpos k) < inject_Z x)%Q <-> n < x * Zpos k).
  { intro x. unfold Qlt, Qdiv, Qmult, Qinv, inject_Z. simpl. lia. }
  destruct (Qltb _ _) eqn:E.
  - apply Qltb_true in E. apply D in E.
    destruct (n <? a * Zpos k) eqn:F; [reflexivity|]. apply Z.ltb_ge in F. lia.
  - destruct (n <? a * Zpos k) eqn:F; [|reflexivity].
    apply Z.ltb_lt in F. apply D in F. apply Qltb_true in F. congruence.
Qed.

Lemma to_int_fraction : forall n d, 0 <= n ->
  Num.to_int (Num.NFloat (n # d)) = n / Zpos d.
Proof.
  intros n d H. simpl. apply Z.quot_div_nonneg; lia.
Qed.

Lemma to_int_nonneg : forall q, (0 <= q)%Q -> Num.to_int (Num.NFloat q) = Qfloor q.
Proof.
  intros [n d] H. unfold Qle in H. simpl in H.
  rewrite to_int_fraction by lia. reflexivity.
Qed.

Lemma integer_value_nonneg : forall q, (0 <= q)%Q -> integer_value q = Qfloor q.
Proof.
  intros q H. unfold integer_value. apply Qle_bool_iff in H. rewrite H. reflexivity.
Qed.

Lemma Qfloor_fraction : forall q n d, (q == n # d)%Q -> Qfloor q = n / Zpos d.
Proof.
  intros q n d E. rewrite (Qfloor_comp _ _ E). reflexivity.
Qed.

Lemma score_closed : forall d f o e t r, 0 <= d -> 0 <= f -> 0 <= o -> 0 <= e ->
  SchemaAnalyzer._calculate_complexity_score
    {| SchemaAnalyzer.max_depth := d; SchemaAnalyzer.total_fields := f;
       SchemaAnalyzer.object_count := o; SchemaAnalyzer.enum_complexity := e;
       SchemaAnalyzer.estimated_tokens := t; SchemaAnalyzer.required_fields := r |}
  = score_closed_form d f o e.
Proof.
  intros d f o e t r Hd Hf Ho He.
  unfold SchemaAnalyzer._calculate_complexity_score, score_closed_form.
  cbn [SchemaAnalyzer.max_depth SchemaAnalyzer.total_fields
       SchemaAnalyzer.object_count SchemaAnalyzer.enum_complexity].
  rewrite !min_int, (min_div 25 f 10), (min_div 20 e 50).
  set (D := Z.min 30 (d * 5)). set (O := Z.min 25 (o * 2)).
  assert (HD : 0 <= D) by (subst D; lia). assert (HO : 0 <= O) by (subst O; lia).
  destruct (f <? 25 * 10) eqn:Ef; destruct (e <? 20 * 50) eqn:Ee;
    [ apply Z.ltb_lt in Ef | apply Z.ltb_lt in Ef | apply Z.ltb_ge in Ef | apply Z.ltb_ge in Ef ];
    [ apply Z.ltb_lt in Ee | apply Z.ltb_ge in Ee | apply Z.ltb_lt in Ee | apply Z.ltb_ge in Ee ];
    unfold Num.truediv; cbn [Num.add Num.to_Q].
  - rewrite to_int_nonneg.
    + rewrite (Qfloor_fraction _ ((D + O) * 50 + (f * 5 + e)) 50).
      * rewrite Z.div_add_l by lia.
        replace (Z.min 1250 (f * 5)) with (f * 5) by lia.
        replace (Z.min 1000 e) with e by lia. lia.
      * unfold Qeq, Qplus, Qdiv, Qmult, Qinv, inject_Z. simpl. lia.
    + unfold Qle, Qplus, Qdiv, Qmult, Qinv, inject_Z. simpl. lia.
  - rewrite to_int_nonneg.
    + rewrite (Qfloor_fraction _ ((D + O) * 50 + (f * 5 + 1000)) 50).
      * rewrite Z.div_add_l by lia.
        replace (Z.min 1250 (f * 5)) with (f * 5) by lia.
        replace (Z.min 1000 e) with 1000 by lia. lia.
      * unfold Qeq, Qplus, Qdiv, Qmult, Qinv, inject_Z. simpl. lia.
    + unfold Qle, Qplus, Qdiv, Qmult, Qinv, inject_Z. simpl. lia.
  - rewrite to_int_nonneg.
    + rewrite (Qfloor_fraction _ ((D + O) * 50 + (e + 1250)) 50).
      * rewrite Z.div_add_l by lia.
        replace (Z.min 1250 (f * 5)) with 1250 by lia.
        replace (Z.min 1000 e) with e by lia.
        rewrite (Z.add_comm 1250 e). lia.
      * unfold Qeq, Qplus, Qdiv, Qmult, Qinv, inject_Z. simpl. lia.
    + unfold Qle, Qplus, Qdiv, Qmult, Qinv, inject_Z. simpl. lia.
  - cbn [Num.to_int].
    replace (Z.min 1250 (f * 5)) with 1250 by lia.
    replace (Z.min 1000 e) with 1000 by lia.
    change ((1250 + 1000) / 50) with 45. lia.
Qed.

Lemma Qmin_int : forall a b, (Qmin (inject_Z a) (inject_Z b) == inject_Z (Z.min a b))%Q.
Proof.
  intros a b. destruct (Z_le_gt_dec a b) as [H|H].
  - rewrite Q.min_l by (rewrite <- Zle_Qle; exact H).
    replace (Z.min a b) with a by lia. reflexivity.
  - rewrite Q.min_r by (rewrite <- Zle_Qle; lia).
    replace (Z.min a b) with b by lia. reflexivity.
Qed.

Lemma Qmin_scaled : forall a n k,
  (Qmin (inject_Z a) (inject_Z n / inject_Z (Zpos k)) == Z.min (a * Zpos k) n # k)%Q.
Proof.
  intros a n k. destruct (Z_le_gt_dec (a * Zpos k) n) as [H|H].
  - rewrite Q.min_l.
    + replace (Z.min (a * Zpos k) n) with (a * Zpos k) by lia.
      unfold Qeq, inject_Z. simpl. lia.
    + unfold Qle, Qdiv, Qmult, Qinv, inject_Z. simpl. lia.
  - rewrite Q.min_r.
    + replace (Z.min (a * Zpos k) n) with n by lia.
      unfold Qeq, Qdiv, Qmult, Qinv, inject_Z. simpl. lia.
    + unfold Qle, Qdiv, Qmult, Qinv, inject_Z. simpl. lia.
Qed.

Lemma formula_closed : forall d f o e, 0 <= d -> 0 <= f -> 0 <= o -> 0 <= e ->
  integer_value (complexity_formula d f o e) = score_closed_form d f o e.
Proof.
  intros d f o e Hd Hf Ho He.
  assert (E : (complexity_formula d f o e ==
               (Z.min 30 (d * 5) + Z.min 25 (o * 2)) * 50
               + (Z.min 1250 (f * 5) + Z.min 1000 e) # 50)%Q).
  { unfold complexity_formula.
    change 5%Q with (inject_Z 5). change 2%Q with (inject_Z 2).
    rewrite <- !inject_Z_mult.
    change 30%Q with (inject_Z 30). change 25%Q with (inject_Z 25).
    change 20%Q with (inject_Z 20).
    change 10%Q with (inject_Z 10). change 50%Q with (inject_Z 50).
    rewrite !Qmin_int, !Qmin_scaled.
    change (25 * 10) with 250. change (20 * 50) with 1000.
    set (D := Z.min 30 (d * 5)). set (O := Z.min 25 (o * 2)).
    replace (Z.min 1250 (f * 5)) with (Z.min 250 f * 5) by lia.
    set (F := Z.min 250 f). set (G := Z.min 1000 e).
    unfold Qeq, Qplus, inject_Z. simpl. lia. }
  rewrite integer_value_nonneg.
  - rewrite (Qfloor_fraction _ _ _ E). unfold score_closed_form.
    rewrite Z.div_add_l by lia. reflexivity.
  - rewrite E. unfold Qle. simpl. lia.
Qed.

(** ** C1: strategy selection *)

Section StrategySelection.

Variable estimate_schema_tokens : schema -> Z.
Variable max_tokens_per_chunk : Z.

Let analyze := SchemaAnalyzer.analyze_complexity estimate_schema_tokens max_tokens_per_chunk.

(** C1.  The strategy is decided by the metrics alone, in this order: the
    chunked strategy when the estimated token cost of the schema exceeds the
    chunk budget; otherwise the hierarchical strategy when the maximal depth
    or the object count exceeds 1; otherwise the single pass.  The
    [needs_chunking] flag is set exactly when the chunked strategy was
    chosen. *)
Theorem strategy_selection : forall s : schema,
  let a := analyze s in
  let m := SchemaAnalyzer.a_metrics a in
  SchemaAnalyzer.estimated_tokens m = estimate_schema_tokens s /\
  SchemaAnalyzer.max_depth m = Utils.calculate_schema_depth s 0 /\
  SchemaAnalyzer.object_count m = Utils.count_schema_objects s /\
  (SchemaAnalyzer.estimated_tokens m > max_tokens_per_chunk ->
     SchemaAnalyzer.a_strategy a = SchemaAnalyzer.multi_pass_chunked) /\
  (SchemaAnalyzer.estimated_tokens m <= max_tokens_per_chunk ->
     SchemaAnalyzer.max_depth m > 1 \/ SchemaAnalyzer.object_count m > 1 ->
     SchemaAnalyzer.a_strategy a = SchemaAnalyzer.multi_pass_hierarchical) /\
  (SchemaAnalyzer.estimated_tokens m <= max_tokens_per_chunk ->
     SchemaAnalyzer.max_depth m <= 1 -> SchemaAnalyzer.object_count m <= 1 ->
     SchemaAnalyzer.a_strategy a = SchemaAnalyzer.single_pass) /\
  (SchemaAnalyzer.needs_chunking a = true <->
     SchemaAnalyzer.a_strategy a = SchemaAnalyzer.multi_pass_chunked) /\
  (forall s' : schema,
     SchemaAnalyzer.a_metrics (analyze s') = m ->
     SchemaAnalyzer.a_strategy (analyze s') = SchemaAnalyzer.a_strategy a).
Proof.
  intros s a m. subst m a.
  unfold analyze, SchemaAnalyzer.analyze_complexity.
  cbn [SchemaAnalyzer.a_strategy SchemaAnalyzer.a_metrics SchemaAnalyzer.needs_chunking
       SchemaAnalyzer.estimated_tokens SchemaAnalyzer.max_depth SchemaAnalyzer.object_count].
  unfold SchemaAnalyzer._determine_strategy.
  cbn [SchemaAnalyzer.estimated_tokens SchemaAnalyzer.max_depth SchemaAnalyzer.object_count].
  set (t := estimate_schema_tokens s).
  set (d := Utils.calculate_schema_depth s 0).
  set (o := Utils.count_schema_objects s).
  repeat split; try reflexivity.
  - intro H. replace (t >? max_tokens_per_chunk) with true; [reflexivity|].
    symmetry. apply Z.gtb_lt. lia.
  - intros H1 H2.
    destruct (t >? max_tokens_per_chunk) eqn:E; [apply Z.gtb_lt in E; lia|].
    destruct (d >? 1) eqn:F1; [reflexivity|].
    destruct (o >? 1) eqn:F2; [reflexivity|].
    rewrite Z.gtb_ltb in F1, F2. apply Z.ltb_ge in F1, F2. lia.
  - intros H1 H2 H3.
    destruct (t >? max_tokens_per_chunk) eqn:E; [apply Z.gtb_lt in E; lia|].
    destruct (d >? 1) eqn:F1; [apply Z.gtb_lt in F1; lia|].
    destruct (o >? 1) eqn:F2; [apply Z.gtb_lt in F2; lia|]. reflexivity.
  - intro H. rewrite H. reflexivity.
  - destruct (t >? max_tokens_per_chunk); [reflexivity|].
    destruct (_ || _)%bool; discriminate.
  - intros s' H. injection H as E1 E2 E3 E4 E5 E6. rewrite E1, E3, E5. reflexivity.
Qed.

End StrategySelection.

(** ** C9: the complexity score *)

(** C9.  For every schema the complexity score is the integer value of
    min(30, depth x 5) + min(25, field_count / 10) + min(25, object_count x 2)
    + min(20, enum_count / 50), where depth is [calculate_schema_depth] of the
    schema, field_count the number of entries of [flatten_schema],
    object_count [count_schema_objects] and enum_count [count_enum_values];
    these four are also the metrics the analysis reports; and the score lies
    between 0 and 100. *)
Theorem complexity_score_value :
  forall (estimate_schema_tokens : schema -> Z) (max_tokens_per_chunk : Z) (s : schema),
  let a := SchemaAnalyzer.analyze_complexity estimate_schema_tokens max_tokens_per_chunk s in
  let m := SchemaAnalyzer.a_metrics a in
  let depth := Utils.calculate_schema_depth s 0 in
  let field_count := Z.of_nat (List.length (Utils.flatten_schema s "")) in
  let object_count := Utils.count_schema_objects s in
  let enum_count := Utils.count_enum_values s in
  SchemaAnalyzer.max_depth m = depth /\
  SchemaAnalyzer.total_fields m = field_count /\
  SchemaAnalyzer.object_count m = object_count /\
  SchemaAnalyzer.enum_complexity m = enum_count /\
  SchemaAnalyzer.complexity_score a =
    integer_value (complexity_formula depth field_count object_count enum_count) /\
  SchemaAnalyzer.complexity_score a =
    integer_value (complexity_formula (SchemaAnalyzer.max_depth m)
                                      (SchemaAnalyzer.total_fields m)
                                      (SchemaAnalyzer.object_count m)
                                      (SchemaAnalyzer.enum_complexity m)) /\
  0 <= SchemaAnalyzer.complexity_score a <= 100.
Proof.
  intros est budget s a m depth field_count object_count enum_count.
  subst m a depth field_count object_count enum_count.
  unfold SchemaAnalyzer.analyze_complexity.
  cbn [SchemaAnalyzer.complexity_score SchemaAnalyzer.a_metrics
       SchemaAnalyzer.max_depth SchemaAnalyzer.total_fields
       SchemaAnalyzer.object_count SchemaAnalyzer.enum_complexity].
  pose proof (depth_ge_start s 0) as Hd.
  pose proof (objects_nonneg s) as Ho.
  pose proof (enums_nonneg s) as He.
  assert (Hf : 0 <= Z.of_nat (List.length (Utils.flatten_schema s ""))) by lia.
  rewrite score_closed, formula_closed by assumption.
  repeat (split; [reflexivity|]).
  unfold score_closed_form.
  set (F := Z.of_nat _) in *.
  assert (0 <= (Z.min 1250 (F * 5) + Z.min 1000 (Utils.count_enum_values s)) / 50 <= 45).
  { split.
    - apply Z.div_pos; lia.
    - apply Z.div_le_upper_bound; lia. }
  lia.
Qed.

(** ** Dictionaries *)

Section DictFacts.

Context {A : Type}.

Lemma dict_set_keys_in : forall (k : string) (v : A) (d : dict A) (x : string),
  In x (dict_keys (dict_set k v d)) <-> x = k \/ In x (dict_keys d).
Proof.
  intros k v d x. induction d as [|[k' v'] d IH]; simpl.
  - intuition congruence.
  - destruct (String.eqb_spec k k') as [->|N]; simpl.
    + intuition congruence.
    + rewrite IH. intuition congruence.
Qed.

Lemma dict_set_keys_nodup : forall (k : string) (v : A) (d : dict A),
  NoDup (dict_keys d) -> NoDup (dict_keys (dict_set k v d)).
Proof.
  intros k v d. induction d as [|[k' v'] d IH]; simpl; intro H.
  - constructor; [intros []|constructor].
  - inversion H as [|? ? Hn Hd]; subst.
    destruct (String.eqb_spec k k') as [->|N]; simpl.
    + constructor; assumption.
    + constructor; [|apply IH; assumption].
      intro I. apply dict_set_keys_in in I. destruct I as [I|I]; [congruence|contradiction].
Qed.

Lemma dict_update_keys_in : forall (d2 d : dict A) (x : string),
  In x (dict_keys (dict_update d d2)) <-> In x (dict_keys d) \/ In x (dict_keys d2).
Proof.
  unfold dict_update. induction d2 as [|[k v] d2 IH]; intros d x; simpl.
  - tauto.
  - rewrite IH, dict_set_keys_in. simpl. intuition congruence.
Qed.

Lemma dict_update_keys_nodup : forall (d2 d : dict A),
  NoDup (dict_keys d) -> NoDup (dict_keys (dict_update d d2)).
Proof.
  unfold dict_update. induction d2 as [|[k v] d2 IH]; intros d H; simpl.
  - exact H.
  - apply IH, dict_set_keys_nodup, H.
Qed.

Lemma dict_get_in : forall (k : string) (v : A) (d : dict A),
  dict_get k d = Some v -> In (k, v) d.
Proof.
  intros k v d. induction d as [|[k' v'] d IH]; simpl; [discriminate|].
  destruct (String.eqb_spec k k') as [->|N].
  - intro H. injection H as ->. left. reflexivity.
  - intro H. right. apply IH, H.
Qed.

Lemma dict_get_none : forall (k : string) (d : dict A),
  dict_get k d = None <-> ~ In k (dict_keys d).
Proof.
  intros k d. induction d as [|[k' v'] d IH]; simpl.
  - tauto.
  - destruct (String.eqb_spec k k') as [->|N].
    + split; [discriminate|]. intro H. exfalso. apply H. left. reflexivity.
    + rewrite IH. intuition congruence.
Qed.

Lemma dict_get_unique : forall (k : string) (v : A) (d : dict A),
  NoDup (dict_keys d) -> In (k, v) d -> dict_get k d = Some v.
Proof.
  intros k v d. induction d as [|[k' v'] d IH]; simpl; intros Hn Hi; [contradiction|].
  inversion Hn as [|? ? Hk Hd]; subst.
  destruct Hi as [E|Hi].
  - injection E as -> ->. rewrite String.eqb_refl. reflexivity.
  - destruct (String.eqb_spec k k') as [->|N].
    + exfalso. apply Hk. change k' with (fst (k', v)). apply in_map, Hi.
    + apply IH; assumption.
Qed.

End DictFacts.

Lemma set_mem_in : forall x s, set_mem x s = true <-> In x s.
Proof.
  intros x s. unfold set_mem. rewrite existsb_exists. split.
  - intros [y [Hy E]]. apply String.eqb_eq in E. subst. exact Hy.
  - intro H. exists x. split; [exact H|apply String.eqb_refl].
Qed.

Lemma unique_nodup : forall ks, unique ks = true <-> NoDup ks.
Proof.
  induction ks as [|k ks IH]; simpl.
  - split; [constructor|reflexivity].
  - rewrite andb_true_iff, negb_true_iff, IH. split.
    + intros [H1 H2]. constructor; [|exact H2].
      intro I. apply set_mem_in in I. congruence.
    + intro H. inversion H as [|? ? Hn Hd]; subst. split; [|exact Hd].
      destruct (set_mem k ks) eqn:E; [|reflexivity].
      apply set_mem_in in E. contradiction.
Qed.

(** ** Paths and their segments *)

Lemma append_nonempty : forall a b : string, a <> "" -> a ++ b <> "".
Proof. intros [|c a] b H; [congruence|discriminate]. Qed.

Lemma append_assoc : forall a b c : string, (a ++ b) ++ c = a ++ (b ++ c).
Proof.
  induction a as [|x a IH]; intros b c; simpl; [reflexivity|]. rewrite IH. reflexivity.
Qed.

Lemma full_key_nonempty : forall p k, p <> "" -> Utils.full_key p k = p ++ "." ++ k.
Proof.
  intros p k H. unfold Utils.full_key.
  destruct (String.eqb_spec p ""); [contradiction|reflexivity].
Qed.

Lemma join_cons2 : forall k r rest,
  join "." (k :: r :: rest) = k ++ "." ++ join "." (r :: rest).
Proof. reflexivity. Qed.

Lemma path_of_join : forall rest k, k <> "" ->
  fold_left Utils.full_key rest k = join "." (k :: rest).
Proof.
  induction rest as [|r rest IH]; intros k H; simpl fold_left.
  - reflexivity.
  - rewrite full_key_nonempty by exact H.
    rewrite IH by (apply append_nonempty, H).
    rewrite join_cons2. destruct rest as [|x rest].
    + reflexivity.
    + rewrite !join_cons2. rewrite append_assoc. simpl. reflexivity.
Qed.

Lemma plain_nonempty : forall k, plain k = true -> k <> "".
Proof.
  intros k H. unfold plain in H. apply andb_true_iff in H. destruct H as [H _].
  apply negb_true_iff in H. apply String.eqb_neq in H. exact H.
Qed.

Lemma plain_dot_free : forall k, plain k = true -> dot_free k = true.
Proof.
  intros k H. unfold plain in H. apply andb_true_iff in H. tauto.
Qed.

Lemma path_of_root : forall segs, segs <> [] -> Forall (fun k => plain k = true) segs ->
  path_of "" segs = join "." segs.
Proof.
  intros [|k rest] Hne Hp; [congruence|].
  unfold path_of. simpl fold_left. unfold Utils.full_key at 2. simpl.
  apply path_of_join. inversion Hp; subst. apply plain_nonempty. assumption.
Qed.

Lemma split_dot_free : forall k, dot_free k = true -> split_dot k = [k].
Proof.
  induction k as [|c k IH]; simpl; intro H; [reflexivity|].
  apply andb_true_iff in H. destruct H as [Hc Hk]. apply negb_true_iff in Hc.
  rewrite Hc, IH by exact Hk. reflexivity.
Qed.

Lemma split_dot_app : forall k rest, dot_free k = true ->
  split_dot (k ++ "." ++ rest) = k :: split_dot rest.
Proof.
  induction k as [|c k IH]; simpl; intros rest H; [reflexivity|].
  apply andb_true_iff in H. destruct H as [Hc Hk]. apply negb_true_iff in Hc.
  rewrite Hc. simpl in IH. rewrite IH by exact Hk. reflexivity.
Qed.

Lemma split_join : forall segs, segs <> [] -> Forall (fun k => dot_free k = true) segs ->
  split_dot (join "." segs) = segs.
Proof.
  induction segs as [|k rest IH]; intros Hne Hd; [congruence|].
  inversion Hd as [|? ? Hk Hr]; subst.
  destruct rest as [|r rest].
  - simpl. apply split_dot_free, Hk.
  - rewrite join_cons2, split_dot_app by exact Hk.
    rewrite IH; [reflexivity|discriminate|exact Hr].
Qed.

(** Plain segments are recovered from the path: the path determines them. *)
Lemma split_path : forall segs, segs <> [] -> Forall (fun k => plain k = true) segs ->
  split_dot (path_of "" segs) = segs.
Proof.
  intros segs Hne Hp. rewrite path_of_root by assumption.
  apply split_join; [exact Hne|].
  eapply Forall_impl; [|exact Hp]. intros k. apply plain_dot_free.
Qed.

(** ** Flattening *)

Lemma flatten_keys_nodup : forall s prefix,
  NoDup (dict_keys (Utils.flatten_schema s prefix)).
Proof.
  induction s as [a e r props it IHp _] using schema_induction; intro prefix.
  destruct props as [ps|]; simpl; [|constructor].
  apply (fold_left_invariant _ _ (fun acc => NoDup (dict_keys acc)) _ _ _ _ (IHp ps eq_refl));
    [|constructor].
  intros acc [k v] Hacc Hv. simpl. destruct (properties v).
  - apply dict_update_keys_nodup, Hacc.
  - apply dict_set_keys_nodup, Hacc.
Qed.

Lemma path_of_cons : forall prefix k segs,
  path_of prefix (k :: segs) = path_of (Utils.full_key prefix k) segs.
Proof. reflexivity. Qed.

Lemma flatten_keys_paths : forall s prefix x,
  In x (dict_keys (Utils.flatten_schema s prefix)) <->
  In x (map (path_of prefix) (leaf_segs s)).
Proof.
  induction s as [a e r props it IHp _] using schema_induction; intros prefix x.
  destruct props as [ps|]; simpl; [|tauto].
  specialize (IHp ps eq_refl).
  enough (G : forall acc : dict schema,
    In x (dict_keys (fold_left
        (fun flattened kv =>
           match properties (snd kv) with
           | Some _ => dict_update flattened
                         (Utils.flatten_schema (snd kv) (Utils.full_key prefix (fst kv)))
           | None => dict_set (Utils.full_key prefix (fst kv)) (snd kv) flattened
           end) ps acc)) <->
    In x (dict_keys acc) \/
    In x (map (path_of prefix)
            (flat_map (fun kv =>
                  match properties (snd kv) with
                  | Some _ => map (cons (fst kv)) (leaf_segs (snd kv))
                  | None => [[fst kv]]
                  end) ps))).
  { rewrite (G []). simpl. tauto. }
  induction IHp as [|[k v] ps' Hv _ IH]; intro acc; simpl.
  - tauto.
  - rewrite IH, map_app, in_app_iff. simpl in Hv.
    destruct (properties v); simpl.
    + rewrite dict_update_keys_in, Hv, map_map. simpl. tauto.
    + rewrite dict_set_keys_in. unfold path_of at 2. simpl. intuition congruence.
Qed.

Lemma count_leaves_segs : forall s, List.length (leaf_segs s) = count_leaves s.
Proof.
  induction s as [a e r props it IHp _] using schema_induction.
  destruct props as [ps|]; simpl; [|reflexivity].
  specialize (IHp ps eq_refl).
  induction IHp as [|[k v] ps' Hv _ IH]; simpl; [reflexivity|].
  rewrite length_app, IH. simpl in Hv. f_equal.
  destruct (properties v); [|reflexivity].
  rewrite length_map. exact Hv.
Qed.

Lemma NoDup_map_on : forall (A B : Type) (f : A -> B) (l : list A),
  (forall x y, In x l -> In y l -> f x = f y -> x = y) ->
  NoDup l -> NoDup (map f l).
Proof.
  intros A B f l. induction l as [|a l IH]; simpl; intros Hf Hn; [constructor|].
  inversion Hn as [|? ? Ha Hl]; subst. constructor.
  - intro I. apply in_map_iff in I. destruct I as [y [E Hy]].
    assert (y = a) by (apply Hf; auto). subst. contradiction.
  - apply IH; [|exact Hl]. intros x y Hx Hy. apply Hf; auto.
Qed.

Lemma leaf_segs_head : forall ps segs,
  In segs (flat_map (fun kv : string * schema =>
                  match properties (snd kv) with
                  | Some _ => map (cons (fst kv)) (leaf_segs (snd kv))
                  | None => [[fst kv]]
                  end) ps) ->
  exists k rest, segs = k :: rest /\ In k (map fst ps).
Proof.
  intros ps segs H. apply in_flat_map in H. destruct H as [[k v] [Hin Hs]].
  simpl in Hs. destruct (properties v).
  - apply in_map_iff in Hs. destruct Hs as [rest [E _]].
    exists k, rest. split; [congruence|]. change k with (fst (k, v)). apply in_map, Hin.
  - destruct Hs as [E|[]]. exists k, []. split; [congruence|].
    change k with (fst (k, v)). apply in_map, Hin.
Qed.

Lemma leaf_segs_nodup : forall s, well_formed s = true -> NoDup (leaf_segs s).
Proof.
  induction s as [a e r props it IHp _] using schema_induction.
  destruct props as [ps|]; simpl; [|constructor].
  specialize (IHp ps eq_refl). rewrite andb_true_iff, unique_nodup.
  intros [Hu Hw].
  induction IHp as [|[k v] ps' Hv _ IH]; simpl; [constructor|].
  simpl in Hu, Hw, Hv. inversion Hu as [|? ? Hk Hu']; subst.
  apply andb_true_iff in Hw. destruct Hw as [Hwv Hw'].
  assert (D : forall segs,
    In segs (match properties v with
             | Some _ => map (cons k) (leaf_segs v)
             | None => [[k]]
             end) -> exists rest, segs = k :: rest).
  { intros segs H. destruct (properties v).
    - apply in_map_iff in H. destruct H as [rest [E _]]. exists rest. congruence.
    - destruct H as [E|[]]. exists []. congruence. }
  apply NoDup_app.
  - destruct (properties v).
    + apply NoDup_map_on; [|apply Hv, Hwv].
      intros x y _ _ E. congruence.
    + constructor; [intros []|constructor].
  - apply IH; assumption.
  - intros segs H1 H2. apply D in H1. destruct H1 as [rest ->].
    apply leaf_segs_head in H2. destruct H2 as [k' [rest' [E I]]].
    injection E as -> _. contradiction.
Qed.

Lemma leaf_segs_plain : forall s, plain_names s = true ->
  Forall (fun segs => segs <> [] /\ Forall (fun k => plain k = true) segs) (leaf_segs s).
Proof.
  induction s as [a e r props it IHp _] using schema_induction.
  destruct props as [ps|]; simpl; [|intros _; constructor].
  specialize (IHp ps eq_refl). intro Hp.
  induction IHp as [|[k v] ps' Hv _ IH]; simpl; [constructor|].
  simpl in Hp, Hv. apply andb_true_iff in Hp. destruct Hp as [Hkv Hp'].
  apply andb_true_iff in Hkv. destruct Hkv as [Hk Hpv].
  apply Forall_app. split; [|apply IH, Hp'].
  destruct (properties v).
  - apply Forall_forall. intros segs H. apply in_map_iff in H.
    destruct H as [rest [<- Hr]]. split; [discriminate|].
    constructor; [exact Hk|].
    specialize (Hv Hpv). rewrite Forall_forall in Hv. apply Hv, Hr.
  - constructor; [|constructor]. split; [discriminate|]. constructor; [exact Hk|constructor].
Qed.

Lemma leaf_paths_nodup : forall s, well_formed s = true -> plain_names s = true ->
  NoDup (map (path_of "") (leaf_segs s)).
Proof.
  intros s Hw Hp. apply NoDup_map_on; [|apply leaf_segs_nodup, Hw].
  pose proof (leaf_segs_plain s Hp) as F. rewrite Forall_forall in F.
  intros x y Hx Hy E.
  destruct (F x Hx) as [Nx Px]. destruct (F y Hy) as [Ny Py].
  rewrite <- (split_path x Nx Px), <- (split_path y Ny Py), E. reflexivity.
Qed.

Lemma flatten_keys_permutation : forall s,
  well_formed s = true -> plain_names s = true ->
  Permutation (dict_keys (Utils.flatten_schema s "")) (map (path_of "") (leaf_segs s)).
Proof.
  intros s Hw Hp. apply NoDup_Permutation.
  - apply flatten_keys_nodup.
  - apply leaf_paths_nodup; assumption.
  - intro x. apply flatten_keys_paths.
Qed.

(** ** C8: size of the flattened schema *)

(** C8, as stated, fails: a property name holding a dot makes two leaves
    share one path, and the flattened mapping is smaller than the number of
    leaves. *)
Lemma flatten_size_dotted_names :
  well_formed dotted_schema = true /\
  count_leaves dotted_schema = 2%nat /\
  List.length (Utils.flatten_schema dotted_schema "") = 1%nat.
Proof. repeat split. Qed.

(** C8, amended.  For every schema whose property names are non-empty and
    hold no dot, [flatten_schema] gives a mapping without duplicate keys
    whose size is the number of leaf nodes reachable through ['properties'];
    a node without properties flattens to the empty mapping. *)
Theorem flatten_size : forall s : schema,
  well_formed s = true -> plain_names s = true ->
  NoDup (dict_keys (Utils.flatten_schema s "")) /\
  List.length (Utils.flatten_schema s "") = count_leaves s /\
  (forall prefix, properties s = Some [] \/ properties s = None ->
     Utils.flatten_schema s prefix = []).
Proof.
  intros s Hw Hp. split; [apply flatten_keys_nodup|]. split.
  - rewrite <- count_leaves_segs.
    rewrite <- (length_map (path_of "") (leaf_segs s)).
    rewrite <- (length_map fst (Utils.flatten_schema s "")).
    apply Permutation_length. apply flatten_keys_permutation; assumption.
  - intros prefix [E|E]; destruct s as [a e r props it]; simpl in E; subst; reflexivity.
Qed.

Lemma flatten_size_witness :
  NoDup (dict_keys (Utils.flatten_schema person_schema "")) /\
  List.length (Utils.flatten_schema person_schema "") = count_leaves person_schema /\
  (forall prefix, properties person_schema = Some [] \/ properties person_schema = None ->
     Utils.flatten_schema person_schema prefix = []).
Proof. apply (flatten_size person_schema); reflexivity. Defined.

(** ** C10, C7, C2: merging the results of document chunks *)

Lemma dict_get_set : forall (A : Type) (k k' : string) (v : A) (d : dict A),
  dict_get k (dict_set k' v d) = if String.eqb k k' then Some v else dict_get k d.
Proof.
  intros A k k' v d. induction d as [|[k0 v0] d IH]; simpl.
  - destruct (String.eqb k k'); reflexivity.
  - destruct (String.eqb_spec k' k0) as [->|N]; simpl.
    + destruct (String.eqb k k0); reflexivity.
    + rewrite IH. destruct (String.eqb_spec k k0) as [->|N0]; [|reflexivity].
      destruct (String.eqb_spec k0 k'); [congruence|reflexivity].
Qed.

(** C10.  Merging an empty list of results gives the empty result: no data,
    overall confidence 0.0 with no per-field score, the strategy tag
    ['document_chunked'] and zero chunks; nothing is raised. *)
Theorem merge_extractions_empty :
  exists r : dict json,
    Merge.merge_extractions [] = Ok r /\
    dict_get "data" r = Some (JDict []) /\
    dict_get "confidence" r = Some (JDict [("overall", JFloat 0); ("fields", JDict [])]) /\
    dict_get "strategy" r = Some (JStr "document_chunked") /\
    dict_get "total_chunks" r = Some (JInt 0) /\
    dict_keys r = ["data"; "confidence"; "strategy"; "total_chunks"].
Proof.
  eexists. split; [reflexivity|]. repeat split.
Qed.

(** C7.  Merging a single result [A] returns [A] with the strategy set to
    ['document_chunked'] and the chunk count set to 1; every other field of
    [A] (data, confidence, token usage, ...) is as it was. *)
Theorem merge_extractions_single : forall A : dict json,
  exists r : dict json,
    Merge.merge_extractions [A] = Ok r /\
    dict_get "strategy" r = Some (JStr "document_chunked") /\
    dict_get "total_chunks" r = Some (JInt 1) /\
    (forall k : string, k <> "strategy" -> k <> "total_chunks" ->
       dict_get k r = dict_get k A) /\
    (forall k : string, In k (dict_keys r) <->
       k = "strategy" \/ k = "total_chunks" \/ In k (dict_keys A)).
Proof.
  intro A. eexists. split; [reflexivity|]. repeat split.
  - rewrite !dict_get_set. reflexivity.
  - rewrite !dict_get_set. reflexivity.
  - intros k H1 H2. rewrite !dict_get_set.
    destruct (String.eqb_spec k "total_chunks"); [contradiction|].
    destruct (String.eqb_spec k "strategy"); [contradiction|]. reflexivity.
  - rewrite !dict_set_keys_in. tauto.
  - rewrite !dict_set_keys_in. tauto.
Qed.

(** C2 against the code.  A Python [bool] is an [int], so two different
    booleans are resolved by the rule for numbers, which keeps the most
    frequent value and, on a tie, the one seen first: [False] followed by
    [True] merges to [False], where the logical OR is [True]. *)
Theorem boolean_merge_keeps_first :
  (forall e n : bool,
     Merge._resolve_field_conflict (JBool e) (JBool n) [JBool e; JBool n] = Ok (JBool e)) /\
  merged_flag [flag_result true; flag_result false] = Ok (JBool true) /\
  merged_flag [flag_result false; flag_result true] = Ok (JBool false).
Proof.
  split; [|split; reflexivity].
  intros [|] [|]; reflexivity.
Qed.

(** ** C3: the score of one field *)

Lemma clamp_bounds : forall c : Q, (0 <= ConfidenceScorer.clamp c <= 1)%Q.
Proof.
  intro c. unfold ConfidenceScorer.clamp.
  destruct (Qltb c 1.0) eqn:E1.
  - apply Qltb_true in E1. destruct (Qltb 0.0 c) eqn:E2.
    + apply Qltb_true in E2. split.
      * apply Qlt_le_weak. eapply Qle_lt_trans; [|exact E2]. discriminate.
      * apply Qlt_le_weak. eapply Qlt_le_trans; [exact E1|]. discriminate.
    + split; discriminate.
  - destruct (Qltb 0.0 1.0) eqn:E2; split; discriminate.
Qed.

Section FieldScore.

Variable re_match : string -> string -> option bool.

Let score_field := ConfidenceScorer.score_field re_match.

(** C3.  Whatever the value, the field schema and the context, the score
    that [score_field] returns lies in [0,1]; an absent value scores exactly
    0.0 when the field is required and exactly 0.5 when it is not. *)
Theorem score_field_range :
  forall (field_value : json) (field_schema : schema) (ctx : ConfidenceScorer.context),
  (forall r : Q, score_field field_value field_schema ctx = Ok r -> (0 <= r <= 1)%Q) /\
  (ConfidenceScorer.is_required field_schema = true ->
     score_field JNull field_schema ctx = Ok 0.0%Q) /\
  (ConfidenceScorer.is_required field_schema = false ->
     score_field JNull field_schema ctx = Ok 0.5%Q).
Proof.
  intros v s ctx. subst score_field. unfold ConfidenceScorer.score_field.
  split; [|split].
  - intros r. destruct (is_none v).
    + destruct (ConfidenceScorer.is_required s); intro H; injection H as <-;
        split; discriminate.
    + destruct (ConfidenceScorer._score_data_type v s); [|discriminate].
      destruct (ConfidenceScorer._score_pattern_match re_match v s); [|discriminate].
      destruct (ConfidenceScorer._score_range_validation v s); [|discriminate].
      destruct (ConfidenceScorer._score_length_validation v s); [|discriminate].
      simpl. intro H. injection H as <-. apply clamp_bounds.
  - intro H. simpl. rewrite H. reflexivity.
  - intro H. simpl. rewrite H. reflexivity.
Qed.

Lemma violates_typed : forall key test v s,
  typed_keyword key is_number s = true ->
  exists b, ConfidenceScorer.violates key test v s = Ok b.
Proof.
  intros key test v s H. unfold ConfidenceScorer.violates, typed_keyword in *.
  destruct (attr key s) as [bound|]; [|eexists; reflexivity].
  destruct bound; try discriminate; eexists; reflexivity.
Qed.

(** On such a field schema [score_field] raises nothing. *)
Lemma score_field_total :
  forall (field_value : json) (field_schema : schema) (ctx : ConfidenceScorer.context),
  typed_field field_schema = true ->
  exists r : Q, score_field field_value field_schema ctx = Ok r.
Proof.
  intros v s ctx H. subst score_field. unfold ConfidenceScorer.score_field.
  unfold typed_field in H. cbn [forallb] in H.
  repeat rewrite andb_true_iff in H.
  destruct H as [[Ht Hp] [H1 [H2 [H3 [H4 [H5 [H6 _]]]]]]].
  destruct (is_none v); [destruct (ConfidenceScorer.is_required s); eexists; reflexivity|].
  assert (T : exists f, ConfidenceScorer._score_data_type v s = Ok f).
  { unfold ConfidenceScorer._score_data_type. unfold typed_keyword in Ht.
    destruct (attr "type" s) as [t|]; [|eexists; reflexivity].
    destruct (truthy t); simpl in *; [|eexists; reflexivity].
    rewrite Ht. simpl.
    repeat match goal with |- context [if ?c then _ else _] => destruct c end;
      eexists; reflexivity. }
  assert (P : exists f, ConfidenceScorer._score_pattern_match re_match v s = Ok f).
  { unfold ConfidenceScorer._score_pattern_match. unfold typed_keyword in *.
    destruct (attr "pattern" s) as [p|]; [|eexists; reflexivity].
    destruct v; try (eexists; reflexivity).
    destruct p; try discriminate.
    destruct (re_match _ _) as [[|]|]; eexists; reflexivity. }
  assert (R : exists f, ConfidenceScorer._score_range_validation v s = Ok f).
  { unfold ConfidenceScorer._score_range_validation.
    destruct (num_value v) as [q|]; [|eexists; reflexivity].
    destruct (violates_typed "minimum" Qltb q s) as [b1 ->]; [assumption|].
    destruct (violates_typed "maximum" ConfidenceScorer.Qgtb q s) as [b2 ->]; [assumption|].
    destruct (violates_typed "exclusiveMinimum" Qle_bool q s) as [b3 ->]; [assumption|].
    destruct (violates_typed "exclusiveMaximum" ConfidenceScorer.Qgeb q s) as [b4 ->];
      [assumption|].
    eexists; reflexivity. }
  assert (L : exists f, ConfidenceScorer._score_length_validation v s = Ok f).
  { unfold ConfidenceScorer._score_length_validation.
    destruct (match v with JStr v0 => Some (str_len v0)
                         | JList l => Some (Z.of_nat (List.length l))
                         | _ => None end) as [n|]; [|eexists; reflexivity].
    destruct (violates_typed "minLength" Qltb (inject_Z n) s) as [b1 ->]; [assumption|].
    destruct (violates_typed "maxLength" ConfidenceScorer.Qgtb (inject_Z n) s) as [b2 ->];
      [assumption|].
    eexists; reflexivity. }
  destruct T as [f1 ->], P as [f2 ->], R as [f3 ->], L as [f4 ->].
  eexists; reflexivity.
Qed.

End FieldScore.

(** ** The extraction order *)

Lemma set_add_fresh : forall x s, ~ In x s -> set_add x s = (s ++ [x])%list.
Proof.
  intros x s H. unfold set_add. destruct (set_mem x s) eqn:E; [|reflexivity].
  apply set_mem_in in E. contradiction.
Qed.

Lemma set_add_in : forall x y s, In y (set_add x s) <-> y = x \/ In y s.
Proof.
  intros x y s. unfold set_add. destruct (set_mem x s) eqn:E.
  - apply set_mem_in in E. split; [tauto|]. intros [->|H]; assumption.
  - rewrite in_app_iff. simpl. intuition congruence.
Qed.

Lemma set_remove_fresh : forall x s, ~ In x s -> set_remove x (s ++ [x])%list = s.
Proof.
  intros x s H. unfold set_remove. rewrite filter_app. simpl.
  rewrite String.eqb_refl. simpl. rewrite app_nil_r.
  induction s as [|y s IH]; simpl; [reflexivity|].
  destruct (String.eqb_spec x y) as [->|N]; simpl.
  - exfalso. apply H. left. reflexivity.
  - f_equal. apply IH. intro I. apply H. right. exact I.
Qed.

Section ExtractionOrder.

Variable dependencies : dict SchemaAnalyzer.dependency.

Let keys : list string := dict_keys dependencies.

Lemma dfs_step_refl : forall st, dfs_ok dependencies st -> dfs_step dependencies st st.
Proof. intros st H. split; auto. Qed.

Lemma dfs_step_trans : forall a b c, dfs_step dependencies a b -> dfs_step dependencies b c -> dfs_step dependencies a c.
Proof.
  intros a b c [_ T1 G1] [O2 T2 G2]. split; [exact O2|congruence|auto].
Qed.

Lemma visit_loop : forall fuel,
  (forall field st, dfs_ok dependencies st -> In field keys -> enough dependencies fuel st ->
     exists st', SchemaAnalyzer.visit dependencies fuel field st = Some st' /\
                 dfs_step dependencies st st' /\
                 (~ In field (SchemaAnalyzer.temp_visited st) ->
                  In field (SchemaAnalyzer.visited st'))) ->
  forall deps st, dfs_ok dependencies st -> enough dependencies fuel st ->
  exists st',
    fold_left
      (fun acc dep =>
         match acc with
         | Some st =>
             if dict_has dep dependencies
             then SchemaAnalyzer.visit dependencies fuel dep st
             else Some st
         | None => None
         end) deps (Some st) = Some st' /\
    dfs_step dependencies st st'.
Proof.
  intros fuel IH deps. induction deps as [|dep deps IHd]; intros st Hok Hf; simpl.
  - exists st. split; [reflexivity|apply dfs_step_refl, Hok].
  - destruct (dict_has dep dependencies) eqn:E.
    + assert (Hk : In dep keys).
      { unfold dict_has in E. destruct (dict_get dep dependencies) eqn:G; [|discriminate].
        apply dict_get_in in G. change dep with (fst (dep, d)). apply in_map, G. }
      destruct (IH dep st Hok Hk Hf) as [st1 [E1 [S1 _]]]. rewrite E1.
      destruct (IHd st1) as [st2 [E2 S2]].
      * apply (step_ok _ _ _ S1).
      * unfold enough in *. rewrite (step_temp _ _ _ S1). exact Hf.
      * exists st2. split; [exact E2|]. eapply dfs_step_trans; eassumption.
    + apply IHd; assumption.
Qed.

Lemma visit_spec : forall fuel field st,
  dfs_ok dependencies st -> In field keys -> enough dependencies fuel st ->
  exists st', SchemaAnalyzer.visit dependencies fuel field st = Some st' /\
              dfs_step dependencies st st' /\
              (~ In field (SchemaAnalyzer.temp_visited st) ->
               In field (SchemaAnalyzer.visited st')).
Proof.
  induction fuel as [|fuel IH]; intros field st Hok Hk Hf.
  - unfold enough in Hf. lia.
  - simpl. destruct (set_mem field (SchemaAnalyzer.temp_visited st)) eqn:Et.
    { apply set_mem_in in Et. exists st. split; [reflexivity|].
      split; [apply dfs_step_refl, Hok|]. intro N. contradiction. }
    destruct (set_mem field (SchemaAnalyzer.visited st)) eqn:Ev.
    { apply set_mem_in in Ev. exists st. split; [reflexivity|].
      split; [apply dfs_step_refl, Hok|]. intros _. exact Ev. }
    assert (Nt : ~ In field (SchemaAnalyzer.temp_visited st)).
    { intro I. apply set_mem_in in I. congruence. }
    assert (Nv : ~ In field (SchemaAnalyzer.visited st)).
    { intro I. apply set_mem_in in I. congruence. }
    rewrite (set_add_fresh _ _ Nt).
    set (st1 := {| SchemaAnalyzer.ordered_fields := SchemaAnalyzer.ordered_fields st;
                   SchemaAnalyzer.visited := SchemaAnalyzer.visited st;
                   SchemaAnalyzer.temp_visited :=
                     (SchemaAnalyzer.temp_visited st ++ [field])%list |}).
    destruct Hok as [O1 O2 O3 O4 O5 O6].
    assert (Hn1 : NoDup (SchemaAnalyzer.temp_visited st ++ [field])%list).
    { apply NoDup_app; [exact O4|constructor; [intros []|constructor]|].
      intros x Hx [<-|[]]. contradiction. }
    assert (Hi1 : incl (SchemaAnalyzer.temp_visited st ++ [field])%list keys).
    { intros x Hx. apply in_app_iff in Hx. destruct Hx as [Hx|[<-|[]]]; auto. }
    assert (Hok1 : dfs_ok dependencies st1).
    { split; simpl; [exact O1|exact O2|exact O3|exact Hn1|exact Hi1|].
      intros x Hx. apply in_app_iff in Hx. destruct Hx as [Hx|[<-|[]]]; auto. }
    assert (Hf1 : enough dependencies fuel st1).
    { unfold enough in *. simpl.
      pose proof (NoDup_incl_length Hn1 Hi1) as L. unfold keys in L.
      rewrite length_app in *. simpl in *. lia. }
    destruct (visit_loop fuel IH (SchemaAnalyzer.depends_on_of dependencies field) st1 Hok1 Hf1)
      as [st2 [E2 [[P1 P2 P3 P4 P5 P6] T2 G2]]].
    rewrite E2. eexists. split; [reflexivity|].
    simpl in T2.
    assert (Nv2 : ~ In field (SchemaAnalyzer.visited st2)).
    { apply P6. rewrite T2. apply in_app_iff. right. left. reflexivity. }
    split; [split|].
    + split; simpl.
      * apply NoDup_app; [exact P1|constructor; [intros []|constructor]|].
        intros x Hx [<-|[]]. apply Nv2, P2, Hx.
      * intro x. rewrite set_add_in, in_app_iff, P2. simpl. intuition congruence.
      * intros x Hx. apply in_app_iff in Hx. destruct Hx as [Hx|[<-|[]]]; auto.
      * rewrite T2, set_remove_fresh by exact Nt. exact O4.
      * rewrite T2, set_remove_fresh by exact Nt. exact O5.
      * rewrite T2, set_remove_fresh by exact Nt. intros x Hx.
        rewrite set_add_in. intros [->|Hv]; [contradiction|].
        apply (P6 x); [|exact Hv]. rewrite T2. apply in_app_iff. left. exact Hx.
    + simpl. rewrite T2. apply set_remove_fresh, Nt.
    + simpl. intros x Hx. apply set_add_in. right. apply G2. exact Hx.
    + intros _. simpl. apply set_add_in. left. reflexivity.
Qed.

Lemma visit_all : forall fuel fields st,
  dfs_ok dependencies st -> SchemaAnalyzer.temp_visited st = [] -> (List.length keys < fuel)%nat ->
  incl fields keys ->
  exists st',
    fold_left
      (fun acc field =>
         match acc with
         | Some st =>
             if negb (set_mem field (SchemaAnalyzer.visited st))
             then SchemaAnalyzer.visit dependencies fuel field st
             else Some st
         | None => None
         end) fields (Some st) = Some st' /\
    dfs_step dependencies st st' /\
    (forall x, In x fields -> In x (SchemaAnalyzer.visited st')).
Proof.
  intros fuel fields. induction fields as [|field fields IH]; intros st Hok Ht Hf Hi; simpl.
  - exists st. split; [reflexivity|]. split; [apply dfs_step_refl, Hok|]. intros x [].
  - assert (Hin : In field keys) by (apply Hi; left; reflexivity).
    assert (Hi' : incl fields keys) by (intros x Hx; apply Hi; right; exact Hx).
    destruct (set_mem field (SchemaAnalyzer.visited st)) eqn:E; simpl.
    + apply set_mem_in in E.
      destruct (IH st Hok Ht Hf Hi') as [st' [E' [S' V']]].
      exists st'. split; [exact E'|]. split; [exact S'|].
      intros x [<-|Hx]; [apply (step_grows _ _ _ S'), E|apply V', Hx].
    + assert (He : enough dependencies fuel st) by (unfold enough; unfold keys in Hf; rewrite Ht; simpl; lia).
      destruct (visit_spec fuel field st Hok Hin He) as [st1 [E1 [S1 V1]]].
      rewrite E1.
      assert (Ht1 : SchemaAnalyzer.temp_visited st1 = []) by (rewrite (step_temp _ _ _ S1); exact Ht).
      destruct (IH st1 (step_ok _ _ _ S1) Ht1 Hf Hi') as [st' [E' [S' V']]].
      exists st'. split; [exact E'|]. split; [eapply dfs_step_trans; eassumption|].
      intros x [<-|Hx]; [|apply V', Hx].
      apply (step_grows _ _ _ S'), V1. rewrite Ht. intros [].
Qed.

End ExtractionOrder.

Lemma fold_dict_set_keys : forall (A B : Type) (g : string * A -> B) (l : dict A) (acc : dict B) x,
  In x (dict_keys (fold_left (fun d kv => dict_set (fst kv) (g kv) d) l acc)) <->
  In x (dict_keys acc) \/ In x (dict_keys l).
Proof.
  intros A B g l. induction l as [|[k v] l IH]; intros acc x; simpl.
  - tauto.
  - rewrite IH, dict_set_keys_in. simpl. intuition congruence.
Qed.

Lemma fold_dict_set_nodup : forall (A B : Type) (g : string * A -> B) (l : dict A) (acc : dict B),
  NoDup (dict_keys acc) ->
  NoDup (dict_keys (fold_left (fun d kv => dict_set (fst kv) (g kv) d) l acc)).
Proof.
  intros A B g l. induction l as [|[k v] l IH]; intros acc H; simpl; [exact H|].
  apply IH, dict_set_keys_nodup, H.
Qed.

Lemma dependency_graph_keys : forall s,
  Permutation (dict_keys (SchemaAnalyzer.build_dependency_graph s))
              (dict_keys (Utils.flatten_schema s "")).
Proof.
  intro s. unfold SchemaAnalyzer.build_dependency_graph.
  apply NoDup_Permutation.
  - apply (fold_dict_set_nodup schema SchemaAnalyzer.dependency
             (fun kv => {| SchemaAnalyzer.depends_on :=
                             SchemaAnalyzer._find_dependencies (fst kv) (snd kv)
                               (Utils.flatten_schema s "");
                           SchemaAnalyzer.dep_required := _;
                           SchemaAnalyzer.dep_type := _;
                           SchemaAnalyzer.has_enum := _ |})).
    constructor.
  - apply flatten_keys_nodup.
  - intro x.
    rewrite (fold_dict_set_keys schema SchemaAnalyzer.dependency
             (fun kv => {| SchemaAnalyzer.depends_on :=
                             SchemaAnalyzer._find_dependencies (fst kv) (snd kv)
                               (Utils.flatten_schema s "");
                           SchemaAnalyzer.dep_required := _;
                           SchemaAnalyzer.dep_type := _;
                           SchemaAnalyzer.has_enum := _ |})).
    simpl. tauto.
Qed.

(** [get_extraction_order] never runs out of fuel, and it orders the fields
    of the flattened schema, each once. *)
Lemma extraction_order_permutation : forall s,
  exists ordered,
    SchemaAnalyzer.get_extraction_order s = Some ordered /\
    Permutation ordered (dict_keys (Utils.flatten_schema s "")).
Proof.
  intro s. unfold SchemaAnalyzer.get_extraction_order.
  set (deps := SchemaAnalyzer.build_dependency_graph s).
  set (st0 := {| SchemaAnalyzer.ordered_fields := []; SchemaAnalyzer.visited := [];
                 SchemaAnalyzer.temp_visited := [] |}).
  assert (Hok : dfs_ok deps st0).
  { split; simpl; try constructor; try tauto. }
  destruct (visit_all deps (S (List.length deps)) (dict_keys deps) st0 Hok eq_refl)
    as [st' [E [[[O1 O2 O3 O4 O5 O6] T G] V]]].
  - unfold dict_keys. rewrite length_map. lia.
  - apply incl_refl.
  - rewrite E. eexists. split; [reflexivity|].
    eapply Permutation_trans; [|apply dependency_graph_keys].
    apply NoDup_Permutation.
    + exact O1.
    + eapply Permutation_NoDup; [apply Permutation_sym, dependency_graph_keys|].
      apply flatten_keys_nodup.
    + intro x. split; [apply O3|]. intro Hx. apply O2, V, Hx.
Qed.

(** ** C5: a failed call does not stop the extraction *)

(** A loop that threads a result stays at the exception once it is raised. *)
Lemma fold_result_raise : forall (St X : Type) (g : result St -> X -> result St),
  (forall e x, g (Raise e) x = Raise e) ->
  forall (l : list X) (e : exn), fold_left g l (Raise e) = Raise e.
Proof.
  intros St X g Hg l. induction l as [|x l IH]; intro e; [reflexivity|].
  cbn [fold_left]. rewrite Hg. apply IH.
Qed.

Section FailurePolicy.

Import ExtractionEngine.

Variable chat_completion : string -> string -> result response.
Variable json_loads : string -> result json.
Variable json_dumps : json -> string.
Variable str_of_int : Z -> string.
Variable str_of_exn : exn -> string.
Variable calculate_confidence : json -> schema -> string -> result confidence.
Variable _build_extraction_prompt : string -> schema -> prompt_context -> string.

Let ask := ExtractionEngine.ask chat_completion json_loads.
Let chunk_step :=
  ExtractionEngine.chunk_step chat_completion json_loads json_dumps str_of_int str_of_exn
    calculate_confidence _build_extraction_prompt.
Let extract_complex :=
  ExtractionEngine.extract_complex chat_completion json_loads json_dumps str_of_int str_of_exn
    calculate_confidence _build_extraction_prompt.
Let level_step :=
  ExtractionEngine.level_step chat_completion json_loads str_of_int
    calculate_confidence _build_extraction_prompt.
Let extract_hierarchical :=
  ExtractionEngine.extract_hierarchical chat_completion json_loads str_of_int
    calculate_confidence _build_extraction_prompt.
Let chunk_prompt := ExtractionEngine.chunk_prompt json_dumps _build_extraction_prompt.
Let level_prompt := ExtractionEngine.level_prompt _build_extraction_prompt.
Let error_entry := ExtractionEngine.error_entry str_of_exn.

(** The model answers with JSON objects ([response_format] is
    [json_object]): a reply of the client that parses is a dict. *)
Let replies_are_objects : Prop :=
  forall system prompt response payload,
    ask system prompt = Ok (response, payload) -> is_dict payload = true.

Lemma chunk_step_entry : forall text st chunk,
  replies_are_objects ->
  exists entry,
    results (chunk_step text st chunk) = (results st ++ [entry])%list /\
    entry_of str_of_exn chunk entry.
Proof.
  intros text st chunk Hobj. subst chunk_step. unfold ExtractionEngine.chunk_step.
  unfold ExtractionEngine.try_chunk.
  destruct (ExtractionEngine.ask _ _ _ _) as [[resp payload]|e] eqn:A.
  - pose proof (Hobj _ _ _ _ A) as D.
    destruct (calculate_confidence _ _ _) as [c|e].
    + destruct payload; try discriminate. simpl.
      eexists. split; [reflexivity|]. split; [reflexivity|]. right. split; reflexivity.
    + simpl. eexists. split; [reflexivity|]. split; [reflexivity|]. left.
      exists e. reflexivity.
  - simpl. eexists. split; [reflexivity|]. split; [reflexivity|]. left.
    exists e. reflexivity.
Qed.

Lemma chunk_loop_entries : forall text chunks st,
  replies_are_objects ->
  exists entries,
    results (fold_left (chunk_step text) chunks st) = (results st ++ entries)%list /\
    Forall2 (entry_of str_of_exn) chunks entries.
Proof.
  intros text chunks. induction chunks as [|chunk chunks IH]; intros st Hobj; simpl.
  - exists []. split; [rewrite app_nil_r; reflexivity|constructor].
  - destruct (chunk_step_entry text st chunk Hobj) as [entry [E1 H1]].
    destruct (IH (chunk_step text st chunk) Hobj) as [entries [E2 H2]].
    exists (entry :: entries). split.
    + rewrite E2, E1, <- app_assoc. reflexivity.
    + constructor; assumption.
Qed.

Lemma entries_of_chunks_hold_objects : forall chunks entries,
  Forall2 (entry_of str_of_exn) chunks entries ->
  Forall (fun entry => is_dict (entry_data entry) = true) entries.
Proof.
  intros chunks entries H. induction H as [|chunk entry chunks entries [_ He] _ IH].
  - constructor.
  - constructor; [|exact IH].
    destruct He as [[e ->]|[_ D]]; [reflexivity|exact D].
Qed.

Lemma merge_entries : forall (entries : list chunk_entry) acc,
  Forall (fun entry => is_dict (entry_data entry) = true) entries ->
  exists m,
    fold_left
      (fun acc entry =>
         m <- acc ;;
         match entry_data entry with
         | JDict d =>
             Ok (Nested.merge_dicts_deep (fst m) d,
                 dict_update (snd m) (fields (entry_confidence entry)))
         | _ => Raise AttributeError
         end)
      entries (Ok acc) = Ok m.
Proof.
  intros entries acc H. revert acc.
  induction H as [|entry entries D _ IH]; intro acc; simpl.
  - exists acc. reflexivity.
  - destruct (entry_data entry); try discriminate. apply IH.
Qed.

Lemma complex_result_of_run : forall text schema_chunks,
  Forall (fun entry => is_dict (entry_data entry) = true)
    (results (fold_left (chunk_step text) (sorted_by priority_rank schema_chunks)
                {| results := []; total_tokens := 0; previous_results := [] |})) ->
  exists r,
    extract_complex text schema_chunks = Ok r /\
    cr_strategy r = SchemaAnalyzer.multi_pass_chunked /\
    cr_chunk_results r =
      results (fold_left (chunk_step text) (sorted_by priority_rank schema_chunks)
                 {| results := []; total_tokens := 0; previous_results := [] |}) /\
    cr_token_usage r =
      total_tokens (fold_left (chunk_step text) (sorted_by priority_rank schema_chunks)
                      {| results := []; total_tokens := 0; previous_results := [] |}).
Proof.
  intros text schema_chunks H. subst extract_complex. unfold ExtractionEngine.extract_complex.
  fold chunk_step.
  destruct (merge_entries _ ([], []) H) as [m Hm].
  eexists.
  match goal with
  | |- context [bind ?x _] => assert (Hx : x = Ok m) by exact Hm; rewrite Hx
  end.
  simpl. repeat split; reflexivity.
Qed.

(** C5, amended.  In the chunked strategy a failure of the model call, of the
    parsing of its reply or of the scoring of one chunk is caught: the chunk
    is recorded as an error-tagged entry with empty data and zero confidence,
    the token count and the accumulated context are left as they were, and
    the loop goes on with the next chunk; a chunk whose reply is an object
    that is scored adds its entry, its tokens and its data.  The result holds
    the entries and the token count that the loop leaves, one entry per chunk
    in the order of processing, and it is returned whenever the recorded
    replies are objects, so whenever the model answers with objects.

    In the hierarchical strategy a failure is caught and the loop goes on
    with the next level, but nothing records it: after a failed call, a reply
    that does not parse or a reply that is no object the accumulated data,
    scores and token count are as they were; after a failed scoring the reply
    of the level is already merged into the data, and the scores and the
    token count are as they were.  A result built from the state that the
    loop over all levels leaves is returned for every input. *)
Theorem failure_is_local :
  (forall text st chunk rest e,
     ask (chunk_system_message str_of_int chunk) (chunk_prompt text chunk st) = Raise e ->
     fold_left (chunk_step text) (chunk :: rest) st =
       fold_left (chunk_step text) rest
         {| results := (results st ++ [error_entry chunk e])%list;
            total_tokens := total_tokens st;
            previous_results := previous_results st |}) /\
  (forall text st chunk rest response payload e,
     ask (chunk_system_message str_of_int chunk) (chunk_prompt text chunk st)
       = Ok (response, payload) ->
     calculate_confidence payload (SchemaAnalyzer.chunk_schema_of chunk) text = Raise e ->
     fold_left (chunk_step text) (chunk :: rest) st =
       fold_left (chunk_step text) rest
         {| results := (results st ++ [error_entry chunk e])%list;
            total_tokens := total_tokens st;
            previous_results := previous_results st |}) /\
  (forall chunk e,
     entry_data (error_entry chunk e) = JDict [] /\
     overall (entry_confidence (error_entry chunk e)) = 0.0%Q /\
     fields (entry_confidence (error_entry chunk e)) = [] /\
     entry_chunk_id (error_entry chunk e) = SchemaAnalyzer.chunk_id chunk /\
     entry_error (error_entry chunk e) = Some (str_of_exn e)) /\
  (forall text st chunk rest response d c,
     ask (chunk_system_message str_of_int chunk) (chunk_prompt text chunk st)
       = Ok (response, JDict d) ->
     calculate_confidence (JDict d) (SchemaAnalyzer.chunk_schema_of chunk) text = Ok c ->
     fold_left (chunk_step text) (chunk :: rest) st =
       fold_left (chunk_step text) rest
         {| results :=
              (results st ++
               [{| entry_data := JDict d;
                   entry_confidence := c;
                   entry_chunk_id := SchemaAnalyzer.chunk_id chunk;
                   entry_priority := Some (SchemaAnalyzer.priority_of chunk);
                   entry_error := None |}])%list;
            total_tokens := total_tokens st + tokens_of response;
            previous_results := Nested.merge_dicts_deep (previous_results st) d |}) /\
  (forall text schema_chunks,
     let run :=
       fold_left (chunk_step text) (sorted_by priority_rank schema_chunks)
         {| results := []; total_tokens := 0; previous_results := [] |} in
     Forall (fun entry => is_dict (entry_data entry) = true) (results run) ->
     exists r,
       extract_complex text schema_chunks = Ok r /\
       cr_strategy r = SchemaAnalyzer.multi_pass_chunked /\
       cr_chunk_results r = results run /\
       cr_token_usage r = total_tokens run) /\
  ((forall system prompt response payload,
      ask system prompt = Ok (response, payload) -> is_dict payload = true) ->
   forall text schema_chunks,
     exists r,
       extract_complex text schema_chunks = Ok r /\
       cr_strategy r = SchemaAnalyzer.multi_pass_chunked /\
       Forall2 (entry_of str_of_exn) (sorted_by priority_rank schema_chunks)
         (cr_chunk_results r)) /\
  (forall text s st lf rest e,
     ask (level_system_message str_of_int (fst lf)) (level_prompt text s (snd lf) st) = Raise e ->
     fold_left (level_step text s) (lf :: rest) st = fold_left (level_step text s) rest st) /\
  (forall text s st lf rest response payload,
     ask (level_system_message str_of_int (fst lf)) (level_prompt text s (snd lf) st)
       = Ok (response, payload) ->
     is_dict payload = false ->
     fold_left (level_step text s) (lf :: rest) st = fold_left (level_step text s) rest st) /\
  (forall text s st lf rest response d e,
     ask (level_system_message str_of_int (fst lf)) (level_prompt text s (snd lf) st)
       = Ok (response, JDict d) ->
     calculate_confidence (JDict d) (_build_level_schema s (snd lf)) text = Raise e ->
     fold_left (level_step text s) (lf :: rest) st =
       fold_left (level_step text s) rest
         {| h_result := Nested.merge_dicts_deep (h_result st) d;
            confidence_scores := confidence_scores st;
            h_total_tokens := h_total_tokens st |}) /\
  (forall text s st lf rest response d c,
     ask (level_system_message str_of_int (fst lf)) (level_prompt text s (snd lf) st)
       = Ok (response, JDict d) ->
     calculate_confidence (JDict d) (_build_level_schema s (snd lf)) text = Ok c ->
     fold_left (level_step text s) (lf :: rest) st =
       fold_left (level_step text s) rest
         {| h_result := Nested.merge_dicts_deep (h_result st) d;
            confidence_scores := dict_update (confidence_scores st) (fields c);
            h_total_tokens := h_total_tokens st + tokens_of response |}) /\
  (forall text s,
     exists extraction_order,
       SchemaAnalyzer.get_extraction_order s = Some extraction_order /\
       let run :=
         fold_left (level_step text s) (_group_fields_by_level extraction_order)
           {| h_result := []; confidence_scores := []; h_total_tokens := 0 |} in
       extract_hierarchical text s =
         Some {| hr_data := h_result run;
                 hr_confidence := {| overall := mean_score (confidence_scores run);
                                     fields := confidence_scores run;
                                     schema_valid := None;
                                     validation_error := None |};
                 hr_strategy := SchemaAnalyzer.multi_pass_hierarchical;
                 hr_token_usage := h_total_tokens run |}).
Proof.
  assert (Hchunk : forall text st chunk,
            chunk_step text st chunk =
              ExtractionEngine.chunk_step chat_completion json_loads json_dumps str_of_int
                str_of_exn calculate_confidence _build_extraction_prompt text st chunk)
    by reflexivity.
  assert (Hlevel : forall text s st lf,
            level_step text s st lf =
              fst (try_level chat_completion json_loads str_of_int calculate_confidence
                     _build_extraction_prompt text s (fst lf) (snd lf) st))
    by reflexivity.
  split; [|split; [|split; [|split; [|split; [|split; [|split; [|split; [|split; [|split]]]]]]]]].
  - intros text st chunk rest e H. cbn [fold_left]. f_equal.
    rewrite Hchunk. unfold ExtractionEngine.chunk_step, ExtractionEngine.try_chunk.
    subst ask chunk_prompt. rewrite H. reflexivity.
  - intros text st chunk rest response payload e H Hc. cbn [fold_left]. f_equal.
    rewrite Hchunk. unfold ExtractionEngine.chunk_step, ExtractionEngine.try_chunk.
    subst ask chunk_prompt. rewrite H, Hc. reflexivity.
  - intros chunk e. repeat split.
  - intros text st chunk rest response d c H Hc. cbn [fold_left]. f_equal.
    rewrite Hchunk. unfold ExtractionEngine.chunk_step, ExtractionEngine.try_chunk.
    subst ask chunk_prompt. rewrite H, Hc. reflexivity.
  - intros text schema_chunks run H. apply complex_result_of_run, H.
  - intros Hobj text schema_chunks.
    destruct (chunk_loop_entries text (sorted_by priority_rank schema_chunks)
                {| results := []; total_tokens := 0; previous_results := [] |} Hobj)
      as [entries [E H]].
    cbn [results app] in E.
    destruct (complex_result_of_run text schema_chunks) as [r [E1 [E2 [E3 _]]]].
    { rewrite E. eapply entries_of_chunks_hold_objects, H. }
    exists r. split; [exact E1|]. split; [exact E2|]. rewrite E3, E. exact H.
  - intros text s st lf rest e H. cbn [fold_left]. f_equal.
    rewrite Hlevel. unfold try_level. subst ask level_prompt. rewrite H. reflexivity.
  - intros text s st lf rest response payload H D. cbn [fold_left]. f_equal.
    rewrite Hlevel. unfold try_level. subst ask level_prompt. rewrite H.
    destruct payload; try reflexivity. discriminate D.
  - intros text s st lf rest response d e H Hc. cbn [fold_left]. f_equal.
    rewrite Hlevel. unfold try_level. subst ask level_prompt. rewrite H, Hc. reflexivity.
  - intros text s st lf rest response d c H Hc. cbn [fold_left]. f_equal.
    rewrite Hlevel. unfold try_level. subst ask level_prompt. rewrite H, Hc. reflexivity.
  - intros text s. subst extract_hierarchical. unfold ExtractionEngine.extract_hierarchical.
    destruct (extraction_order_permutation s) as [ordered [E _]]. rewrite E.
    exists ordered. split; reflexivity.
Qed.

End FailurePolicy.

(** The chunk of the address is taken first and its call times out; the
    chunk of the name is taken next and answered.  The result holds the
    error entry of the first and the entry of the second. *)
Lemma failure_is_local_witness :
  exists r,
    ExtractionEngine.extract_complex address_call_times_out parse_reply (fun _ => "")
      show_int show_exn
      (ExtractionEngine.calculate_confidence (fun _ _ => Utils.Valid) (fun _ _ => Some true)
         (fun _ => ""))
      plain_prompt "Ann lives in Oslo." [name_chunk; address_chunk]
    = Ok r /\
    ExtractionEngine.cr_strategy r = SchemaAnalyzer.multi_pass_chunked /\
    Forall2 (entry_of show_exn)
      (ExtractionEngine.sorted_by ExtractionEngine.priority_rank [name_chunk; address_chunk])
      (ExtractionEngine.cr_chunk_results r) /\
    map ExtractionEngine.entry_chunk_id (ExtractionEngine.cr_chunk_results r) = [1; 0] /\
    map ExtractionEngine.entry_error (ExtractionEngine.cr_chunk_results r)
      = [Some "timeout"; None] /\
    ExtractionEngine.cr_data r = [("name", JStr "Ann")] /\
    ExtractionEngine.cr_token_usage r = 12.
Proof.
  destruct (failure_is_local address_call_times_out parse_reply (fun _ => "") show_int show_exn
              (ExtractionEngine.calculate_confidence (fun _ _ => Utils.Valid)
                 (fun _ _ => Some true) (fun _ => ""))
              plain_prompt)
    as (_ & _ & _ & _ & _ & H & _).
  destruct (H (fun system prompt response payload =>
                 ltac:(unfold ExtractionEngine.ask, address_call_times_out;
                       destruct (String.eqb _ _); [discriminate|];
                       cbn; intro E; injection E as _ <-; reflexivity))
              "Ann lives in Oslo." [name_chunk; address_chunk]) as [r [E [S F]]].
  exists r. split; [exact E|]. split; [exact S|]. split; [exact F|].
  vm_compute in E. injection E as <-. repeat split.
Defined.

(** In the hierarchical strategy a failed scoring leaves the reply in the
    data: the scoring of level 0 fails, yet the name that level 0 returned
    is in the result, without a score and without its tokens; level 1 is
    processed and scored. *)
Example hierarchical_scoring_failure_keeps_reply :
  ExtractionEngine.extract_hierarchical level_call parse_reply show_int score_fails_on_name
    plain_prompt "Ann lives in Oslo." person_schema
  = Some {| ExtractionEngine.hr_data :=
              [("name", JStr "Ann"); ("address", JDict [("city", JStr "Oslo")])];
            ExtractionEngine.hr_confidence :=
              {| ExtractionEngine.overall := 1.0;
                 ExtractionEngine.fields := [("address.city", 1.0%Q)];
                 ExtractionEngine.schema_valid := None;
                 ExtractionEngine.validation_error := None |};
            ExtractionEngine.hr_strategy := SchemaAnalyzer.multi_pass_hierarchical;
            ExtractionEngine.hr_token_usage := 9 |}.
Proof. vm_compute. reflexivity. Qed.

(** C5, as stated, fails for the hierarchical strategy: when the call of
    every level fails, the result holds no error tag and no contribution of
    the failed levels; it is the result of a schema without any field, for
    which no call is made. *)
Lemma hierarchical_failure_unrecorded :
  let run :=
    ExtractionEngine.extract_hierarchical timeout_call parse_empty_object (fun _ => "")
      no_score plain_prompt "Ann lives in Oslo." in
  SchemaAnalyzer.get_extraction_order person_schema = Some ["name"; "address.city"; "address.zip"] /\
  run person_schema =
    Some {| ExtractionEngine.hr_data := [];
            ExtractionEngine.hr_confidence :=
              {| ExtractionEngine.overall := 0.0;
                 ExtractionEngine.fields := [];
                 ExtractionEngine.schema_valid := None;
                 ExtractionEngine.validation_error := None |};
            ExtractionEngine.hr_strategy := SchemaAnalyzer.multi_pass_hierarchical;
            ExtractionEngine.hr_token_usage := 0 |} /\
  run person_schema = run empty_schema.
Proof. repeat split. Qed.

(** ** C6: the token count of a document chunk *)

Section OverBudget.

Import DocumentProcessor.

Variable count_tokens : string -> Z.
Variable re_split : string -> string -> list string.
Variable max_tokens_per_chunk : Z.
Variable overlap_tokens : Z.
Variable max_tokens : Z.

(** The sentence pattern splits after a full stop followed by white space
    and a capital letter. *)
Hypothesis split_document :
  re_split sentence_pattern three_sentences = [sentence1; sentence2; sentence3].
Hypothesis split_first_chunk :
  re_split sentence_pattern sentences12 = [sentence1; sentence2].

(** No sentence is over the budget, the first two fit it together, the three
    do not; the first two fit the overlap budget. *)
Hypothesis fits1 : count_tokens sentence1 <= max_tokens.
Hypothesis fits2 : count_tokens sentence2 <= max_tokens.
Hypothesis fits3 : count_tokens sentence3 <= max_tokens.
Hypothesis fits12 : count_tokens sentence1 + count_tokens sentence2 <= max_tokens.
Hypothesis over123 :
  count_tokens sentence1 + count_tokens sentence2 + count_tokens sentence3 > max_tokens.
Hypothesis fits_overlap : count_tokens sentences12 <= overlap_tokens.

(** The document is chunked because it is over the budget. *)
Hypothesis document_over : count_tokens three_sentences > max_tokens.

Let split := _split_into_sentences re_split.
Let step := sentence_step count_tokens re_split overlap_tokens max_tokens.

Lemma sentences_of_document : split three_sentences = [sentence1; sentence2; sentence3].
Proof.
  subst split. unfold _split_into_sentences.
  change (strip three_sentences) with three_sentences.
  rewrite split_document. reflexivity.
Qed.

Lemma sentences_of_first_chunk : split sentences12 = [sentence1; sentence2].
Proof.
  subst split. unfold _split_into_sentences.
  change (strip sentences12) with sentences12.
  rewrite split_first_chunk. reflexivity.
Qed.

Lemma gtb_false : forall a b, a <= b -> (a >? b) = false.
Proof. intros a b H. rewrite Z.gtb_ltb. apply Z.ltb_ge. lia. Qed.

Lemma gtb_true : forall a b, a > b -> (a >? b) = true.
Proof. intros a b H. rewrite Z.gtb_ltb. apply Z.ltb_lt. lia. Qed.

Lemma step1 :
  step {| chunks := []; current_chunk := []; current_tokens := 0;
          next_chunk_id := 0; text_position := 0 |} sentence1 = state1 count_tokens.
Proof.
  subst step. unfold sentence_step.
  rewrite (gtb_false _ _ fits1). cbn [current_chunk current_tokens].
  rewrite andb_false_r. reflexivity.
Qed.

Lemma step2 : step (state1 count_tokens) sentence2 = state2 count_tokens.
Proof.
  subst step. unfold sentence_step.
  rewrite (gtb_false _ _ fits2). cbn [current_chunk current_tokens state1].
  rewrite (gtb_false (0 + count_tokens sentence1 + count_tokens sentence2) max_tokens)
    by lia.
  reflexivity.
Qed.

Lemma step3 : step (state2 count_tokens) sentence3 = state3 count_tokens.
Proof.
  subst step. unfold sentence_step.
  rewrite (gtb_false _ _ fits3). cbn [current_chunk current_tokens state2].
  rewrite (gtb_true (0 + count_tokens sentence1 + count_tokens sentence2
                     + count_tokens sentence3) max_tokens) by lia.
  cbn [andb]. reflexivity.
Qed.

Lemma overlap_of_first_chunk : forall current_text,
  _get_overlap_text count_tokens re_split overlap_tokens [first_chunk count_tokens]
    current_text
  = sentences12.
Proof.
  intro current_text. unfold _get_overlap_text. cbn [rev app text first_chunk].
  change (_split_into_sentences re_split) with split. rewrite sentences_of_first_chunk.
  cbn [List.length Nat.leb last_n skipn Nat.sub].
  change (join " " [sentence1; sentence2]) with sentences12.
  rewrite (gtb_false _ _ fits_overlap). reflexivity.
Qed.

(** C6 against the code.  The document is split into three sentences, none
    over the budget; the third does not fit with the first two and opens a
    second chunk.  When that chunk is closed the overlap taken from the first
    chunk is put in front of its text, after the budget was checked, and the
    token count that is recorded is the count of the whole text: the second
    chunk is the entire document, which is over the budget, and no sentence
    went through the word-by-word fallback. *)
Theorem overlap_exceeds_budget :
  exists first last,
    chunk_document count_tokens re_split max_tokens_per_chunk overlap_tokens
      three_sentences (Some max_tokens) = [first; last] /\
    text last = three_sentences /\
    has_overlap last = Some true /\
    token_count last = count_tokens three_sentences /\
    token_count last > max_tokens.
Proof.
  eexists. eexists.
  unfold chunk_document.
  change (_split_into_sentences re_split) with split. rewrite sentences_of_document.
  cbn [fold_left].
  change (sentence_step count_tokens re_split overlap_tokens max_tokens) with step.
  rewrite step1, step2, step3.
  cbn [current_chunk chunks state3 app].
  unfold overlapped_chunk. cbn [chunks current_chunk state3].
  rewrite overlap_of_first_chunk.
  change (negb (sentences12 =? "")%string) with true. cbn match.
  change (sentences12 ++ " " ++ join " " [sentence3]) with three_sentences.
  split; [reflexivity|]. cbn [text has_overlap token_count].
  repeat split. exact document_over.
Qed.

End OverBudget.

Lemma overlap_exceeds_budget_witness :
  exists first last,
    DocumentProcessor.chunk_document word_count sentence_split 6 5000
      three_sentences (Some 6) = [first; last] /\
    DocumentProcessor.text last = three_sentences /\
    DocumentProcessor.has_overlap last = Some true /\
    DocumentProcessor.token_count last = word_count three_sentences /\
    DocumentProcessor.token_count last > 6.
Proof.
  apply (overlap_exceeds_budget word_count sentence_split 6 5000 6);
    vm_compute; try reflexivity; intro H; discriminate H.
Defined.

(** ** The leaves of a schema, entry by entry *)

Lemma leaf_segs_unfold : forall s,
  leaf_segs s = match properties s with
                | Some props => flat_map entry_segs props
                | None => []
                end.
Proof. intros [a e r [ps|] it]; reflexivity. Qed.

Lemma entry_segs_cons : forall kv segs,
  In segs (entry_segs kv) ->
  exists rest, segs = fst kv :: rest /\
    ((properties (snd kv) = None /\ rest = []) \/
     (properties (snd kv) <> None /\ In rest (leaf_segs (snd kv)))).
Proof.
  intros [k v] segs H. unfold entry_segs in H. simpl in *.
  destruct (properties v) eqn:E.
  - apply in_map_iff in H. destruct H as [rest [<- Hr]].
    exists rest. split; [reflexivity|]. right. split; [discriminate|exact Hr].
  - destruct H as [<-|[]]. exists []. split; [reflexivity|]. left. split; reflexivity.
Qed.

Lemma unique_entry : forall (A : Type) (k : string) (v v' : A) (d : dict A),
  NoDup (dict_keys d) -> In (k, v) d -> In (k, v') d -> v = v'.
Proof.
  intros A k v v' d Hn H1 H2.
  apply (dict_get_unique _ _ _ Hn) in H1. apply (dict_get_unique _ _ _ Hn) in H2.
  congruence.
Qed.

Lemma well_formed_props : forall s props,
  well_formed s = true -> properties s = Some props ->
  NoDup (dict_keys props) /\ forall kv, In kv props -> well_formed (snd kv) = true.
Proof.
  intros [a e r ps it] props H E. simpl in E. subst ps. simpl in H.
  apply andb_true_iff in H. destruct H as [Hu Hw]. split.
  - apply unique_nodup, Hu.
  - rewrite forallb_forall in Hw. exact Hw.
Qed.

Lemma plain_names_props : forall s props,
  plain_names s = true -> properties s = Some props ->
  forall kv, In kv props -> plain (fst kv) = true /\ plain_names (snd kv) = true.
Proof.
  intros [a e r ps it] props H E kv Hin. simpl in E. subst ps. simpl in H.
  rewrite forallb_forall in H. apply andb_true_iff. apply H, Hin.
Qed.

Lemma is_prefix_cons : forall k p k' q,
  is_prefix (k :: p) (k' :: q) <-> k = k' /\ is_prefix p q.
Proof.
  intros k p k' q. unfold is_prefix. split.
  - intros [r E]. simpl in E. injection E as -> ->. split; [reflexivity|]. exists r. reflexivity.
  - intros [-> [r ->]]. exists r. reflexivity.
Qed.

(** No leaf lies on the way to another one. *)
Lemma leaf_segs_prefix_free : forall s, well_formed s = true ->
  forall p q, In p (leaf_segs s) -> In q (leaf_segs s) -> is_prefix p q -> p = q.
Proof.
  induction s as [a e r props it IHp _] using schema_induction.
  intros Hw p q Hp Hq Hpre. rewrite leaf_segs_unfold in Hp, Hq.
  destruct props as [ps|]; simpl in Hp, Hq; [|contradiction].
  destruct (well_formed_props _ ps Hw eq_refl) as [Hn Hws].
  specialize (IHp ps eq_refl). rewrite Forall_forall in IHp.
  apply in_flat_map in Hp. destruct Hp as [[k v] [Hin Hp]].
  apply in_flat_map in Hq. destruct Hq as [[k' v'] [Hin' Hq]].
  apply entry_segs_cons in Hp. destruct Hp as [rest [-> Hp]].
  apply entry_segs_cons in Hq. destruct Hq as [rest' [-> Hq]].
  simpl in *. apply is_prefix_cons in Hpre. destruct Hpre as [<- Hpre].
  assert (v' = v) by (eapply unique_entry; eassumption). subst v'.
  destruct Hp as [[Ev ->]|[Ev Hr]]; destruct Hq as [[Ev' ->]|[Ev' Hr']];
    try contradiction; try reflexivity.
  f_equal. apply (IHp (k, v) Hin (Hws (k, v) Hin)); assumption.
Qed.

(** [_get_field_schema] finds the leaf that the segments lead to. *)
Lemma get_field_schema_leaf : forall s, well_formed s = true ->
  forall segs, In segs (leaf_segs s) ->
  properties (SchemaAnalyzer._get_field_schema s segs) = None.
Proof.
  induction s as [a e r props it IHp _] using schema_induction.
  intros Hw segs Hs. rewrite leaf_segs_unfold in Hs.
  destruct props as [ps|]; simpl in Hs; [|contradiction].
  destruct (well_formed_props _ ps Hw eq_refl) as [Hn Hws].
  specialize (IHp ps eq_refl). rewrite Forall_forall in IHp.
  apply in_flat_map in Hs. destruct Hs as [[k v] [Hin Hs]].
  apply entry_segs_cons in Hs. destruct Hs as [rest [-> Hs]].
  simpl. rewrite (dict_get_unique _ _ _ Hn Hin).
  destruct Hs as [[Ev ->]|[Ev Hr]]; simpl in *.
  - exact Ev.
  - apply (IHp (k, v) Hin (Hws (k, v) Hin)), Hr.
Qed.

(** ** Adding a field to a chunk *)

Lemma tidy_props : forall c ps, properties c = Some ps ->
  (tidy c <-> NoDup (dict_keys ps) /\ forall kv, In kv ps -> entry_ok kv).
Proof.
  intros [a e r props it] ps E. simpl in E. subst props. unfold tidy. simpl.
  rewrite andb_true_iff, unique_nodup, !forallb_forall. split.
  - intros [[Hn Hw] [Hp Hs]]. split; [exact Hn|]. intros kv Hin.
    specialize (Hw kv Hin). specialize (Hp kv Hin). specialize (Hs kv Hin).
    apply andb_true_iff in Hp. destruct Hp as [Hp1 Hp2].
    unfold entry_ok, tidy. destruct (properties (snd kv)) eqn:Ek.
    + apply andb_true_iff in Hs. destruct Hs as [Hs1 Hs2].
      repeat split; try assumption. intros _ El. rewrite El in Hs1. discriminate.
    + repeat split; try assumption.
      * destruct (snd kv) as [a' e' r' p' i']. simpl in Ek. subst p'. reflexivity.
      * intro N. congruence.
  - intros [Hn H]. repeat split; try assumption.
    + intros kv Hin. apply (H kv Hin).
    + intros kv Hin. destruct (H kv Hin) as [H1 [[_ [H2 _]] _]].
      rewrite H1, H2. reflexivity.
    + intros kv Hin. destruct (H kv Hin) as [_ [[_ [_ H3]] H4]].
      destruct (properties (snd kv)) eqn:Ek; [|reflexivity].
      rewrite H3, andb_true_r. destruct (leaf_segs (snd kv)); [|reflexivity].
      exfalso. apply H4; [discriminate|reflexivity].
Qed.

Lemma tidy_leaf : forall leaf, properties leaf = None -> tidy leaf.
Proof.
  intros [a e r p i] E. simpl in E. subst p. repeat split.
Qed.

Lemma dict_set_fresh : forall (A : Type) (k : string) (v : A) (d : dict A),
  ~ In k (dict_keys d) -> dict_set k v d = (d ++ [(k, v)])%list.
Proof.
  intros A k v d. induction d as [|[k' v'] d IH]; simpl; intro H; [reflexivity|].
  destruct (String.eqb_spec k k') as [->|N].
  - exfalso. apply H. left. reflexivity.
  - f_equal. apply IH. intro I. apply H. right. exact I.
Qed.

Lemma dict_set_last : forall (A : Type) (k : string) (v v' : A) (d : dict A),
  ~ In k (dict_keys d) ->
  dict_set k v' (d ++ [(k, v)])%list = (d ++ [(k, v')])%list.
Proof.
  intros A k v v' d. induction d as [|[k0 v0] d IH]; simpl; intro H.
  - rewrite String.eqb_refl. reflexivity.
  - destruct (String.eqb_spec k k0) as [->|N].
    + exfalso. apply H. left. reflexivity.
    + f_equal. apply IH. intro I. apply H. right. exact I.
Qed.

Lemma dict_get_last : forall (A : Type) (k : string) (v : A) (d : dict A),
  ~ In k (dict_keys d) -> dict_get k (d ++ [(k, v)])%list = Some v.
Proof.
  intros A k v d. induction d as [|[k0 v0] d IH]; simpl; intro H.
  - rewrite String.eqb_refl. reflexivity.
  - destruct (String.eqb_spec k k0) as [->|N].
    + exfalso. apply H. left. reflexivity.
    + apply IH. intro I. apply H. right. exact I.
Qed.

Lemma dict_set_replace : forall (A : Type) (k : string) (v0 v : A) (d : dict A),
  dict_get k d = Some v0 ->
  exists l1 l2, d = (l1 ++ (k, v0) :: l2)%list /\
                dict_set k v d = (l1 ++ (k, v) :: l2)%list.
Proof.
  intros A k v0 v d. induction d as [|[k' v'] d IH]; simpl; intro H; [discriminate|].
  destruct (String.eqb_spec k k') as [->|N].
  - injection H as ->. exists [], d. split; reflexivity.
  - destruct (IH H) as [l1 [l2 [E1 E2]]].
    exists ((k', v') :: l1), l2. simpl. rewrite <- E1, E2. split; reflexivity.
Qed.

Lemma dict_has_in : forall (A : Type) (k : string) (d : dict A),
  dict_has k d = true <-> In k (dict_keys d).
Proof.
  intros A k d. unfold dict_has. destruct (dict_get k d) eqn:E.
  - split; [|reflexivity]. intros _. apply dict_get_in in E.
    change k with (fst (k, a)). apply in_map, E.
  - split; [discriminate|]. intro H. apply dict_get_none in E. contradiction.
Qed.

Lemma is_prefix_nil : forall q, is_prefix [] q.
Proof. intro q. exists q. reflexivity. Qed.

Lemma is_prefix_refl : forall q, is_prefix q q.
Proof. intro q. exists []. rewrite app_nil_r. reflexivity. Qed.

Lemma apart_entry : forall part rest ps v,
  In (part, v) ps -> properties v <> None ->
  apart (part :: rest) (flat_map entry_segs ps) -> apart rest (leaf_segs v).
Proof.
  intros part rest ps v Hin Hv H q Hq.
  assert (I : In (part :: q) (flat_map entry_segs ps)).
  { apply in_flat_map. exists (part, v). split; [exact Hin|].
    unfold entry_segs. simpl. destruct (properties v); [|congruence].
    apply in_map, Hq. }
  destruct (H _ I) as [H1 H2]. split; intro P.
  - apply H1. apply is_prefix_cons. split; [reflexivity|exact P].
  - apply H2. apply is_prefix_cons. split; [reflexivity|exact P].
Qed.

Lemma add_field_single : forall c last leaf,
  SchemaAnalyzer._add_field_to_chunk c [last] leaf =
  SchemaAnalyzer.with_properties c
    (dict_set last leaf (SchemaAnalyzer.properties_or_empty c)).
Proof. reflexivity. Qed.

Lemma add_field_deeper : forall c part r rest leaf,
  SchemaAnalyzer._add_field_to_chunk c (part :: r :: rest) leaf =
  let props := SchemaAnalyzer.properties_or_empty c in
  let props := if negb (dict_has part props) then dict_set part empty_object props else props in
  match dict_get part props with
  | Some child =>
      SchemaAnalyzer.with_properties c
        (dict_set part (SchemaAnalyzer._add_field_to_chunk child (r :: rest) leaf) props)
  | None => SchemaAnalyzer.with_properties c props
  end.
Proof. reflexivity. Qed.

Lemma with_properties_segs : forall c ps,
  leaf_segs (SchemaAnalyzer.with_properties c ps) = flat_map entry_segs ps.
Proof. intros c ps. rewrite leaf_segs_unfold. reflexivity. Qed.

Lemma entry_segs_object : forall k v, properties v <> None ->
  entry_segs (k, v) = map (cons k) (leaf_segs v).
Proof.
  intros k v H. unfold entry_segs. simpl. destruct (properties v); [reflexivity|congruence].
Qed.

Lemma entry_segs_leaf : forall k v, properties v = None -> entry_segs (k, v) = [[k]].
Proof. intros k v H. unfold entry_segs. simpl. rewrite H. reflexivity. Qed.

Lemma tidy_with_properties : forall c ps,
  NoDup (dict_keys ps) -> (forall kv, In kv ps -> entry_ok kv) ->
  tidy (SchemaAnalyzer.with_properties c ps).
Proof.
  intros c ps Hn Hok. apply (tidy_props (SchemaAnalyzer.with_properties c ps) ps eq_refl).
  split; assumption.
Qed.

(** Adding a field that is apart from the fields of a tidy chunk adds it,
    and nothing else, to the fields of the chunk, which stays tidy. *)
Lemma add_field_leaf : forall segs c leaf,
  segs <> [] -> Forall (fun k => plain k = true) segs ->
  properties leaf = None ->
  tidy c -> properties c <> None -> apart segs (leaf_segs c) ->
  let c' := SchemaAnalyzer._add_field_to_chunk c segs leaf in
  tidy c' /\ properties c' <> None /\
  Permutation (leaf_segs c') (segs :: leaf_segs c).
Proof.
  induction segs as [|part rest IH]; intros c leaf Hne Hpl Hleaf Ht Hobj Hap; [congruence|].
  destruct (properties c) as [ps|] eqn:Ec; [|congruence].
  rewrite leaf_segs_unfold, Ec in Hap.
  pose proof (proj1 (tidy_props c ps Ec) Ht) as [Hn Hok].
  inversion Hpl as [|? ? Hpart Hrest]; subst.
  destruct rest as [|r rest'].
  - (* the field itself *)
    cbv zeta. rewrite add_field_single. unfold SchemaAnalyzer.properties_or_empty. rewrite Ec.
    assert (Hfresh : ~ In part (dict_keys ps)).
    { intro I. apply in_map_iff in I. destruct I as [[k v] [Ek Hin]]. simpl in Ek. subst k.
      destruct (properties v) eqn:Ev.
      - destruct (Hok _ Hin) as [_ [_ Hl]]. simpl in Hl.
        destruct (leaf_segs v) as [|q qs] eqn:El; [apply Hl; [congruence|reflexivity]|].
        assert (I : In (part :: q) (flat_map entry_segs ps)).
        { apply in_flat_map. exists (part, v). split; [exact Hin|].
          unfold entry_segs. simpl. rewrite Ev, El. left. reflexivity. }
        apply (proj2 (Hap _ I)). exists q. reflexivity.
      - assert (I : In [part] (flat_map entry_segs ps)).
        { apply in_flat_map. exists (part, v). split; [exact Hin|].
          unfold entry_segs. simpl. rewrite Ev. left. reflexivity. }
        apply (proj1 (Hap _ I)). apply is_prefix_refl. }
    rewrite (dict_set_fresh _ _ _ _ Hfresh).
    split; [|split].
    + apply tidy_with_properties.
      * unfold dict_keys. rewrite map_app. simpl.
        apply NoDup_app; [exact Hn|constructor; [intros []|constructor]|].
        intros x Hx [<-|[]]. contradiction.
      * intros kv Hin. apply in_app_iff in Hin. destruct Hin as [Hin|[<-|[]]]; [auto|].
        split; [exact Hpart|]. split; [apply tidy_leaf, Hleaf|]. simpl. congruence.
    + discriminate.
    + rewrite with_properties_segs, leaf_segs_unfold, Ec, flat_map_app.
      cbn [flat_map].
      rewrite (entry_segs_leaf part leaf Hleaf), app_nil_r.
      apply Permutation_sym, Permutation_cons_append.
  - (* a field further down *)
    cbv zeta. rewrite add_field_deeper. cbv zeta.
    unfold SchemaAnalyzer.properties_or_empty. rewrite Ec.
    destruct (dict_has part ps) eqn:Eh; cbn [negb].
    + (* the name is there: it is an object, and the field goes into it *)
      unfold dict_has in Eh. destruct (dict_get part ps) as [v|] eqn:Eg; [|discriminate].
      pose proof (dict_get_in _ _ _ Eg) as Hin.
      assert (Hv : properties v <> None).
      { intro Ev.
        assert (I : In [part] (flat_map entry_segs ps)).
        { apply in_flat_map. exists (part, v). split; [exact Hin|].
          unfold entry_segs. simpl. rewrite Ev. left. reflexivity. }
        apply (proj1 (Hap _ I)). exists (r :: rest'). reflexivity. }
      destruct (Hok _ Hin) as [_ [Htv Hlv]]. simpl in Htv, Hlv.
      destruct (IH v leaf ltac:(discriminate) Hrest Hleaf Htv Hv
                  (apart_entry _ _ _ _ Hin Hv Hap)) as [Ht' [Hobj' Hperm]].
      set (v' := SchemaAnalyzer._add_field_to_chunk v (r :: rest') leaf) in *.
      destruct (dict_set_replace _ part v v' ps Eg) as [l1 [l2 [E1 E2]]].
      rewrite E2. split; [|split].
      * apply tidy_with_properties.
        -- replace (dict_keys (l1 ++ (part, v') :: l2)%list) with (dict_keys ps); [exact Hn|].
           rewrite E1. unfold dict_keys. rewrite !map_app. reflexivity.
        -- intros kv Hkv. apply in_app_iff in Hkv. destruct Hkv as [Hkv|[<-|Hkv]].
           ++ apply Hok. rewrite E1. apply in_app_iff. left. exact Hkv.
           ++ split; [exact Hpart|]. split; [exact Ht'|]. simpl. intros _ El.
              rewrite El in Hperm. apply Permutation_nil in Hperm. discriminate.
           ++ apply Hok. rewrite E1. apply in_app_iff. right. right. exact Hkv.
      * discriminate.
      * rewrite with_properties_segs, leaf_segs_unfold, Ec, E1, !flat_map_app.
        cbn [flat_map].
        rewrite (entry_segs_object part v Hv), (entry_segs_object part v' Hobj').
        apply Permutation_sym.
        eapply Permutation_trans; [apply Permutation_middle|].
        apply Permutation_app_head.
        change ((part :: r :: rest') :: map (cons part) (leaf_segs v) ++ flat_map entry_segs l2)%list
          with (map (cons part) ((r :: rest') :: leaf_segs v) ++ flat_map entry_segs l2)%list.
        apply Permutation_app_tail, Permutation_map, Permutation_sym, Hperm.
    + (* the name is new: an empty object is put there first *)
      assert (Hfresh : ~ In part (dict_keys ps)).
      { intro I. apply dict_has_in in I. congruence. }
      rewrite (dict_set_fresh _ _ _ _ Hfresh), (dict_get_last _ _ _ _ Hfresh).
      destruct (IH empty_object leaf ltac:(discriminate) Hrest Hleaf
                  ltac:(repeat split) ltac:(discriminate) ltac:(intros q []))
        as [Ht' [Hobj' Hperm]].
      set (v' := SchemaAnalyzer._add_field_to_chunk empty_object (r :: rest') leaf) in *.
      rewrite (dict_set_last _ _ _ _ _ Hfresh). split; [|split].
      * apply tidy_with_properties.
        -- unfold dict_keys. rewrite map_app. simpl.
           apply NoDup_app; [exact Hn|constructor; [intros []|constructor]|].
           intros x Hx [<-|[]]. contradiction.
        -- intros kv Hkv. apply in_app_iff in Hkv. destruct Hkv as [Hkv|[<-|[]]]; [auto|].
           split; [exact Hpart|]. split; [exact Ht'|]. simpl. intros _ El.
           rewrite El in Hperm. apply Permutation_nil in Hperm. discriminate.
      * discriminate.
      * rewrite with_properties_segs, leaf_segs_unfold, Ec, flat_map_app.
        cbn [flat_map].
        rewrite (entry_segs_object part v' Hobj'), app_nil_r.
        apply Permutation_sym.
        eapply Permutation_trans; [apply Permutation_cons_append|].
        apply Permutation_app_head.
        change [part :: r :: rest'] with (map (cons part) [r :: rest']).
        apply Permutation_map, Permutation_sym, Hperm.
Qed.

(** ** C4: the chunks of a schema *)

Lemma Permutation_flat_map : forall (A B : Type) (f g : A -> list B) (l : list A),
  (forall x, In x l -> Permutation (f x) (g x)) ->
  Permutation (flat_map f l) (flat_map g l).
Proof.
  intros A B f g l. induction l as [|x l IH]; intro H; simpl; [constructor|].
  apply Permutation_app; [apply H; left; reflexivity|].
  apply IH. intros y Hy. apply H. right. exact Hy.
Qed.

Lemma map_flat_map : forall (A B C : Type) (h : B -> C) (f : A -> list B) (l : list A),
  map h (flat_map f l) = flat_map (fun x => map h (f x)) l.
Proof.
  intros A B C h f l. induction l as [|x l IH]; simpl; [reflexivity|].
  rewrite map_app, IH. reflexivity.
Qed.

Section SchemaChunks.

Variable estimate_schema_tokens : schema -> Z.
Variable max_tokens_per_chunk : Z.
Variable estimate_field_tokens : string -> schema -> Z.

Variable s : schema.
Variable dependencies : dict SchemaAnalyzer.dependency.
Variable max_tokens : Z.

Hypothesis s_well_formed : well_formed s = true.

Let step := SchemaAnalyzer.field_step estimate_field_tokens s dependencies max_tokens.

Lemma apart_incl : forall segs L L', incl L' L -> apart segs L -> apart segs L'.
Proof. intros segs L L' Hi Ha q Hq. apply Ha, Hi, Hq. Qed.

Lemma empty_chunk_tidy : tidy empty_chunk.
Proof. repeat split. Qed.

Lemma field_step_ok : forall st done path,
  chunks_ok st done ->
  split_dot path <> [] -> Forall (fun k => plain k = true) (split_dot path) ->
  properties (SchemaAnalyzer._get_field_schema s (split_dot path)) = None ->
  apart (split_dot path) done ->
  chunks_ok (step st path) (split_dot path :: done).
Proof.
  intros st done path [Hf Hc Ho Hcl] Hne Hpl Hleaf Hap.
  subst step. unfold SchemaAnalyzer.field_step. cbv zeta.
  set (segs := split_dot path) in *.
  set (leaf := SchemaAnalyzer._get_field_schema s segs) in *.
  destruct ((_ >? max_tokens) && SchemaAnalyzer.has_fields (SchemaAnalyzer.current_chunk st))%bool.
  - (* the current chunk is closed and the field opens a new one *)
    cbn [SchemaAnalyzer.chunks SchemaAnalyzer.current_chunk SchemaAnalyzer.current_tokens
         SchemaAnalyzer.next_chunk_id].
    destruct (add_field_leaf segs empty_chunk leaf Hne Hpl Hleaf empty_chunk_tidy
                ltac:(discriminate) ltac:(intros q []))
      as [Ht' [Ho' Hp']].
    split; cbn [SchemaAnalyzer.chunks SchemaAnalyzer.current_chunk].
    + rewrite flat_map_app. cbn [flat_map]. rewrite app_nil_r.
      unfold chunk_segs at 2. cbn [SchemaAnalyzer.close_chunk SchemaAnalyzer.chunk_schema_of].
      eapply Permutation_trans; [apply Permutation_app_head, Hp'|].
      change (leaf_segs empty_chunk) with (@nil (list string)).
      eapply Permutation_trans; [apply Permutation_sym, Permutation_cons_append|].
      constructor. exact Hf.
    + exact Ht'.
    + exact Ho'.
    + apply Forall_app. split; [exact Hcl|]. constructor; [exact Hc|constructor].
  - (* the field goes into the current chunk *)
    assert (Hap' : apart segs (leaf_segs (SchemaAnalyzer.current_chunk st))).
    { eapply apart_incl; [|exact Hap]. intros q Hq.
      eapply Permutation_in; [exact Hf|]. apply in_app_iff. right. exact Hq. }
    destruct (add_field_leaf segs (SchemaAnalyzer.current_chunk st) leaf Hne Hpl Hleaf
                Hc Ho Hap') as [Ht' [Ho' Hp']].
    split; cbn [SchemaAnalyzer.chunks SchemaAnalyzer.current_chunk].
    + eapply Permutation_trans; [apply Permutation_app_head, Hp'|].
      eapply Permutation_trans; [apply Permutation_sym, Permutation_middle|].
      constructor. exact Hf.
    + exact Ht'.
    + exact Ho'.
    + exact Hcl.
Qed.

Lemma field_loop_ok : forall todo st done,
  chunks_ok st done -> admissible s todo done ->
  chunks_ok (fold_left step todo st) (rev (map split_dot todo) ++ done)%list.
Proof.
  induction todo as [|path todo IH]; intros st done Hok Had; simpl.
  - exact Hok.
  - destruct Had as [Hne [Hpl [Hleaf [Hap Had]]]].
    rewrite <- app_assoc. simpl.
    apply IH; [|exact Had].
    apply field_step_ok; assumption.
Qed.

Lemma admissible_leaves : forall todo done,
  (forall path, In path todo -> In (split_dot path) (leaf_segs s)) ->
  plain_names s = true ->
  NoDup (map split_dot todo) ->
  incl done (leaf_segs s) ->
  (forall path, In path todo -> ~ In (split_dot path) done) ->
  admissible s todo done.
Proof.
  induction todo as [|path todo IH]; intros done Hin Hpn Hn Hd Hfresh; simpl; [exact I|].
  assert (Hs : In (split_dot path) (leaf_segs s)) by (apply Hin; left; reflexivity).
  pose proof (leaf_segs_plain s Hpn) as F. rewrite Forall_forall in F.
  destruct (F _ Hs) as [Hne Hpl].
  inversion Hn as [|? ? Hnot Hn']; subst.
  split; [exact Hne|]. split; [exact Hpl|].
  split; [apply get_field_schema_leaf; assumption|]. split.
  - intros q Hq. split; intro P.
    + assert (q = split_dot path)
        by (apply (leaf_segs_prefix_free s s_well_formed); auto).
      subst q. apply (Hfresh path); [left; reflexivity|exact Hq].
    + assert (split_dot path = q)
        by (apply (leaf_segs_prefix_free s s_well_formed); auto).
      subst q. apply (Hfresh path); [left; reflexivity|exact Hq].
  - apply IH.
    + intros p Hp. apply Hin. right. exact Hp.
    + exact Hpn.
    + exact Hn'.
    + intros q [<-|Hq]; [exact Hs|apply Hd, Hq].
    + intros p Hp [E|Hq].
      * apply Hnot. rewrite E. apply in_map, Hp.
      * apply (Hfresh p); [right; exact Hp|exact Hq].
Qed.

End SchemaChunks.

Lemma with_total_paths : forall total chunks,
  flat_map chunk_paths (map (SchemaAnalyzer.with_total total) chunks) =
  flat_map chunk_paths chunks.
Proof.
  intros total chunks. induction chunks as [|c chunks IH]; simpl; [reflexivity|].
  rewrite IH. reflexivity.
Qed.

(** The ordered fields, split at the dots, are the leaves of the schema. *)
Lemma ordered_fields_leaves : forall s ordered,
  well_formed s = true -> plain_names s = true ->
  Permutation ordered (dict_keys (Utils.flatten_schema s "")) ->
  (forall path, In path ordered ->
     In (split_dot path) (leaf_segs s) /\ path_of "" (split_dot path) = path) /\
  NoDup (map split_dot ordered).
Proof.
  intros s ordered Hw Hp Hperm.
  pose proof (leaf_segs_plain s Hp) as F. rewrite Forall_forall in F.
  assert (P : Permutation ordered (map (path_of "") (leaf_segs s))).
  { eapply Permutation_trans; [exact Hperm|]. apply flatten_keys_permutation; assumption. }
  assert (E : map split_dot (map (path_of "") (leaf_segs s)) = leaf_segs s).
  { rewrite map_map. rewrite <- (map_id (leaf_segs s)) at 2.
    apply map_ext_in. intros segs Hs. destruct (F segs Hs). apply split_path; assumption. }
  split.
  - intros path Hin. apply (Permutation_in _ P) in Hin.
    apply in_map_iff in Hin. destruct Hin as [segs [<- Hs]].
    destruct (F segs Hs) as [Hne Hpl]. rewrite (split_path segs Hne Hpl).
    split; [exact Hs|reflexivity].
  - eapply Permutation_NoDup.
    + apply Permutation_sym, Permutation_map, P.
    + rewrite E. apply leaf_segs_nodup, Hw.
Qed.

Lemma tidy_chunk_paths : forall c, tidy (SchemaAnalyzer.chunk_schema_of c) ->
  Permutation (chunk_paths c) (map (path_of "") (chunk_segs c)).
Proof.
  intros c [Hw [Hp _]]. apply flatten_keys_permutation; assumption.
Qed.

(** The chunks that [_create_dependency_chunks] builds hold every field of
    the schema, each in one chunk. *)
Lemma create_chunks_partition :
  forall (estimate_field_tokens : string -> schema -> Z) (s : schema)
         (dependencies : dict SchemaAnalyzer.dependency) (max_tokens : Z),
  well_formed s = true -> plain_names s = true ->
  exists chunks,
    SchemaAnalyzer._create_dependency_chunks estimate_field_tokens s dependencies max_tokens
      = Some chunks /\
    Permutation (flat_map chunk_paths chunks) (dict_keys (Utils.flatten_schema s "")).
Proof.
  intros est s deps max_tokens Hw Hp.
  destruct (extraction_order_permutation s) as [ordered [E P]].
  destruct (ordered_fields_leaves s ordered Hw Hp P) as [F1 F2].
  unfold SchemaAnalyzer._create_dependency_chunks. rewrite E. cbv zeta.
  eexists. split; [reflexivity|]. rewrite with_total_paths.
  set (st0 := {| SchemaAnalyzer.chunks := []; SchemaAnalyzer.current_chunk := empty_chunk;
                 SchemaAnalyzer.current_tokens := 0; SchemaAnalyzer.next_chunk_id := 0 |}).
  assert (H0 : chunks_ok st0 []).
  { split; simpl; [constructor|apply empty_chunk_tidy|discriminate|constructor]. }
  assert (Had : admissible s ordered []).
  { apply admissible_leaves; try assumption.
    - intros path Hin. apply F1, Hin.
    - intros q [].
    - intros path _ []. }
  pose proof (field_loop_ok est s deps max_tokens ordered st0 [] H0 Had) as [Hf Hc Ho Hcl].
  rewrite app_nil_r in Hf.
  set (st := fold_left (SchemaAnalyzer.field_step est s deps max_tokens) ordered st0) in *.
  set (final := if SchemaAnalyzer.has_fields (SchemaAnalyzer.current_chunk st)
                then (SchemaAnalyzer.chunks st ++ [SchemaAnalyzer.close_chunk deps st])%list
                else SchemaAnalyzer.chunks st).
  assert (Hfinal : Permutation (flat_map chunk_segs final) (rev (map split_dot ordered))
                   /\ Forall (fun c => tidy (SchemaAnalyzer.chunk_schema_of c)) final).
  { subst final. unfold SchemaAnalyzer.has_fields.
    destruct (properties (SchemaAnalyzer.current_chunk st)) as [[|kv ps]|] eqn:Ec;
      [|
       |congruence].
    - split; [|exact Hcl]. rewrite leaf_segs_unfold, Ec in Hf. simpl in Hf.
      rewrite app_nil_r in Hf. exact Hf.
    - split.
      + rewrite flat_map_app. cbn [flat_map]. rewrite app_nil_r. exact Hf.
      + apply Forall_app. split; [exact Hcl|]. constructor; [exact Hc|constructor]. }
  destruct Hfinal as [Hsegs Htidy]. rewrite Forall_forall in Htidy.
  eapply Permutation_trans;
    [apply Permutation_flat_map; intros c Hin; apply tidy_chunk_paths, Htidy, Hin|].
  rewrite <- map_flat_map.
  eapply Permutation_trans; [apply Permutation_map, Hsegs|].
  eapply Permutation_trans; [apply Permutation_map, Permutation_sym, Permutation_rev|].
  rewrite map_map.
  replace (map (fun x => path_of "" (split_dot x)) ordered) with ordered; [exact P|].
  rewrite <- (map_id ordered) at 1. apply map_ext_in. intros path Hin.
  symmetry. apply F1, Hin.
Qed.

(** C4, as stated, fails: a property name that begins with a dot is split
    into an empty segment and a name, the chunk is built with an empty-named
    object around the field, and flattening the chunk drops the empty
    segment: the chunk holds the path [b], the schema the path [.b]. *)
Lemma chunk_paths_leading_dot :
  well_formed leading_dot_schema = true /\
  dict_keys (Utils.flatten_schema leading_dot_schema "") = [".b"] /\
  exists c,
    SchemaAnalyzer.chunk_schema (fun _ => 1) 0 (fun _ _ => 1) leading_dot_schema None
      = Some [c] /\
    chunk_paths c = ["b"].
Proof.
  split; [reflexivity|]. split; [reflexivity|].
  eexists. split; reflexivity.
Qed.

(** C4, amended.  For every schema whose property names are non-empty and
    hold no dot, the chunks that [chunk_schema] returns partition the fields
    of the flattened schema: the paths of the flattened sub-schemas, taken
    together, are the paths of the flattened schema, each in exactly one
    chunk.  When the estimated tokens of the whole schema fit the budget, the
    result is the single chunk of the schema itself, with priority [high] and
    no dependency. *)
Theorem schema_chunks_partition :
  forall (estimate_schema_tokens : schema -> Z) (max_tokens_per_chunk : Z)
         (estimate_field_tokens : string -> schema -> Z)
         (s : schema) (max_tokens : option Z),
  well_formed s = true -> plain_names s = true ->
  exists chunks,
    SchemaAnalyzer.chunk_schema estimate_schema_tokens max_tokens_per_chunk
      estimate_field_tokens s max_tokens = Some chunks /\
    Permutation (flat_map chunk_paths chunks) (dict_keys (Utils.flatten_schema s "")) /\
    NoDup (flat_map chunk_paths chunks) /\
    (estimate_schema_tokens s <=
       match max_tokens with Some m => m | None => max_tokens_per_chunk end ->
     chunks = [{| SchemaAnalyzer.chunk_schema_of := s;
                  SchemaAnalyzer.chunk_id := 0;
                  SchemaAnalyzer.total_chunks := 1;
                  SchemaAnalyzer.dependencies_of := [];
                  SchemaAnalyzer.priority_of := SchemaAnalyzer.high |}]).
Proof.
  intros est budget est_field s max_tokens Hw Hp.
  unfold SchemaAnalyzer.chunk_schema.
  set (m := match max_tokens with Some m => m | None => budget end).
  destruct (est s <=? m) eqn:E.
  - eexists. split; [reflexivity|].
    assert (P : Permutation
                  (flat_map chunk_paths
                     [{| SchemaAnalyzer.chunk_schema_of := s;
                         SchemaAnalyzer.chunk_id := 0;
                         SchemaAnalyzer.total_chunks := 1;
                         SchemaAnalyzer.dependencies_of := [];
                         SchemaAnalyzer.priority_of := SchemaAnalyzer.high |}])
                  (dict_keys (Utils.flatten_schema s ""))).
    { simpl. rewrite app_nil_r. apply Permutation_refl. }
    split; [exact P|]. split; [|reflexivity].
    eapply Permutation_NoDup; [apply Permutation_sym, P|apply flatten_keys_nodup].
  - destruct (create_chunks_partition est_field s (SchemaAnalyzer.build_dependency_graph s)
                m Hw Hp) as [chunks [Ec P]].
    exists chunks. split; [exact Ec|]. split; [exact P|]. split.
    + eapply Permutation_NoDup; [apply Permutation_sym, P|apply flatten_keys_nodup].
    + intro H. apply Z.leb_gt in E. lia.
Qed.

Lemma schema_chunks_partition_witness :
  exists chunks,
    SchemaAnalyzer.chunk_schema (fun _ => 4) 1 (fun _ _ => 1) person_schema None
      = Some chunks /\
    Permutation (flat_map chunk_paths chunks)
      (dict_keys (Utils.flatten_schema person_schema "")) /\
    NoDup (flat_map chunk_paths chunks) /\
    (4 <= 1 ->
     chunks = [{| SchemaAnalyzer.chunk_schema_of := person_schema;
                  SchemaAnalyzer.chunk_id := 0;
                  SchemaAnalyzer.total_chunks := 1;
                  SchemaAnalyzer.dependencies_of := [];
                  SchemaAnalyzer.priority_of := SchemaAnalyzer.high |}]).
Proof.
  apply (schema_chunks_partition (fun _ => 4) 1 (fun _ _ => 1) person_schema None);
    reflexivity.
Defined.

(** The chunks of [person_schema] when no two fields fit one chunk: one
    field each. *)
Example person_schema_chunks :
  option_map (map chunk_paths)
    (SchemaAnalyzer.chunk_schema (fun _ => 4) 1 (fun _ _ => 1) person_schema None)
  = Some [["name"]; ["address.city"]; ["address.zip"]].
Proof. reflexivity. Qed.

(** * Further properties of the code *)

(** ** utils.py: nested values *)

Lemma split_dot_nonempty : forall path, split_dot path <> [].
Proof.
  induction path as [|c path IH]; simpl; [discriminate|].
  destruct (Ascii.eqb c dot); [discriminate|].
  destruct (split_dot path); discriminate.
Qed.

Lemma set_nested_get : forall keys value current current' default,
  keys <> [] ->
  Nested.set_nested keys value current = Ok current' ->
  Nested.get_nested keys (JDict current') default = value.
Proof.
  induction keys as [|key keys IH]; intros value current current' default Hne H; [congruence|].
  destruct keys as [|key2 keys].
  - simpl in H. injection H as <-. simpl.
    rewrite dict_get_set, String.eqb_refl. reflexivity.
  - remember (key2 :: keys) as keys' eqn:Ek.
    assert (Hk : keys' <> []) by (subst; discriminate).
    assert (E : Nested.set_nested (key :: keys') value current =
                let current0 :=
                  if dict_has key current then current else dict_set key (JDict []) current in
                match dict_get key current0 with
                | Some (JDict sub) =>
                    sub' <- Nested.set_nested keys' value sub ;;
                    Ok (dict_set key (JDict sub') current0)
                | _ => Raise TypeError
                end).
    { subst keys'. reflexivity. }
    rewrite E in H. clear E. cbv zeta in H.
    destruct (dict_get key (if dict_has key current then current
                            else dict_set key (JDict []) current)) as [[| | | | | |sub]|];
      try discriminate.
    destruct (Nested.set_nested keys' value sub) as [sub'|e] eqn:Es; simpl in H; [|discriminate].
    injection H as <-.
    change (Nested.get_nested (key :: keys') (JDict ?d) default)
      with (match dict_get key d with
            | Some v => Nested.get_nested keys' v default
            | None => default
            end).
    cbn [Nested.get_nested]. rewrite dict_get_set, String.eqb_refl.
    apply (IH value sub sub' default Hk Es).
Qed.

(** X1.  Writing then reading: when [set_nested_value(data, path, value)]
    returns, [get_nested_value(data, path, default)] is [value], whatever
    the path and the default. *)
Theorem set_then_get_nested_value :
  forall (data : dict json) (path : string) (value default : json) (data' : dict json),
  Nested.set_nested_value data path value = Ok data' ->
  Nested.get_nested_value (JDict data') path default = value.
Proof.
  intros data path value default data' H.
  apply (set_nested_get (split_dot path) value data data' default (split_dot_nonempty path) H).
Qed.

Lemma set_then_get_nested_value_witness :
  Nested.set_nested_value [("a", JDict [("c", JInt 0)])] "a.b" (JInt 1)
    = Ok [("a", JDict [("c", JInt 0); ("b", JInt 1)])] /\
  Nested.get_nested_value (JDict [("a", JDict [("c", JInt 0); ("b", JInt 1)])]) "a.b" JNull
    = JInt 1.
Proof.
  split; [reflexivity|].
  apply (set_then_get_nested_value [("a", JDict [("c", JInt 0)])] "a.b" (JInt 1) JNull).
  reflexivity.
Defined.

(** X2.  A path that runs through a value that is no dict cannot be set:
    when the first key of the path is bound to a scalar, a list or [None],
    [set_nested_value] raises [TypeError]. *)
Theorem set_nested_value_through_scalar :
  forall (data : dict json) (key rest : string) (v value : json),
  dot_free key = true -> dict_get key data = Some v -> is_dict v = false ->
  Nested.set_nested_value data (key ++ "." ++ rest) value = Raise TypeError.
Proof.
  intros data key rest v value Hk Hg Hv.
  unfold Nested.set_nested_value. rewrite (split_dot_app key rest Hk).
  destruct (split_dot rest) as [|r rs] eqn:E; [exfalso; exact (split_dot_nonempty rest E)|].
  cbn [Nested.set_nested]. unfold dict_has. rewrite Hg.
  cbv iota. rewrite Hg. destruct v; try reflexivity. discriminate Hv.
Qed.

Lemma set_nested_value_through_scalar_witness :
  Nested.set_nested_value [("a", JInt 1)] "a.b" (JInt 2) = Raise TypeError.
Proof.
  apply (set_nested_value_through_scalar [("a", JInt 1)] "a" "b" (JInt 1) (JInt 2));
    reflexivity.
Defined.

(** ** utils.py: deep merge *)

Lemma merge_deep_fold : forall (d1 d2 : dict json),
  Nested.merge_deep d1 (JDict d2) =
  fold_left
    (fun result kv =>
       match dict_get (fst kv) result, snd kv with
       | Some (JDict r), JDict _ =>
           dict_set (fst kv) (JDict (Nested.merge_deep r (snd kv))) result
       | _, _ => dict_set (fst kv) (snd kv) result
       end) d2 d1.
Proof. reflexivity. Qed.

Lemma merge_deep_get : forall (d2 d1 : dict json) (k : string),
  NoDup (dict_keys d2) ->
  dict_get k (Nested.merge_deep d1 (JDict d2)) =
  match dict_get k d2 with
  | None => dict_get k d1
  | Some v =>
      match dict_get k d1, v with
      | Some (JDict r), JDict _ => Some (JDict (Nested.merge_deep r v))
      | _, _ => Some v
      end
  end.
Proof.
  intros d2 d1 k. rewrite merge_deep_fold. revert d1.
  induction d2 as [|[k2 v2] d2 IH]; intros d1 Hn; [reflexivity|].
  inversion Hn as [|? ? Hk Hd]; subst.
  cbn [fold_left fst snd]. rewrite (IH _ Hd). cbn [dict_get].
  destruct (String.eqb_spec k k2) as [->|N].
  - assert (G : dict_get k2 d2 = None) by (apply dict_get_none; exact Hk).
    rewrite G.
    destruct (dict_get k2 d1) as [[| | | | | |r]|]; destruct v2;
      rewrite dict_get_set, String.eqb_refl; reflexivity.
  - assert (G : forall w, dict_get k (dict_set k2 w d1) = dict_get k d1).
    { intro w. rewrite dict_get_set. destruct (String.eqb_spec k k2); [congruence|reflexivity]. }
    destruct (dict_get k2 d1) as [[| | | | | |r]|]; destruct v2; rewrite G; reflexivity.
Qed.

Lemma merge_deep_keys : forall (d2 d1 : dict json) (k : string),
  In k (dict_keys (Nested.merge_deep d1 (JDict d2))) <->
  In k (dict_keys d1) \/ In k (dict_keys d2).
Proof.
  intros d2 d1 k. rewrite merge_deep_fold. revert d1.
  induction d2 as [|[k2 v2] d2 IH]; intro d1; [simpl; tauto|].
  cbn [fold_left fst snd]. rewrite IH.
  assert (G : forall w, In k (dict_keys (dict_set k2 w d1)) <-> k = k2 \/ In k (dict_keys d1))
    by (intro w; apply dict_set_keys_in).
  destruct (dict_get k2 d1) as [[| | | | | |r]|]; destruct v2; rewrite G; simpl;
    intuition congruence.
Qed.

(** X3.  [merge_dicts_deep(dict1, dict2)] read key by key: a key that
    [dict2] lacks keeps the value of [dict1]; a key of [dict2] takes the
    value of [dict2], except that two dicts under the same key are merged in
    turn.  Its keys are those of [dict1] and of [dict2], and no other. *)
Theorem merge_dicts_deep_lookup : forall (dict1 dict2 : dict json) (k : string),
  NoDup (dict_keys dict2) ->
  dict_get k (Nested.merge_dicts_deep dict1 dict2) =
    match dict_get k dict2 with
    | None => dict_get k dict1
    | Some (JDict e) =>
        match dict_get k dict1 with
        | Some (JDict r) => Some (JDict (Nested.merge_dicts_deep r e))
        | _ => Some (JDict e)
        end
    | Some v => Some v
    end /\
  (In k (dict_keys (Nested.merge_dicts_deep dict1 dict2)) <->
   In k (dict_keys dict1) \/ In k (dict_keys dict2)).
Proof.
  intros dict1 dict2 k Hn. split; [|apply merge_deep_keys].
  unfold Nested.merge_dicts_deep. rewrite (merge_deep_get dict2 dict1 k Hn).
  destruct (dict_get k dict2) as [[| | | | | |e]|]; try reflexivity;
    destruct (dict_get k dict1) as [[| | | | | |r]|]; reflexivity.
Qed.

Lemma merge_dicts_deep_lookup_witness :
  dict_get "a" (Nested.merge_dicts_deep
                  [("a", JDict [("x", JInt 1)]); ("b", JInt 2)]
                  [("a", JDict [("y", JInt 3)]); ("b", JNull)])
    = Some (JDict [("x", JInt 1); ("y", JInt 3)]) /\
  (In "a" (dict_keys (Nested.merge_dicts_deep
                        [("a", JDict [("x", JInt 1)]); ("b", JInt 2)]
                        [("a", JDict [("y", JInt 3)]); ("b", JNull)])) <->
   In "a" (dict_keys [("a", JDict [("x", JInt 1)]); ("b", JInt 2)]) \/
   In "a" (dict_keys [("a", JDict [("y", JInt 3)]); ("b", JNull)])).
Proof.
  apply (merge_dicts_deep_lookup
           [("a", JDict [("x", JInt 1)]); ("b", JInt 2)]
           [("a", JDict [("y", JInt 3)]); ("b", JNull)] "a").
  apply unique_nodup. reflexivity.
Defined.

Lemma dict_set_same : forall (A : Type) (k : string) (v : A) (d : dict A),
  dict_get k d = Some v -> dict_set k v d = d.
Proof.
  intros A k v d. induction d as [|[k' v'] d IH]; simpl; [discriminate|].
  destruct (String.eqb_spec k k') as [->|N]; intro H.
  - injection H as ->. reflexivity.
  - rewrite (IH H). reflexivity.
Qed.

Lemma merge_deep_same : forall v : json,
  forall d, v = JDict d -> distinct_keys v = true -> Nested.merge_deep d v = d.
Proof.
  induction v as [| | | | | |d0 IH] using json_induction; intros d E Hd; try discriminate.
  injection E as <-. rewrite merge_deep_fold.
  cbn [distinct_keys] in Hd. apply andb_true_iff in Hd. destruct Hd as [Hu Hf].
  apply unique_nodup in Hu. rewrite forallb_forall in Hf. rewrite Forall_forall in IH.
  enough (G : forall l, incl l d0 ->
            fold_left
              (fun result kv =>
                 match dict_get (fst kv) result, snd kv with
                 | Some (JDict r), JDict _ =>
                     dict_set (fst kv) (JDict (Nested.merge_deep r (snd kv))) result
                 | _, _ => dict_set (fst kv) (snd kv) result
                 end) l d0 = d0).
  { apply G, incl_refl. }
  induction l as [|[k v] l IHl]; intro Hi; [reflexivity|].
  cbn [fold_left fst snd].
  assert (Hin : In (k, v) d0) by (apply Hi; left; reflexivity).
  assert (Hg : dict_get k d0 = Some v) by (apply dict_get_unique; assumption).
  rewrite Hg.
  assert (Hs : dict_set k v d0 = d0) by (apply dict_set_same, Hg).
  assert (Hl : incl l d0) by (intros x Hx; apply Hi; right; exact Hx).
  destruct v as [| | | | | |r]; try (rewrite Hs; apply IHl, Hl).
  pose proof (IH (k, JDict r) Hin r eq_refl (Hf (k, JDict r) Hin)) as Hr.
  cbn [snd] in Hr. rewrite Hr, Hs. apply IHl, Hl.
Qed.

(** X4.  Merging a dict with itself changes nothing: [merge_dicts_deep(d, d)]
    is [d], keys in the same order and nested dicts included. *)
Theorem merge_dicts_deep_idempotent : forall d : dict json,
  distinct_keys (JDict d) = true -> Nested.merge_dicts_deep d d = d.
Proof.
  intros d H. unfold Nested.merge_dicts_deep. apply (merge_deep_same (JDict d) d eq_refl H).
Qed.

Lemma merge_dicts_deep_idempotent_witness :
  Nested.merge_dicts_deep
    [("a", JDict [("x", JInt 1); ("y", JList [JInt 2])]); ("b", JStr "c")]
    [("a", JDict [("x", JInt 1); ("y", JList [JInt 2])]); ("b", JStr "c")]
  = [("a", JDict [("x", JInt 1); ("y", JList [JInt 2])]); ("b", JStr "c")].
Proof.
  apply (merge_dicts_deep_idempotent
           [("a", JDict [("x", JInt 1); ("y", JList [JInt 2])]); ("b", JStr "c")]).
  reflexivity.
Defined.

(** ** utils.py and schema_analyzer.py: the metrics of a schema *)

Lemma depth_le_objects : forall s d,
  Utils.calculate_schema_depth s d <= d + Utils.count_schema_objects s.
Proof.
  induction s as [a e r props it IHp _] using schema_induction; intro d.
  destruct props as [ps|]; simpl; [|lia].
  specialize (IHp ps eq_refl).
  enough (G : forall md c, md <= d + c -> 0 <= c ->
    fold_left
      (fun max_depth kv =>
         match properties (snd kv) with
         | Some _ => Z.max max_depth (Utils.calculate_schema_depth (snd kv) (d + 1))
         | None => max_depth
         end) ps md
    <= d + fold_left
             (fun count kv =>
                if (Utils.type_is_object (snd kv) || has_properties (snd kv))%bool
                then count + 1 + Utils.count_schema_objects (snd kv)
                else count) ps c).
  { apply G; lia. }
  induction IHp as [|[k v] ps' Hv _ IH]; intros md c H1 H2; [exact H1|].
  cbn [fold_left snd]. pose proof (objects_nonneg v) as Ho.
  unfold has_properties. cbn [snd] in Hv.
  destruct (properties v) eqn:E.
  - rewrite orb_true_r. specialize (Hv (d + 1)). apply IH; lia.
  - rewrite orb_false_r. destruct (Utils.type_is_object v); apply IH; lia.
Qed.

(** X5.  The maximal depth of a schema never exceeds its object count, so
    the depth test of the strategy decision never decides: within the token
    budget the strategy is hierarchical exactly when the schema holds more
    than one object, and the single pass exactly when it holds at most
    one. *)
Theorem depth_bounded_by_objects :
  forall (estimate_schema_tokens : schema -> Z) (max_tokens_per_chunk : Z) (s : schema),
  let a := SchemaAnalyzer.analyze_complexity estimate_schema_tokens max_tokens_per_chunk s in
  let m := SchemaAnalyzer.a_metrics a in
  SchemaAnalyzer.max_depth m <= SchemaAnalyzer.object_count m /\
  (SchemaAnalyzer.a_strategy a = SchemaAnalyzer.multi_pass_hierarchical <->
   SchemaAnalyzer.estimated_tokens m <= max_tokens_per_chunk /\
   1 < SchemaAnalyzer.object_count m) /\
  (SchemaAnalyzer.a_strategy a = SchemaAnalyzer.single_pass <->
   SchemaAnalyzer.estimated_tokens m <= max_tokens_per_chunk /\
   SchemaAnalyzer.object_count m <= 1).
Proof.
  intros est budget s. cbv zeta. cbn [SchemaAnalyzer.a_metrics SchemaAnalyzer.a_strategy
    SchemaAnalyzer.analyze_complexity SchemaAnalyzer.max_depth SchemaAnalyzer.object_count
    SchemaAnalyzer.estimated_tokens].
  pose proof (depth_le_objects s 0) as H. rewrite Z.add_0_l in H.
  split; [exact H|].
  unfold SchemaAnalyzer._determine_strategy.
  cbn [SchemaAnalyzer.max_depth SchemaAnalyzer.object_count SchemaAnalyzer.estimated_tokens].
  destruct (Z.gtb_spec (est s) budget) as [G|G].
  - split; split; try discriminate; intros [L _]; lia.
  - destruct (Z.gtb_spec (Utils.calculate_schema_depth s 0) 1) as [D|D];
      destruct (Z.gtb_spec (Utils.count_schema_objects s) 1) as [O|O]; cbn [orb];
      split; split; try discriminate; try (intros [_ L]; lia); intros _; split; lia.
Qed.

(** ** utils.py: the values of a flattened schema *)

Lemma in_dict_set : forall (A : Type) (k k' : string) (v v' : A) (d : dict A),
  In (k, v) (dict_set k' v' d) -> (k, v) = (k', v') \/ In (k, v) d.
Proof.
  intros A k k' v v' d. induction d as [|[k0 v0] d IH]; simpl.
  - intros [E|[]]. left. congruence.
  - destruct (String.eqb_spec k' k0) as [->|N]; simpl.
    + intros [E|H]; [left; congruence|right; right; exact H].
    + intros [E|H]; [right; left; exact E|]. destruct (IH H); [left|right; right]; assumption.
Qed.

Lemma in_dict_update : forall (A : Type) (d2 d : dict A) (k : string) (v : A),
  In (k, v) (dict_update d d2) -> In (k, v) d \/ In (k, v) d2.
Proof.
  unfold dict_update. intros A d2. induction d2 as [|[k2 v2] d2 IH]; intros d k v; simpl.
  - tauto.
  - intro H. apply IH in H. destruct H as [H|H]; [|tauto].
    apply in_dict_set in H.
    destruct H as [E|H]; [right; left; symmetry; exact E|left; exact H].
Qed.

(** X6.  Every value of a flattened schema is a leaf: [flatten_schema]
    never maps a path to a node that has ['properties'] of its own. *)
Theorem flatten_schema_leaves : forall (s : schema) (prefix : string),
  Forall (fun kv => properties (snd kv) = None) (Utils.flatten_schema s prefix).
Proof.
  induction s as [a e r props it IHp _] using schema_induction; intro prefix.
  destruct props as [ps|]; simpl; [|constructor].
  apply (fold_left_invariant _ _
           (fun acc : dict schema => Forall (fun kv => properties (snd kv) = None) acc)
           _ _ _ _ (IHp ps eq_refl)); [|constructor].
  intros acc [k v] Hacc Hv. cbn [fst snd] in *. rewrite Forall_forall in *.
  destruct (properties v) eqn:E.
  - intros [k' v'] Hin. apply in_dict_update in Hin. destruct Hin as [Hin|Hin].
    + apply (Hacc _ Hin).
    + specialize (Hv (Utils.full_key prefix k)). rewrite Forall_forall in Hv.
      apply (Hv _ Hin).
  - intros [k' v'] Hin. apply in_dict_set in Hin. destruct Hin as [Hin|Hin].
    + injection Hin as -> ->. exact E.
    + apply (Hacc _ Hin).
Qed.

(** ** schema_analyzer.py: the extraction order *)

(** X7.  [get_extraction_order] returns for every schema, cyclic
    dependencies included, and lists every path of the flattened schema
    exactly once. *)
Theorem extraction_order_covers_fields : forall s : schema,
  exists ordered : list string,
    SchemaAnalyzer.get_extraction_order s = Some ordered /\
    NoDup ordered /\
    Permutation ordered (dict_keys (Utils.flatten_schema s "")).
Proof.
  intro s. destruct (extraction_order_permutation s) as [ordered [E P]].
  exists ordered. split; [exact E|]. split; [|exact P].
  apply (Permutation_NoDup (Permutation_sym P)), flatten_keys_nodup.
Qed.

Lemma before_grows : forall order dep field x,
  before order dep field -> before (order ++ [x]) dep field.
Proof.
  intros order dep field x [l1 [l2 [E H]]]. exists l1, (l2 ++ [x])%list.
  split; [|exact H]. rewrite E, <- app_assoc. reflexivity.
Qed.

Section DependenciesFirst.

Variable dependencies : dict SchemaAnalyzer.dependency.

Let keys : list string := dict_keys dependencies.

Lemma visit_spec_at : forall fuel field st,
  dfs_ok dependencies st -> In field keys -> enough dependencies fuel st ->
  exists st', SchemaAnalyzer.visit dependencies fuel field st = Some st' /\
              dfs_step dependencies st st' /\
              (~ In field (SchemaAnalyzer.temp_visited st) ->
               In field (SchemaAnalyzer.visited st')).
Proof. intros fuel field st. apply visit_spec. Qed.

Lemma settle_loop : forall fuel, visit_settles dependencies fuel ->
  forall deps st st',
    dfs_ok dependencies st -> enough dependencies fuel st ->
    settled dependencies (SchemaAnalyzer.ordered_fields st) ->
    (forall x dep, In x (SchemaAnalyzer.temp_visited st) -> In dep deps ->
       dict_has dep dependencies = true -> reaches dependencies x dep) ->
    fold_left
      (fun acc dep =>
         match acc with
         | Some st =>
             if dict_has dep dependencies
             then SchemaAnalyzer.visit dependencies fuel dep st
             else Some st
         | None => None
         end) deps (Some st) = Some st' ->
    settled dependencies (SchemaAnalyzer.ordered_fields st') /\
    (forall dep, In dep deps -> dict_has dep dependencies = true ->
       In dep (SchemaAnalyzer.visited st') \/ In dep (SchemaAnalyzer.temp_visited st)).
Proof.
  intros fuel IH deps. induction deps as [|dep deps IHd]; intros st st' Hok Hf Hs Hr H.
  - simpl in H. injection H as <-. split; [exact Hs|]. intros dep [].
  - cbn [fold_left] in H. destruct (dict_has dep dependencies) eqn:E.
    + assert (Hk : In dep keys) by (apply dict_has_in, E).
      destruct (visit_spec_at fuel dep st Hok Hk Hf) as [st1 [E1 [S1 V1]]].
      rewrite E1 in H.
      assert (Hs1 : settled dependencies (SchemaAnalyzer.ordered_fields st1)).
      { apply (IH dep st st1 Hok Hk Hf Hs); [|exact E1].
        intros x Hx. apply (Hr x dep Hx); [left; reflexivity|exact E]. }
      assert (Hf1 : enough dependencies fuel st1).
      { unfold enough in *. rewrite (step_temp _ _ _ S1). exact Hf. }
      destruct (visit_loop dependencies fuel (visit_spec dependencies fuel) deps st1
                  (step_ok _ _ _ S1) Hf1) as [st2 [E2 S2]].
      assert (st2 = st') by congruence. subst st2.
      destruct (IHd st1 st' (step_ok _ _ _ S1) Hf1 Hs1) as [G1 G2]; [|exact H|].
      { intros x d Hx Hd. rewrite (step_temp _ _ _ S1) in Hx.
        apply (Hr x d Hx). right. exact Hd. }
      split; [exact G1|]. intros d [<-|Hd] Hh.
      * destruct (in_dec string_dec dep (SchemaAnalyzer.temp_visited st)) as [I|N];
          [right; exact I|left].
        apply (step_grows _ _ _ S2), V1, N.
      * rewrite <- (step_temp _ _ _ S1). apply G2; assumption.
    + destruct (IHd st st' Hok Hf Hs) as [G1 G2]; [|exact H|].
      { intros x d Hx Hd. apply (Hr x d Hx). right. exact Hd. }
      split; [exact G1|]. intros d [<-|Hd] Hh; [congruence|]. apply G2; assumption.
Qed.

Lemma visit_settles_all : forall fuel, visit_settles dependencies fuel.
Proof.
  induction fuel as [|fuel IH]; intros field st st' Hok Hk Hf Hs Hr H.
  - unfold enough in Hf. lia.
  - cbn [SchemaAnalyzer.visit] in H.
    destruct (set_mem field (SchemaAnalyzer.temp_visited st)) eqn:Et.
    { injection H as <-. exact Hs. }
    destruct (set_mem field (SchemaAnalyzer.visited st)) eqn:Ev.
    { injection H as <-. exact Hs. }
    assert (Nt : ~ In field (SchemaAnalyzer.temp_visited st)).
    { intro I. apply set_mem_in in I. congruence. }
    rewrite (set_add_fresh _ _ Nt) in H.
    set (st1 := {| SchemaAnalyzer.ordered_fields := SchemaAnalyzer.ordered_fields st;
                   SchemaAnalyzer.visited := SchemaAnalyzer.visited st;
                   SchemaAnalyzer.temp_visited :=
                     (SchemaAnalyzer.temp_visited st ++ [field])%list |}) in *.
    destruct Hok as [O1 O2 O3 O4 O5 O6].
    assert (Hn1 : NoDup (SchemaAnalyzer.temp_visited st ++ [field])%list).
    { apply NoDup_app; [exact O4|constructor; [intros []|constructor]|].
      intros x Hx [<-|[]]. contradiction. }
    assert (Hi1 : incl (SchemaAnalyzer.temp_visited st ++ [field])%list keys).
    { intros x Hx. apply in_app_iff in Hx. destruct Hx as [Hx|[<-|[]]]; auto. }
    assert (Hok1 : dfs_ok dependencies st1).
    { split; simpl; [exact O1|exact O2|exact O3|exact Hn1|exact Hi1|].
      intros x Hx. apply in_app_iff in Hx. destruct Hx as [Hx|[<-|[]]]; auto.
      intro I. apply set_mem_in in I. congruence. }
    assert (Hf1 : enough dependencies fuel st1).
    { unfold enough in *. simpl.
      pose proof (NoDup_incl_length Hn1 Hi1) as L. unfold keys in L.
      rewrite length_app in *. simpl in *. lia. }
    destruct (visit_loop dependencies fuel (visit_spec dependencies fuel)
                (SchemaAnalyzer.depends_on_of dependencies field) st1 Hok1 Hf1)
      as [st2 [E2 [P T2 G2]]].
    rewrite E2 in H. injection H as <-. cbn [SchemaAnalyzer.ordered_fields].
    destruct (settle_loop fuel IH (SchemaAnalyzer.depends_on_of dependencies field)
                st1 st2 Hok1 Hf1 Hs) as [S2 D2]; [|exact E2|].
    { intros x dep Hx Hd Hh. apply in_app_iff in Hx. destruct Hx as [Hx|[<-|[]]].
      - apply (reaches_next _ x field dep); [apply Hr, Hx|split; assumption].
      - apply (reaches_next _ field field dep); [apply reaches_here|split; assumption]. }
    intros f dep Hin Hd. apply in_app_iff in Hin. destruct Hin as [Hin|[<-|[]]].
    + destruct (S2 f dep Hin Hd) as [B|R]; [left; apply before_grows, B|right; exact R].
    + destruct Hd as [Hd Hh]. destruct (D2 dep Hd Hh) as [V|T].
      * left. exists (SchemaAnalyzer.ordered_fields st2), []. split; [reflexivity|].
        apply (ok_visited _ _ P), V.
      * right. cbn [SchemaAnalyzer.temp_visited st1] in T. apply in_app_iff in T.
        destruct T as [T|[<-|[]]]; [apply Hr, T|apply reaches_here].
Qed.

Lemma settle_fields : forall fuel fields st st',
  dfs_ok dependencies st -> SchemaAnalyzer.temp_visited st = [] ->
  (List.length keys < fuel)%nat -> incl fields keys ->
  settled dependencies (SchemaAnalyzer.ordered_fields st) ->
  fold_left
    (fun acc field =>
       match acc with
       | Some st =>
           if negb (set_mem field (SchemaAnalyzer.visited st))
           then SchemaAnalyzer.visit dependencies fuel field st
           else Some st
       | None => None
       end) fields (Some st) = Some st' ->
  settled dependencies (SchemaAnalyzer.ordered_fields st').
Proof.
  intros fuel fields. induction fields as [|field fields IH]; intros st st' Hok Ht Hf Hi Hs H.
  - simpl in H. injection H as <-. exact Hs.
  - cbn [fold_left] in H.
    assert (Hin : In field keys) by (apply Hi; left; reflexivity).
    assert (Hi' : incl fields keys) by (intros x Hx; apply Hi; right; exact Hx).
    destruct (set_mem field (SchemaAnalyzer.visited st)); cbn [negb] in H.
    + apply (IH st st' Hok Ht Hf Hi' Hs H).
    + assert (He : enough dependencies fuel st)
        by (unfold enough; unfold keys in Hf; rewrite Ht; simpl; lia).
      destruct (visit_spec_at fuel field st Hok Hin He) as [st1 [E1 [S1 _]]].
      rewrite E1 in H.
      apply (IH st1 st' (step_ok _ _ _ S1)); [|exact Hf|exact Hi'| |exact H].
      * rewrite (step_temp _ _ _ S1). exact Ht.
      * apply (visit_settles_all fuel field st st1 Hok Hin He Hs); [|exact E1].
        rewrite Ht. intros x [].
Qed.

End DependenciesFirst.

(** X8.  Dependencies come first: in the extraction order a field stands
    after every field it depends on, unless that field depends on it in
    turn, directly or through other fields (a cycle of dependencies). *)
Theorem dependencies_come_first : forall s : schema,
  exists order : list string,
    SchemaAnalyzer.get_extraction_order s = Some order /\
    forall field dep : string,
      In field order ->
      depends (SchemaAnalyzer.build_dependency_graph s) field dep ->
      before order dep field \/
      reaches (SchemaAnalyzer.build_dependency_graph s) dep field.
Proof.
  intro s. destruct (extraction_order_permutation s) as [order [E _]].
  exists order. split; [exact E|].
  unfold SchemaAnalyzer.get_extraction_order in E.
  set (deps := SchemaAnalyzer.build_dependency_graph s) in *.
  set (st0 := {| SchemaAnalyzer.ordered_fields := []; SchemaAnalyzer.visited := [];
                 SchemaAnalyzer.temp_visited := [] |}) in *.
  assert (Hok : dfs_ok deps st0).
  { split; simpl; try constructor; try tauto. }
  destruct (fold_left _ (dict_keys deps) (Some st0)) as [st'|] eqn:F; [|discriminate].
  injection E as <-.
  apply (settle_fields deps (S (List.length deps)) (dict_keys deps) st0 st' Hok eq_refl).
  - unfold dict_keys. rewrite length_map. lia.
  - apply incl_refl.
  - intros field dep [].
  - exact F.
Qed.

(** ** schema_analyzer.py: building the chunks *)

Lemma add_field_get : forall (field_parts : list string) (chunk field_schema : schema),
  field_parts <> [] ->
  SchemaAnalyzer._get_field_schema
    (SchemaAnalyzer._add_field_to_chunk chunk field_parts field_schema) field_parts
  = field_schema.
Proof.
  induction field_parts as [|part parts IH]; intros chunk field_schema Hne; [congruence|].
  destruct parts as [|part2 parts].
  - cbn [SchemaAnalyzer._add_field_to_chunk SchemaAnalyzer._get_field_schema].
    unfold SchemaAnalyzer.with_properties. cbn [properties].
    rewrite dict_get_set, String.eqb_refl. reflexivity.
  - remember (part2 :: parts) as rest eqn:Er.
    assert (Hr : rest <> []) by (subst; discriminate).
    assert (E : SchemaAnalyzer._add_field_to_chunk chunk (part :: rest) field_schema =
                let props := SchemaAnalyzer.properties_or_empty chunk in
                let props :=
                  if negb (dict_has part props) then dict_set part empty_object props
                  else props in
                match dict_get part props with
                | Some child =>
                    SchemaAnalyzer.with_properties chunk
                      (dict_set part
                         (SchemaAnalyzer._add_field_to_chunk child rest field_schema) props)
                | None => SchemaAnalyzer.with_properties chunk props
                end).
    { subst rest. reflexivity. }
    rewrite E. clear E. cbv zeta.
    set (props := SchemaAnalyzer.properties_or_empty chunk).
    assert (G : exists child,
              dict_get part (if negb (dict_has part props)
                             then dict_set part empty_object props else props) = Some child).
    { unfold dict_has. destruct (dict_get part props) as [c|] eqn:Eg; cbn [negb].
      - exists c. exact Eg.
      - exists empty_object. rewrite dict_get_set, String.eqb_refl. reflexivity. }
    destruct G as [child G]. rewrite G.
    cbn [SchemaAnalyzer._get_field_schema]. unfold SchemaAnalyzer.with_properties.
    cbn [properties]. rewrite dict_get_set, String.eqb_refl.
    apply IH, Hr.
Qed.

(** X9.  A field added to a chunk is found again: after
    [_add_field_to_chunk(chunk, field_parts, field_schema)],
    [_get_field_schema(chunk, field_parts)] is [field_schema], whatever the
    chunk held before. *)
Theorem add_then_get_field_schema :
  forall (chunk field_schema : schema) (field_path : string),
  SchemaAnalyzer._get_field_schema
    (SchemaAnalyzer._add_field_to_chunk chunk (split_dot field_path) field_schema)
    (split_dot field_path)
  = field_schema.
Proof.
  intros chunk field_schema field_path. apply add_field_get, split_dot_nonempty.
Qed.

Lemma add_field_has_fields : forall (field_parts : list string) (chunk field_schema : schema),
  field_parts <> [] ->
  SchemaAnalyzer.has_fields
    (SchemaAnalyzer._add_field_to_chunk chunk field_parts field_schema) = true.
Proof.
  intros field_parts chunk field_schema Hne.
  assert (G : forall (k : string) (v : schema) (d : dict schema),
            match dict_set k v d with [] => false | _ :: _ => true end = true).
  { intros k v d. destruct d as [|[k' v'] d]; simpl; [reflexivity|].
    destruct (String.eqb k k'); reflexivity. }
  destruct field_parts as [|part parts]; [congruence|].
  destruct parts as [|part2 parts].
  - cbn [SchemaAnalyzer._add_field_to_chunk]. unfold SchemaAnalyzer.has_fields,
      SchemaAnalyzer.with_properties. cbn [properties].
    specialize (G part field_schema (SchemaAnalyzer.properties_or_empty chunk)).
    destruct (dict_set part field_schema (SchemaAnalyzer.properties_or_empty chunk));
      [discriminate|reflexivity].
  - cbn [SchemaAnalyzer._add_field_to_chunk].
    set (props := if negb (dict_has part (SchemaAnalyzer.properties_or_empty chunk))
                  then dict_set part empty_object (SchemaAnalyzer.properties_or_empty chunk)
                  else SchemaAnalyzer.properties_or_empty chunk).
    assert (Hp : exists child, dict_get part props = Some child).
    { subst props. unfold dict_has.
      destruct (dict_get part (SchemaAnalyzer.properties_or_empty chunk)) as [c|] eqn:Eg;
        cbn [negb].
      - exists c. exact Eg.
      - exists empty_object. rewrite dict_get_set, String.eqb_refl. reflexivity. }
    destruct Hp as [child Hp]. rewrite Hp.
    unfold SchemaAnalyzer.has_fields, SchemaAnalyzer.with_properties. cbn [properties].
    match goal with |- context [dict_set ?k ?v ?d] => specialize (G k v d);
      destruct (dict_set k v d); [discriminate|reflexivity] end.
Qed.

Section ChunkNumbers.

Variable estimate_field_tokens : string -> schema -> Z.
Variable s : schema.
Variable dependencies : dict SchemaAnalyzer.dependency.
Variable max_tokens : Z.

Let step := SchemaAnalyzer.field_step estimate_field_tokens s dependencies max_tokens.

Lemma numbered_snoc : forall (A : Type) (f : A -> Z) (l : list A) (x : A),
  map f l = map Z.of_nat (seq 0 (List.length l)) -> f x = Z.of_nat (List.length l) ->
  map f (l ++ [x]) = map Z.of_nat (seq 0 (List.length (l ++ [x]))).
Proof.
  intros A f l x H E. rewrite length_app, map_app. simpl.
  rewrite Nat.add_1_r, seq_S, map_app, H, E. reflexivity.
Qed.

Lemma field_loop_numbers : forall fields st,
  map SchemaAnalyzer.chunk_id (SchemaAnalyzer.chunks st)
    = map Z.of_nat (seq 0 (List.length (SchemaAnalyzer.chunks st))) ->
  SchemaAnalyzer.next_chunk_id st = Z.of_nat (List.length (SchemaAnalyzer.chunks st)) ->
  Forall (fun c => SchemaAnalyzer.has_fields (SchemaAnalyzer.chunk_schema_of c) = true)
    (SchemaAnalyzer.chunks st) ->
  let st' := fold_left step fields st in
  map SchemaAnalyzer.chunk_id (SchemaAnalyzer.chunks st')
    = map Z.of_nat (seq 0 (List.length (SchemaAnalyzer.chunks st'))) /\
  SchemaAnalyzer.next_chunk_id st' = Z.of_nat (List.length (SchemaAnalyzer.chunks st')) /\
  Forall (fun c => SchemaAnalyzer.has_fields (SchemaAnalyzer.chunk_schema_of c) = true)
    (SchemaAnalyzer.chunks st').
Proof.
  induction fields as [|field fields IH]; intros st H1 H2 H3; [simpl; auto|].
  cbn [fold_left]. apply IH; unfold step, SchemaAnalyzer.field_step;
    destruct ((_ >? _) && SchemaAnalyzer.has_fields (SchemaAnalyzer.current_chunk st))%bool
      eqn:E; cbn [SchemaAnalyzer.chunks SchemaAnalyzer.next_chunk_id]; try assumption.
  - apply numbered_snoc; [exact H1|exact H2].
  - rewrite length_app. simpl. lia.
  - apply Forall_app. split; [exact H3|]. constructor; [|constructor].
    apply andb_true_iff in E. apply E.
Qed.

Lemma field_loop_current : forall fields st,
  fields <> [] ->
  SchemaAnalyzer.has_fields (SchemaAnalyzer.current_chunk (fold_left step fields st)) = true.
Proof.
  intros fields st Hne. destruct (exists_last Hne) as [l [x ->]].
  rewrite fold_left_app. cbn [fold_left]. unfold step at 1, SchemaAnalyzer.field_step.
  cbn [SchemaAnalyzer.current_chunk]. apply add_field_has_fields, split_dot_nonempty.
Qed.

End ChunkNumbers.

(** X10.  [chunk_schema] returns for every schema, and numbers its chunks:
    the chunk at position [i] has [chunk_id] [i], and every chunk carries
    the number of chunks as [total_chunks].  When the schema exceeds the
    budget no chunk is empty, and there is no chunk at all exactly when the
    schema has no field. *)
Theorem schema_chunks_numbered :
  forall (estimate_schema_tokens : schema -> Z) (max_tokens_per_chunk : Z)
         (estimate_field_tokens : string -> schema -> Z) (s : schema) (max_tokens : option Z),
  exists chunks : list SchemaAnalyzer.schema_chunk,
    SchemaAnalyzer.chunk_schema estimate_schema_tokens max_tokens_per_chunk
      estimate_field_tokens s max_tokens = Some chunks /\
    map SchemaAnalyzer.chunk_id chunks = map Z.of_nat (seq 0 (List.length chunks)) /\
    Forall (fun c => SchemaAnalyzer.total_chunks c = Z.of_nat (List.length chunks)) chunks /\
    (estimate_schema_tokens s >
       match max_tokens with Some m => m | None => max_tokens_per_chunk end ->
     Forall (fun c => SchemaAnalyzer.has_fields (SchemaAnalyzer.chunk_schema_of c) = true)
       chunks /\
     (chunks = [] <-> Utils.flatten_schema s "" = [])).
Proof.
  intros est budget estf s max_tokens. unfold SchemaAnalyzer.chunk_schema.
  set (m := match max_tokens with Some m => m | None => budget end).
  destruct (Z.leb_spec (est s) m) as [L|L].
  - eexists. split; [reflexivity|]. split; [reflexivity|]. split.
    + constructor; [reflexivity|constructor].
    + intro G. lia.
  - unfold SchemaAnalyzer._create_dependency_chunks.
    destruct (extraction_order_permutation s) as [ordered [E P]]. rewrite E.
    set (deps := SchemaAnalyzer.build_dependency_graph s).
    set (st0 := {| SchemaAnalyzer.chunks := []; SchemaAnalyzer.current_chunk := empty_chunk;
                   SchemaAnalyzer.current_tokens := 0; SchemaAnalyzer.next_chunk_id := 0 |}).
    destruct (field_loop_numbers estf s deps m ordered st0 eq_refl eq_refl (Forall_nil _))
      as [N1 [N2 N3]].
    set (st := fold_left (SchemaAnalyzer.field_step estf s deps m) ordered st0) in *.
    set (chunks := if SchemaAnalyzer.has_fields (SchemaAnalyzer.current_chunk st)
                   then (SchemaAnalyzer.chunks st ++ [SchemaAnalyzer.close_chunk deps st])%list
                   else SchemaAnalyzer.chunks st).
    assert (C : map SchemaAnalyzer.chunk_id chunks
                  = map Z.of_nat (seq 0 (List.length chunks)) /\
                Forall (fun c => SchemaAnalyzer.has_fields (SchemaAnalyzer.chunk_schema_of c)
                                 = true) chunks).
    { subst chunks. destruct (SchemaAnalyzer.has_fields (SchemaAnalyzer.current_chunk st)) eqn:Hf.
      - split; [apply numbered_snoc; [exact N1|exact N2]|].
        apply Forall_app. split; [exact N3|]. constructor; [exact Hf|constructor].
      - split; assumption. }
    destruct C as [C1 C2].
    eexists. split; [reflexivity|]. rewrite length_map, map_map.
    split; [|split].
    + rewrite <- C1. apply map_ext. intros c. reflexivity.
    + apply Forall_forall. intros c Hc. apply in_map_iff in Hc.
      destruct Hc as [c0 [<- _]]. reflexivity.
    + intros _. split.
      * apply Forall_forall. intros c Hc. apply in_map_iff in Hc.
        destruct Hc as [c0 [<- Hc0]]. rewrite Forall_forall in C2. apply (C2 c0 Hc0).
      * split.
        -- intro Hm. apply map_eq_nil in Hm.
           destruct ordered as [|f fs].
           ++ apply Permutation_nil in P. apply map_eq_nil in P. exact P.
           ++ exfalso. subst chunks.
              assert (Hc : SchemaAnalyzer.has_fields (SchemaAnalyzer.current_chunk st) = true).
              { subst st. apply field_loop_current. discriminate. }
              rewrite Hc in Hm. destruct (SchemaAnalyzer.chunks st); discriminate.
        -- intro Hf. rewrite Hf in P. apply Permutation_sym, Permutation_nil in P.
           subst ordered. reflexivity.
Qed.

Lemma set_add_nodup : forall x s, NoDup s -> NoDup (set_add x s).
Proof.
  intros x s H. unfold set_add. destruct (set_mem x s) eqn:E; [exact H|].
  apply NoDup_app; [exact H|constructor; [intros []|constructor]|].
  intros y Hy [<-|[]]. apply set_mem_in in Hy. congruence.
Qed.

Lemma collect_deps : forall (chunk_fields deps : list string) (acc : list string) (d : string),
  NoDup acc ->
  let r := fold_left
             (fun chunk_deps dep =>
                if negb (set_mem dep chunk_fields) then set_add dep chunk_deps else chunk_deps)
             deps acc in
  NoDup r /\ (In d r <-> In d acc \/ (In d deps /\ ~ In d chunk_fields)).
Proof.
  intros chunk_fields deps. induction deps as [|dep deps IH]; intros acc d Hn; cbn [fold_left].
  - split; [exact Hn|]. simpl. tauto.
  - destruct (set_mem dep chunk_fields) eqn:E; cbn [negb].
    + destruct (IH acc d Hn) as [N I]. split; [exact N|]. rewrite I.
      apply set_mem_in in E. simpl. intuition congruence.
    + destruct (IH (set_add dep acc) d (set_add_nodup dep acc Hn)) as [N I].
      split; [exact N|]. rewrite I, set_add_in.
      assert (~ In dep chunk_fields) by (intro X; apply set_mem_in in X; congruence).
      simpl. intuition congruence.
Qed.

(** X11.  The dependencies of a chunk, as [_get_chunk_dependencies] lists
    them, are the fields that a field of the chunk depends on and that the
    chunk does not hold itself; none is listed twice. *)
Theorem chunk_dependencies_outside :
  forall (chunk : schema) (dependencies : dict SchemaAnalyzer.dependency),
  let chunk_fields := dict_keys (Utils.flatten_schema chunk "") in
  let chunk_deps := SchemaAnalyzer._get_chunk_dependencies chunk dependencies in
  NoDup chunk_deps /\
  forall dep : string,
    In dep chunk_deps <->
    ~ In dep chunk_fields /\
    exists field, In field chunk_fields /\
                  In dep (SchemaAnalyzer.depends_on_of dependencies field).
Proof.
  intros chunk dependencies. cbv zeta. unfold SchemaAnalyzer._get_chunk_dependencies.
  set (chunk_fields := dict_keys (Utils.flatten_schema chunk "")).
  enough (G : forall (fields acc : list string), NoDup acc ->
            let r := fold_left
                       (fun chunk_deps field =>
                          if dict_has field dependencies then
                            fold_left
                              (fun chunk_deps dep =>
                                 if negb (set_mem dep chunk_fields)
                                 then set_add dep chunk_deps else chunk_deps)
                              (SchemaAnalyzer.depends_on_of dependencies field) chunk_deps
                          else chunk_deps) fields acc in
            NoDup r /\
            forall dep, In dep r <->
              In dep acc \/
              (~ In dep chunk_fields /\
               exists field, In field fields /\
                             In dep (SchemaAnalyzer.depends_on_of dependencies field))).
  { destruct (G chunk_fields [] (NoDup_nil _)) as [N I]. split; [exact N|].
    intro dep. rewrite I. simpl. tauto. }
  induction fields as [|field fields IH]; intros acc Hn; cbn [fold_left].
  - split; [exact Hn|]. intro dep. simpl. split; [tauto|].
    intros [H|[_ [f [[] _]]]]. exact H.
  - assert (D : dict_has field dependencies = false ->
                SchemaAnalyzer.depends_on_of dependencies field = []).
    { unfold dict_has, SchemaAnalyzer.depends_on_of.
      destruct (dict_get field dependencies); [discriminate|reflexivity]. }
    destruct (dict_has field dependencies) eqn:E.
    + set (acc' := fold_left _ (SchemaAnalyzer.depends_on_of dependencies field) acc).
      assert (C : NoDup acc' /\
                  forall dep, In dep acc' <->
                    In dep acc \/
                    (In dep (SchemaAnalyzer.depends_on_of dependencies field) /\
                     ~ In dep chunk_fields)).
      { split; [apply (collect_deps chunk_fields _ acc "" Hn)|].
        intro dep. apply (collect_deps chunk_fields _ acc dep Hn). }
      destruct C as [C1 C2]. destruct (IH acc' C1) as [N I]. split; [exact N|].
      intro dep. rewrite I, C2. split.
      * intros [[H|[H1 H2]]|[H1 [f [H2 H3]]]]; [left; exact H| |].
        -- right. split; [exact H2|]. exists field. split; [left; reflexivity|exact H1].
        -- right. split; [exact H1|]. exists f. split; [right; exact H2|exact H3].
      * intros [H|[H1 [f [[<-|H2] H3]]]]; [left; left; exact H| |].
        -- left. right. split; assumption.
        -- right. split; [exact H1|]. exists f. split; assumption.
    + destruct (IH acc Hn) as [N I]. split; [exact N|].
      intro dep. rewrite I. split.
      * intros [H|[H1 [f [H2 H3]]]]; [left; exact H|].
        right. split; [exact H1|]. exists f. split; [right; exact H2|exact H3].
      * intros [H|[H1 [f [[<-|H2] H3]]]]; [left; exact H| |].
        -- rewrite (D eq_refl) in H3. destruct H3.
        -- right. split; [exact H1|]. exists f. split; assumption.
Qed.

Lemma filter_all : forall (A : Type) (f : A -> bool) (l : list A),
  (forall x, In x l -> f x = true) -> filter f l = l.
Proof.
  intros A f l. induction l as [|x l IH]; intro H; simpl; [reflexivity|].
  rewrite (H x (or_introl eq_refl)), IH; [reflexivity|].
  intros y Hy. apply H. right. exact Hy.
Qed.

Lemma filter_none : forall (A : Type) (f : A -> bool) (l : list A),
  (forall x, In x l -> f x = false) -> filter f l = [].
Proof.
  intros A f l. induction l as [|x l IH]; intro H; simpl; [reflexivity|].
  rewrite (H x (or_introl eq_refl)). apply IH.
  intros y Hy. apply H. right. exact Hy.
Qed.

(** The rounding of a product of floats: a double is not negative when the
    number is not, and is above it by at most one part in [2^53]. *)
Lemma round_half_even_upper : forall q, (inject_Z (round_half_even q) <= q + (1 # 2))%Q.
Proof.
  intro q. unfold round_half_even.
  pose proof (Qfloor_le q) as L.
  set (f := Qfloor q) in *.
  assert (E1 : (inject_Z (f + 1) == inject_Z f + 1)%Q) by (rewrite inject_Z_plus; reflexivity).
  destruct (Qcompare (q - inject_Z f) (1 # 2)) eqn:C.
  - apply Qeq_alt in C. destruct (Z.even f); [lra|]. rewrite E1. lra.
  - lra.
  - apply Qgt_alt in C. rewrite E1. lra.
Qed.

Lemma round_half_even_nonneg : forall q, (0 <= q)%Q -> 0 <= round_half_even q.
Proof.
  intros q H. unfold round_half_even.
  assert (F : 0 <= Qfloor q) by (apply (Qfloor_resp_le 0 q), H).
  destruct (Qcompare _ _); [destruct (Z.even _)| |]; lia.
Qed.

Lemma binade_le : forall q, (0 < q)%Q -> (2 ^ binade q <= q)%Q.
Proof.
  intros [p d] H. unfold binade. cbn [Qnum Qden].
  assert (Hp : 0 < p) by (unfold Qlt in H; simpl in H; lia).
  set (e := Z.log2 p - Z.log2 (Z.pos d)).
  destruct (Qle_bool (2 ^ e) (p # d)) eqn:B; [apply Qle_bool_iff, B|].
  pose proof (Z.log2_spec p Hp) as [A1 _].
  pose proof (Z.log2_spec (Z.pos d) (Pos2Z.is_pos d)) as [_ A2].
  pose proof (Z.log2_nonneg p) as N1.
  pose proof (Z.log2_nonneg (Z.pos d)) as N2.
  replace (e - 1) with (Z.log2 p - Z.succ (Z.log2 (Z.pos d))) by (subst e; lia).
  rewrite Qpower_minus by (intro Q0; discriminate Q0).
  change 2%Q with (inject_Z 2).
  rewrite <- !Zpower_Qpower by lia.
  set (a := 2 ^ Z.log2 p) in *. set (b := 2 ^ Z.succ (Z.log2 (Z.pos d))) in *.
  assert (Ha : 0 < a) by (subst a; apply Z.pow_pos_nonneg; lia).
  assert (Hb : 0 < b) by lia.
  apply Qle_shift_div_r; [unfold Qlt, inject_Z; simpl; lia|].
  unfold Qle, Qmult, inject_Z. simpl. nia.
Qed.

Lemma nearest_double_nonneg : forall q, (0 <= q)%Q -> (0 <= nearest_double q)%Q.
Proof.
  intros q H. unfold nearest_double. apply Qmult_le_0_compat.
  - change 0%Q with (inject_Z 0). rewrite <- Zle_Qle. apply round_half_even_nonneg.
    apply Qmult_le_0_compat; [exact H|]. apply Qpower_0_le. discriminate.
  - apply Qpower_0_le. discriminate.
Qed.

Lemma nearest_double_upper : forall q,
  (0 < q)%Q -> (nearest_double q <= q * (1 + (1 # 9007199254740992)))%Q.
Proof.
  intros q H. unfold nearest_double.
  pose proof (binade_le q H) as B. set (e := binade q) in *.
  pose proof (round_half_even_upper (q * 2 ^ (52 - e))) as R.
  set (m := inject_Z (round_half_even (q * 2 ^ (52 - e)))) in *.
  assert (N2 : ~ (2 == 0)%Q) by discriminate.
  assert (T : (0 < 2 ^ (e - 52))%Q) by (apply Qpower_0_lt; reflexivity).
  assert (S1 : (2 ^ (52 - e) * 2 ^ (e - 52) == 1)%Q).
  { rewrite <- Qpower_plus by exact N2. replace (52 - e + (e - 52)) with 0 by lia.
    reflexivity. }
  assert (S2 : (2 ^ (e - 52) == 2 ^ e * (1 # 4503599627370496))%Q).
  { unfold Z.sub. rewrite Qpower_plus by exact N2. reflexivity. }
  set (s := (2 ^ (52 - e))%Q) in *. set (t := (2 ^ (e - 52))%Q) in *.
  set (w := (2 ^ e)%Q) in *.
  assert (M : (m * t <= (q * s + (1 # 2)) * t)%Q).
  { apply Qmult_le_compat_r; [exact R|apply Qlt_le_weak, T]. }
  assert (E : ((q * s + (1 # 2)) * t == q * (s * t) + (1 # 2) * t)%Q) by ring.
  rewrite E, S1 in M. lra.
Qed.

Lemma double_nonneg : forall q, (0 <= q)%Q -> (0 <= double q)%Q.
Proof.
  intros q H. unfold double. destruct (Qcompare q 0) eqn:C.
  - apply Qle_refl.
  - apply Qlt_alt in C. lra.
  - apply nearest_double_nonneg, H.
Qed.

Lemma double_upper : forall q,
  (0 <= q)%Q -> (double q <= q * (1 + (1 # 9007199254740992)))%Q.
Proof.
  intros q H. unfold double. destruct (Qcompare q 0) eqn:C.
  - lra.
  - apply Qlt_alt in C. lra.
  - apply Qgt_alt in C. apply nearest_double_upper, C.
Qed.

Lemma float_product_nonneg : forall (n : Z) (c : Q),
  0 <= n -> (0 <= c)%Q -> (0 <= float_mul (float_of_int n) (float_literal c))%Q.
Proof.
  intros n c Hn Hc. unfold float_mul, float_of_int, float_literal.
  apply double_nonneg, Qmult_le_0_compat; apply double_nonneg; [|exact Hc].
  unfold Qle, inject_Z. simpl. lia.
Qed.

Lemma float_product_below : forall n : Z, 0 < n ->
  (float_mul (float_of_int n) (float_literal 0.7) < inject_Z n)%Q.
Proof.
  intros n Hn. unfold float_mul, float_of_int, float_literal.
  assert (N : (0 < inject_Z n)%Q) by (unfold Qlt, inject_Z; simpl; lia).
  pose proof (double_nonneg (inject_Z n) (Qlt_le_weak _ _ N)) as X0.
  pose proof (double_upper (inject_Z n) (Qlt_le_weak _ _ N)) as X1.
  assert (C0 : (0 <= double 0.7)%Q) by (apply Qle_bool_iff; vm_compute; reflexivity).
  assert (C1 : (double 0.7 <= 7 # 10)%Q) by (apply Qle_bool_iff; vm_compute; reflexivity).
  set (x := double (inject_Z n)) in *. set (c := double 0.7) in *.
  assert (Y0 : (0 <= x * c)%Q) by (apply Qmult_le_0_compat; assumption).
  assert (Y1 : (x * c <= x * (7 # 10))%Q).
  { rewrite (Qmult_comm x c), (Qmult_comm x (7 # 10)). apply Qmult_le_compat_r; assumption. }
  pose proof (double_upper (x * c) Y0) as Z1.
  set (y := (x * c)%Q) in *. set (z := double y) in *. set (k := inject_Z n) in *.
  lra.
Qed.

(** [90 * 0.7] is [62.99999999999999] as a product of floats, so a chunk of
    90 fields of which 63 are required is past the threshold; the exact
    product is 63. *)
Example rounded_threshold :
  Qltb (float_mul (float_of_int 90) (float_literal 0.7)) (inject_Z 63) = true /\
  Qltb (inject_Z 90 * 0.7) (inject_Z 63) = false.
Proof. split; vm_compute; reflexivity. Qed.

(** X12.  The priority of a chunk at its two ends: a chunk all of whose
    fields are required has priority [high]; a chunk none of whose fields
    is required, an empty chunk included, has priority [low]. *)
Theorem chunk_priority_extremes :
  forall (chunk : schema) (dependencies : dict SchemaAnalyzer.dependency),
  let chunk_fields := Utils.flatten_schema chunk "" in
  let required (kv : string * schema) :=
    match dict_get (fst kv) dependencies with
    | Some d => truthy (SchemaAnalyzer.dep_required d)
    | None => false
    end in
  (chunk_fields <> [] -> (forall kv, In kv chunk_fields -> required kv = true) ->
   SchemaAnalyzer._calculate_chunk_priority chunk dependencies = SchemaAnalyzer.high) /\
  ((forall kv, In kv chunk_fields -> required kv = false) ->
   SchemaAnalyzer._calculate_chunk_priority chunk dependencies = SchemaAnalyzer.low).
Proof.
  intros chunk dependencies. cbv zeta. unfold SchemaAnalyzer._calculate_chunk_priority.
  set (fields := Utils.flatten_schema chunk "").
  set (n := Z.of_nat (List.length fields)).
  split.
  - intros Hne Hall. rewrite (filter_all _ _ fields Hall). fold n.
    assert (Hn : 0 < n) by (subst n; destruct fields; [congruence|simpl; lia]).
    assert (L : Qltb (float_mul (float_of_int n) (float_literal 0.7)) (inject_Z n) = true)
      by (apply Qltb_true, float_product_below, Hn).
    rewrite L. reflexivity.
  - intro Hnone. rewrite (filter_none _ _ fields Hnone). simpl List.length. fold n.
    assert (Hn : 0 <= n) by (subst n; lia).
    assert (L : forall c : Q, (0 <= c)%Q ->
                Qltb (float_mul (float_of_int n) (float_literal c))
                     (inject_Z (Z.of_nat 0)) = false).
    { intros c Hc. apply Qltb_false. simpl. apply float_product_nonneg; assumption. }
    rewrite (L 0.7%Q), (L 0.3%Q); [reflexivity| |]; unfold Qle; simpl; lia.
Qed.

(** ** document_processor.py: the chunks of a document *)

Section DocumentChunks.

Variable count_tokens : string -> Z.
Variable re_split : string -> string -> list string.
Variable max_tokens_per_chunk : Z.
Variable overlap_tokens : Z.
Variable max_tokens : Z.

Let step := DocumentProcessor.sentence_step count_tokens re_split overlap_tokens max_tokens.

(** What the loop of [chunk_document] keeps. *)
Lemma sentence_step_numbers : forall st sentence,
  chunks_numbered st -> chunks_numbered (step st sentence).
Proof.
  intros st sentence [H1 H2 H3 H4].
  unfold step, DocumentProcessor.sentence_step.
  destruct (count_tokens sentence >? max_tokens).
  - set (st1 := match DocumentProcessor.current_chunk st with [] => st | _ => _ end).
    assert (K : chunks_numbered st1).
    { subst st1. destruct (DocumentProcessor.current_chunk st) as [|x l] eqn:E.
      - split; assumption.
      - split; cbn [DocumentProcessor.chunks DocumentProcessor.next_chunk_id].
        + apply numbered_snoc; [exact H1|exact H2].
        + rewrite length_app. simpl. lia.
        + apply Forall_app. split; [exact H3|]. constructor; [|constructor].
          cbn [DocumentProcessor.sentence_count]. simpl List.length. lia.
        + intros c rest Ec. destruct (DocumentProcessor.chunks st) as [|c0 cs] eqn:Ecs.
          * simpl in Ec. injection Ec as <- <-. discriminate.
          * simpl in Ec. injection Ec as <- <-. apply (H4 c0 cs eq_refl). }
    clearbody st1. clear H1 H2 H3 H4 st.
    generalize (DocumentProcessor._split_oversized_sentence count_tokens re_split
                  sentence max_tokens).
    intro subs. revert st1 K. induction subs as [|sub subs IH]; intros st K; [exact K|].
    cbn [fold_left]. apply IH. destruct K as [H1 H2 H3 H4].
    split; cbn [DocumentProcessor.chunks DocumentProcessor.next_chunk_id].
    + apply numbered_snoc; [exact H1|exact H2].
    + rewrite length_app. simpl. lia.
    + apply Forall_app. split; [exact H3|]. constructor; [|constructor].
      cbn [DocumentProcessor.sentence_count]. lia.
    + intros c rest Ec. destruct (DocumentProcessor.chunks st) as [|c0 cs] eqn:Ecs.
      * simpl in Ec. injection Ec as <- <-. discriminate.
      * simpl in Ec. injection Ec as <- <-. apply (H4 c0 cs eq_refl).
  - destruct ((_ >? _) && match DocumentProcessor.current_chunk st with
                          | [] => false | _ => true end)%bool eqn:E;
      split; cbn [DocumentProcessor.chunks DocumentProcessor.next_chunk_id]; try assumption.
    + apply numbered_snoc; [exact H1|exact H2].
    + rewrite length_app. simpl. lia.
    + apply Forall_app. split; [exact H3|]. constructor; [|constructor].
      unfold DocumentProcessor.overlapped_chunk. cbn [DocumentProcessor.sentence_count].
      apply andb_true_iff in E. destruct E as [_ E].
      destruct (DocumentProcessor.current_chunk st); [discriminate|simpl List.length; lia].
    + intros c rest Ec. destruct (DocumentProcessor.chunks st) as [|c0 cs] eqn:Ecs.
      * simpl in Ec. injection Ec as <- <-.
        unfold DocumentProcessor.overlapped_chunk. rewrite Ecs.
        cbn [DocumentProcessor.has_overlap]. unfold DocumentProcessor._get_overlap_text.
        simpl. discriminate.
      * simpl in Ec. injection Ec as <- <-. apply (H4 c0 cs eq_refl).
Qed.

Lemma sentence_loop_numbers : forall sentences st,
  chunks_numbered st -> chunks_numbered (fold_left step sentences st).
Proof.
  induction sentences as [|sentence sentences IH]; intros st H; [exact H|].
  cbn [fold_left]. apply IH, sentence_step_numbers, H.
Qed.

End DocumentChunks.

(** X13.  [chunk_document] numbers its chunks in order, from 0; every chunk
    counts at least one sentence; and the first chunk never carries an
    overlap. *)
Theorem document_chunks_numbered :
  forall (count_tokens : string -> Z) (re_split : string -> string -> list string)
         (max_tokens_per_chunk overlap_tokens : Z) (document : string) (max_tokens : option Z),
  let chunks :=
    DocumentProcessor.chunk_document count_tokens re_split max_tokens_per_chunk
      overlap_tokens document max_tokens in
  map DocumentProcessor.chunk_id chunks = map Z.of_nat (seq 0 (List.length chunks)) /\
  Forall (fun c => 1 <= DocumentProcessor.sentence_count c) chunks /\
  (forall c rest, chunks = c :: rest -> DocumentProcessor.has_overlap c <> Some true).
Proof.
  intros count_tokens re_split budget overlap document max_tokens. cbv zeta.
  unfold DocumentProcessor.chunk_document.
  set (m := match max_tokens with Some m => m | None => budget end).
  set (st0 := {| DocumentProcessor.chunks := []; DocumentProcessor.current_chunk := [];
                 DocumentProcessor.current_tokens := 0;
                 DocumentProcessor.next_chunk_id := 0;
                 DocumentProcessor.text_position := 0 |}).
  assert (H0 : chunks_numbered st0).
  { split; simpl; try reflexivity; [constructor|]. intros c rest E. discriminate. }
  pose proof (sentence_loop_numbers count_tokens re_split overlap m
                (DocumentProcessor._split_into_sentences re_split document) st0 H0) as H.
  set (st := fold_left _ _ st0) in *. destruct H as [H1 H2 H3 H4].
  destruct (DocumentProcessor.current_chunk st) as [|x l] eqn:E.
  - split; [exact H1|]. split; [exact H3|exact H4].
  - split; [apply numbered_snoc; [exact H1|exact H2]|]. split.
    + apply Forall_app. split; [exact H3|]. constructor; [|constructor].
      unfold DocumentProcessor.overlapped_chunk. cbn [DocumentProcessor.sentence_count].
      rewrite E. simpl List.length. lia.
    + intros c rest Ec. destruct (DocumentProcessor.chunks st) as [|c0 cs] eqn:Ecs.
      * simpl in Ec. injection Ec as <- <-.
        unfold DocumentProcessor.overlapped_chunk. rewrite Ecs.
        cbn [DocumentProcessor.has_overlap]. unfold DocumentProcessor._get_overlap_text.
        simpl. discriminate.
      * simpl in Ec. injection Ec as <- <-. apply (H4 c0 cs eq_refl).
Qed.

Section OversizedSentence.

Variable count_tokens : string -> Z.
Variable re_split : string -> string -> list string.
Variable max_tokens : Z.

Lemma join_words_loop : forall (words : list string) (chunks : list string)
    (current : list string) (groups : list (list string)),
  chunks = map (join " ") groups ->
  Forall (word_group count_tokens max_tokens) groups ->
  (current = [] \/ word_group count_tokens max_tokens current) ->
  let st :=
    fold_left
      (fun st word =>
         let chunks := fst st in
         let current_chunk := snd st in
         let test_chunk := (current_chunk ++ [word])%list in
         if count_tokens (join " " test_chunk) <=? max_tokens then (chunks, test_chunk)
         else
           (match current_chunk with
            | [] => chunks
            | _ => (chunks ++ [join " " current_chunk])%list
            end,
            [word]))
      words (chunks, current) in
  exists groups',
    match snd st with
    | [] => fst st
    | current_chunk => (fst st ++ [join " " current_chunk])%list
    end = map (join " ") groups' /\
    List.concat groups' = (List.concat groups ++ current ++ words)%list /\
    Forall (word_group count_tokens max_tokens) groups'.
Proof.
  induction words as [|word words IH]; intros chunks current groups Hc Hg Hcur; cbv zeta.
  - cbn [fold_left fst snd]. destruct Hcur as [->|Hcur].
    + exists groups. rewrite !app_nil_r. auto.
    + exists (groups ++ [current])%list. split; [|split].
      * destruct current; [destruct Hcur; congruence|].
        rewrite map_app, Hc. reflexivity.
      * rewrite concat_app. simpl. rewrite !app_nil_r. reflexivity.
      * apply Forall_app. split; [exact Hg|]. constructor; [exact Hcur|constructor].
  - cbn [fold_left fst snd].
    destruct (Z.leb_spec (count_tokens (join " " (current ++ [word]))) max_tokens) as [L|L].
    + destruct (IH chunks (current ++ [word])%list groups Hc Hg) as [groups' [E1 [E2 E3]]].
      * right. split; [destruct current; discriminate|left; exact L].
      * exists groups'. split; [exact E1|]. split; [|exact E3].
        rewrite E2, <- !app_assoc. reflexivity.
    + destruct Hcur as [->|Hcur].
      * destruct (IH chunks [word] groups Hc Hg) as [groups' [E1 [E2 E3]]].
        { right. split; [discriminate|right; exists word; reflexivity]. }
        exists groups'. split; [exact E1|]. split; [exact E2|exact E3].
      * destruct (IH (chunks ++ [join " " current])%list [word] (groups ++ [current])%list)
          as [groups' [E1 [E2 E3]]].
        { rewrite map_app, Hc. reflexivity. }
        { apply Forall_app. split; [exact Hg|]. constructor; [exact Hcur|constructor]. }
        { right. split; [discriminate|right; exists word; reflexivity]. }
        exists groups'. split; [|split; [|exact E3]].
        -- destruct current; [destruct Hcur; congruence|exact E1].
        -- rewrite E2, concat_app. simpl. rewrite app_nil_r, <- !app_assoc. reflexivity.
Qed.

Lemma join_words_groups : forall words : list string,
  exists groups,
    DocumentProcessor.join_words count_tokens max_tokens words = map (join " ") groups /\
    List.concat groups = words /\
    Forall (word_group count_tokens max_tokens) groups.
Proof.
  intro words. unfold DocumentProcessor.join_words.
  destruct (join_words_loop words [] [] [] eq_refl (Forall_nil _) (or_introl eq_refl))
    as [groups [E1 [E2 E3]]].
  exists groups. split; [exact E1|]. split; [exact E2|exact E3].
Qed.

End OversizedSentence.

(** X14.  The word fallback of [_split_oversized_sentence] loses no word and
    keeps their order: its pieces are the words of the sentence, cut into
    groups that are joined with single spaces; every group fits the budget
    or is a single word. *)
Theorem word_fallback_keeps_words :
  forall (count_tokens : string -> Z) (max_tokens : Z) (words : list string),
  exists groups : list (list string),
    DocumentProcessor.join_words count_tokens max_tokens words = map (join " ") groups /\
    List.concat groups = words /\
    Forall (fun g => g <> [] /\
                     (count_tokens (join " " g) <= max_tokens \/ exists w, g = [w]))
      groups.
Proof. intros count_tokens max_tokens words. apply join_words_groups. Qed.

(** X15.  Every piece that [_split_oversized_sentence] returns fits the
    budget, or it is a single word of the sentence, which cannot be cut
    further. *)
Theorem oversized_pieces_fit_or_single_word :
  forall (count_tokens : string -> Z) (re_split : string -> string -> list string)
         (sentence : string) (max_tokens : Z),
  Forall (fun piece => count_tokens piece <= max_tokens \/ In piece (split_ws sentence))
    (DocumentProcessor._split_oversized_sentence count_tokens re_split sentence max_tokens).
Proof.
  intros count_tokens re_split sentence max_tokens.
  unfold DocumentProcessor._split_oversized_sentence.
  generalize DocumentProcessor.clause_patterns. intro patterns.
  induction patterns as [|pattern patterns IH].
  - destruct (join_words_groups count_tokens max_tokens (split_ws sentence))
      as [groups [E1 [E2 E3]]].
    rewrite E1. apply Forall_forall. intros piece Hp.
    apply in_map_iff in Hp. destruct Hp as [g [<- Hg]].
    rewrite Forall_forall in E3. destruct (E3 g Hg) as [_ [F|[w ->]]]; [left; exact F|].
    right. rewrite <- E2. apply in_concat. exists [w]. split; [exact Hg|left; reflexivity].
  - destruct (1 <? List.length (re_split pattern sentence))%nat; [|exact IH].
    destruct (forallb _ (DocumentProcessor.join_clauses count_tokens max_tokens
                           (re_split pattern sentence))) eqn:F; [|exact IH].
    rewrite forallb_forall in F. apply Forall_forall. intros piece Hp.
    left. apply Z.leb_le, F, Hp.
Qed.

(** X16.  The sentences carried over into the next chunk are the last ones
    of the chunk just closed: at most two, at most a third of its sentences,
    and none when it has two sentences or fewer. *)
Theorem overlap_sentences_suffix : forall current_chunk : list string,
  let overlap := DocumentProcessor._get_overlap_sentences current_chunk in
  (exists front, current_chunk = (front ++ overlap)%list) /\
  (List.length overlap <= 2)%nat /\
  (3 * List.length overlap <= List.length current_chunk)%nat /\
  (overlap = [] <-> (List.length current_chunk <= 2)%nat).
Proof.
  intro current_chunk. cbv zeta. unfold DocumentProcessor._get_overlap_sentences.
  set (n := List.length current_chunk).
  destruct (Nat.leb_spec n 2) as [L|L].
  - split; [exists current_chunk; rewrite app_nil_r; reflexivity|].
    simpl. split; [lia|]. split; [lia|]. split; [intros _; exact L|reflexivity].
  - pose proof (Nat.div_mod_eq n 3) as D.
    pose proof (Nat.mod_upper_bound n 3) as M.
    set (k := Nat.min 2 (n / 3)).
    assert (K : (1 <= k /\ k <= 2 /\ 3 * k <= n)%nat) by (subst k; lia).
    destruct (Nat.ltb_spec 0 k) as [P|P]; [|lia].
    unfold DocumentProcessor.last_n. fold n.
    assert (Len : List.length (skipn (n - k) current_chunk) = k).
    { rewrite length_skipn. fold n. lia. }
    split; [exists (firstn (n - k) current_chunk); symmetry; apply firstn_skipn|].
    rewrite Len. split; [lia|]. split; [lia|]. split.
    + intro E. rewrite E in Len. simpl in Len. lia.
    + intro X. lia.
Qed.

(** ** document_processor.py: conflicts between chunk results *)

Lemma py_eq_refl_hashable : forall x, hashable x = true -> py_eq x x = true.
Proof.
  intros [| b | n | q | s | l | d] H; try discriminate; simpl.
  - reflexivity.
  - apply Qeq_bool_iff. reflexivity.
  - apply Qeq_bool_iff. reflexivity.
  - apply Qeq_bool_iff. reflexivity.
  - apply String.eqb_refl.
Qed.

Lemma ordered_pairs_snoc : forall (A : Type) (R : A -> A -> Prop) (l : list A) (x : A),
  ForallOrdPairs R l -> Forall (fun a => R a x) l -> ForallOrdPairs R (l ++ [x]).
Proof.
  intros A R l x H. induction H as [|a l Ha Hl IH]; intro F; simpl.
  - constructor; constructor.
  - inversion F as [|? ? Fa Fl]; subst. constructor; [|apply IH, Fl].
    apply Forall_app. split; [exact Ha|]. constructor; [exact Fa|constructor].
Qed.

Lemma existsb_app_left : forall (A : Type) (f : A -> bool) (l m : list A),
  existsb f l = true -> existsb f (l ++ m) = true.
Proof. intros A f l m H. rewrite existsb_app, H. reflexivity. Qed.

Lemma dedupe_loop : forall (values acc : list json),
  Forall (fun x => hashable x = true) values ->
  ForallOrdPairs (fun a b => py_eq b a = false) acc ->
  exists r,
    fold_left
      (fun acc item =>
         st <- acc ;;
         let seen := fst st in
         let result := snd st in
         if hashable item then
           if negb (Merge.seen_mem item seen)
           then Ok ((seen ++ [item])%list, (result ++ [item])%list)
           else Ok st
         else Raise TypeError)
      values (Ok (acc, acc)) = Ok (r, r) /\
    (forall x, existsb (py_eq x) acc = true -> existsb (py_eq x) r = true) /\
    (forall x, In x values -> existsb (py_eq x) r = true) /\
    incl r (acc ++ values) /\
    ForallOrdPairs (fun a b => py_eq b a = false) r.
Proof.
  induction values as [|item values IH]; intros acc Hh Hd.
  - exists acc. simpl. rewrite app_nil_r.
    repeat split; auto using incl_refl; intros x [].
  - inversion Hh as [|? ? Hi Hr]; subst. cbn [fold_left bind fst snd]. rewrite Hi.
    unfold Merge.seen_mem. destruct (existsb (py_eq item) acc) eqn:E; cbn [negb].
    + destruct (IH acc Hr Hd) as [r [E1 [E2 [E3 [E4 E5]]]]].
      exists r. split; [exact E1|]. split; [exact E2|]. split; [|split; [|exact E5]].
      * intros x [<-|Hx]; [apply E2, E|apply E3, Hx].
      * intros x Hx. apply E4 in Hx. apply in_app_iff in Hx. apply in_app_iff.
        destruct Hx as [Hx|Hx]; [left; exact Hx|right; right; exact Hx].
    + destruct (IH (acc ++ [item])%list Hr) as [r [E1 [E2 [E3 [E4 E5]]]]].
      { apply ordered_pairs_snoc; [exact Hd|]. apply Forall_forall. intros a Ha.
        destruct (py_eq item a) eqn:Ea; [|reflexivity].
        assert (X : existsb (py_eq item) acc = true)
          by (apply existsb_exists; exists a; split; assumption).
        congruence. }
      exists r. split; [exact E1|]. split; [|split; [|split; [|exact E5]]].
      * intros x Hx. apply E2, existsb_app_left, Hx.
      * intros x [<-|Hx]; [|apply E3, Hx].
        apply E2. rewrite existsb_app. simpl.
        rewrite (py_eq_refl_hashable item Hi). apply orb_true_iff. right. reflexivity.
      * intros x Hx. apply E4 in Hx. rewrite <- app_assoc in Hx. exact Hx.
Qed.

Lemma dedupe_raises : forall (values : list json) (acc : result (list json * list json)),
  (acc = Raise TypeError \/
   ((exists st, acc = Ok st) /\ Exists (fun x => hashable x = false) values)) ->
  fold_left
    (fun acc item =>
       st <- acc ;;
       let seen := fst st in
       let result := snd st in
       if hashable item then
         if negb (Merge.seen_mem item seen)
         then Ok ((seen ++ [item])%list, (result ++ [item])%list)
         else Ok st
       else Raise TypeError)
    values acc = Raise TypeError.
Proof.
  induction values as [|item values IH]; intros acc H.
  - destruct H as [->|[_ H]]; [reflexivity|inversion H].
  - cbn [fold_left]. apply IH. destruct H as [->|[[st ->] H]]; [left; reflexivity|].
    cbn [bind fst snd]. destruct (hashable item) eqn:Hi; [|left; reflexivity].
    right. split.
    + destruct (negb (Merge.seen_mem item (fst st))); eexists; reflexivity.
    + inversion H as [? ? Hx|? ? Hx]; subst; [congruence|exact Hx].
Qed.

(** X17.  Two different lists found for one field are merged into one list
    without duplicates: every element of either list is in it, it holds
    nothing else, and no two of its elements are equal.  When one of the
    elements is not hashable (a list or a dict), the merge raises
    [TypeError]. *)
Theorem list_conflict_deduplicates :
  forall (existing_value new_value all_values : list json),
  py_eq (JList existing_value) (JList new_value) = false ->
  (Forall (fun x => hashable x = true) (existing_value ++ new_value) ->
   exists r,
     Merge._resolve_field_conflict (JList existing_value) (JList new_value) all_values
       = Ok (JList r) /\
     (forall x, In x (existing_value ++ new_value) -> existsb (py_eq x) r = true) /\
     incl r (existing_value ++ new_value) /\
     ForallOrdPairs (fun a b => py_eq b a = false) r) /\
  (Exists (fun x => hashable x = false) (existing_value ++ new_value) ->
   Merge._resolve_field_conflict (JList existing_value) (JList new_value) all_values
     = Raise TypeError).
Proof.
  intros e n all_values Hne.
  assert (E : Merge._resolve_field_conflict (JList e) (JList n) all_values =
              if py_eq (JList e) (JList n) then Ok (JList e)
              else
                r <- fold_left
                       (fun acc item =>
                          st <- acc ;;
                          let seen := fst st in
                          let result := snd st in
                          if hashable item then
                            if negb (Merge.seen_mem item seen)
                            then Ok ((seen ++ [item])%list, (result ++ [item])%list)
                            else Ok st
                          else Raise TypeError)
                       (e ++ n)%list (Ok ([], [])) ;;
                Ok (JList (snd r))) by reflexivity.
  rewrite E, Hne. clear E. split.
  - intro Hh. destruct (dedupe_loop (e ++ n) [] Hh) as [r [E1 [_ [E3 [E4 E5]]]]];
      [constructor|].
    exists r. rewrite E1. split; [reflexivity|]. split; [exact E3|]. split; [exact E4|exact E5].
  - intro Hx. rewrite (dedupe_raises (e ++ n) (Ok ([], []))); [reflexivity|].
    right. split; [eexists; reflexivity|exact Hx].
Qed.

Lemma list_conflict_deduplicates_witness :
  Merge._resolve_field_conflict (JList [JStr "a"; JInt 1]) (JList [JInt 1; JStr "b"]) []
    = Ok (JList [JStr "a"; JInt 1; JStr "b"]) /\
  Merge._resolve_field_conflict (JList [JDict []]) (JList [JDict [("k", JNull)]]) []
    = Raise TypeError.
Proof.
  split.
  - destruct (list_conflict_deduplicates [JStr "a"; JInt 1] [JInt 1; JStr "b"] [] eq_refl)
      as [H _].
    reflexivity.
  - apply (list_conflict_deduplicates [JDict []] [JDict [("k", JNull)]] [] eq_refl).
    constructor. reflexivity.
Defined.

(** ** document_processor.py: merging two results or more *)

Lemma fold_tokens : forall (St X : Type) (g : result St -> X -> result St)
    (tok : St -> json) (usage : X -> json),
  (forall e x, g (Raise e) x = Raise e) ->
  (forall st x st', g (Ok st) x = Ok st' -> py_add (tok st) (usage x) = Ok (tok st')) ->
  forall (l : list X) (st st' : St),
    fold_left g l (Ok st) = Ok st' ->
    fold_left (fun acc v => a <- acc ;; py_add a v) (map usage l) (Ok (tok st))
      = Ok (tok st').
Proof.
  intros St X g tok usage Hr Hg l. induction l as [|x l IH]; intros st st' H.
  - simpl in H. injection H as <-. reflexivity.
  - cbn [fold_left map] in *. destruct (g (Ok st) x) as [st1|e] eqn:E.
    + cbn [bind]. rewrite (Hg st x st1 E). apply IH, H.
    + rewrite (fold_result_raise _ _ g Hr) in H. discriminate.
Qed.

(** X18.  Merging two results or more gives a dict with the six keys
    [data], [confidence], [strategy], [total_chunks], [token_usage] and
    [chunk_results]: the strategy is ['document_chunked'], [total_chunks]
    counts the results, [chunk_results] lists them as they were given, and
    [token_usage] is the sum of their [token_usage] entries, an absent one
    counting 0. *)
Theorem merge_extractions_many :
  forall (first second : dict json) (others : list (dict json)) (r : dict json),
  Merge.merge_extractions (first :: second :: others) = Ok r ->
  dict_keys r
    = ["data"; "confidence"; "strategy"; "total_chunks"; "token_usage"; "chunk_results"] /\
  dict_get "strategy" r = Some (JStr "document_chunked") /\
  dict_get "total_chunks" r
    = Some (JInt (Z.of_nat (List.length (first :: second :: others)))) /\
  dict_get "chunk_results" r = Some (JList (map JDict (first :: second :: others))) /\
  exists total,
    py_sum (map (dict_get_default "token_usage" (JInt 0)) (first :: second :: others))
      = Ok total /\
    dict_get "token_usage" r = Some total.
Proof.
  intros first second others r H.
  unfold Merge.merge_extractions in H.
  remember (first :: second :: others) as results eqn:Er.
  match type of H with
  | bind ?m _ = _ => destruct m as [st|e] eqn:Est; [|discriminate]
  end.
  cbn [bind] in H.
  match type of H with
  | bind ?m _ = _ => destruct m as [final|e]; [|discriminate]
  end.
  cbn [bind] in H.
  match type of H with
  | bind ?m _ = _ => destruct m as [overall|e]; [|discriminate]
  end.
  cbn [bind] in H. injection H as <-.
  split; [reflexivity|]. split; [reflexivity|]. split; [reflexivity|]. split; [reflexivity|].
  exists (Merge.total_tokens st). split; [|reflexivity].
  unfold py_sum.
  match type of Est with
  | fold_left ?g _ (Ok ?st0) = _ =>
      apply (fold_tokens _ _ g Merge.total_tokens
               (dict_get_default "token_usage" (JInt 0)) (fun _ _ => eq_refl)) with (st := st0);
        [|exact Est]
  end.
  intros st1 x st2 Hs. cbn [bind] in Hs.
  repeat match type of Hs with
         | bind ?m _ = _ => destruct m; [|discriminate]; cbn [bind] in Hs
         end.
  injection Hs as <-. reflexivity.
Qed.

Lemma merge_extractions_many_witness :
  Merge.merge_extractions [result_a; result_b] = Ok merged_ab /\
  dict_get "total_chunks" merged_ab = Some (JInt 2) /\
  exists total,
    py_sum (map (dict_get_default "token_usage" (JInt 0)) [result_a; result_b]) = Ok total /\
    dict_get "token_usage" merged_ab = Some total.
Proof.
  split; [reflexivity|].
  destruct (merge_extractions_many result_a result_b [] merged_ab eq_refl)
    as [_ [_ [H3 [_ H5]]]].
  split; [exact H3|exact H5].
Defined.

(** ** extraction_engine.py: levels and priorities *)

Lemma level_append_fields : forall (levels : list (Z * list string)) (lv l : Z) (x : string),
  level_fields l (ExtractionEngine.level_append lv x levels) =
  if Z.eqb lv l
  then Some (match level_fields lv levels with
             | Some fs => (fs ++ [x])%list
             | None => [x]
             end)
  else level_fields l levels.
Proof.
  induction levels as [|[l0 fs0] levels IH]; intros lv l x.
  - simpl. destruct (Z.eqb lv l); reflexivity.
  - cbn [ExtractionEngine.level_append]. destruct (Z.eqb_spec l0 lv) as [E|N].
    + subst l0. cbn [level_fields]. rewrite Z.eqb_refl.
      destruct (Z.eqb lv l); reflexivity.
    + cbn [level_fields]. rewrite IH.
      destruct (Z.eqb_spec l0 lv) as [X|_]; [congruence|].
      destruct (Z.eqb_spec lv l) as [E|M]; [|reflexivity].
      subst l. destruct (Z.eqb_spec l0 lv) as [X|_]; [congruence|reflexivity].
Qed.

Lemma level_append_keys : forall (levels : list (Z * list string)) (lv : Z) (x : string),
  NoDup (map fst levels) ->
  NoDup (map fst (ExtractionEngine.level_append lv x levels)) /\
  forall l, In l (map fst (ExtractionEngine.level_append lv x levels)) <->
            l = lv \/ In l (map fst levels).
Proof.
  induction levels as [|[l0 fs0] levels IH]; intros lv x Hn.
  - simpl. split; [constructor; [intros []|constructor]|]. intro l. intuition congruence.
  - cbn [ExtractionEngine.level_append]. inversion Hn as [|? ? Hk Hd]; subst.
    destruct (Z.eqb_spec l0 lv) as [->|N].
    + simpl. split; [constructor; assumption|]. intro l. intuition congruence.
    + destruct (IH lv x Hd) as [N1 N2]. simpl. split.
      * constructor; [|exact N1]. rewrite N2. intros [X|X]; [congruence|contradiction].
      * intro l. rewrite N2. intuition congruence.
Qed.

(** X19.  [_group_fields_by_level] sorts the fields into levels by the
    number of dots in their paths: the group of a level holds the fields of
    that level, all of them and in the order in which they came; a level
    without field has no group, and no level has two. *)
Theorem fields_grouped_by_level : forall (extraction_order : list string),
  let levels := ExtractionEngine._group_fields_by_level extraction_order in
  NoDup (map fst levels) /\
  forall level : Z,
    level_fields level levels =
    match filter (fun field => Z.eqb (count_dot field) level) extraction_order with
    | [] => None
    | level_group => Some level_group
    end.
Proof.
  intro order. cbv zeta. unfold ExtractionEngine._group_fields_by_level.
  induction order as [|x order IH] using rev_ind.
  - split; [constructor|reflexivity].
  - rewrite fold_left_app. cbn [fold_left]. destruct IH as [N F].
    split; [apply level_append_keys, N|].
    intro level. rewrite level_append_fields, filter_app. cbn [filter].
    rewrite !F. destruct (Z.eqb_spec (count_dot x) level) as [E|M].
    + subst level.
      destruct (filter (fun field => count_dot field =? count_dot x) order); reflexivity.
    + rewrite app_nil_r. reflexivity.
Qed.

Lemma insert_by_permutation : forall (A : Type) (key : A -> Z) (x : A) (l : list A),
  Permutation (ExtractionEngine.insert_by key x l) (x :: l).
Proof.
  intros A key x l. induction l as [|y l IH]; simpl; [apply Permutation_refl|].
  destruct (key x <=? key y); [apply Permutation_refl|].
  eapply Permutation_trans; [apply perm_skip, IH|apply perm_swap].
Qed.

Lemma insert_by_sorted : forall (A : Type) (key : A -> Z) (x : A) (l : list A),
  StronglySorted (fun a b => key a <= key b) l ->
  StronglySorted (fun a b => key a <= key b) (ExtractionEngine.insert_by key x l).
Proof.
  intros A key x l H. induction H as [|y l Hs IH Hy]; simpl.
  - constructor; constructor.
  - destruct (Z.leb_spec (key x) (key y)) as [L|L].
    + constructor; [constructor; assumption|].
      constructor; [exact L|]. rewrite Forall_forall in *. intros z Hz.
      specialize (Hy z Hz). lia.
    + constructor; [exact IH|]. rewrite Forall_forall in *. intros z Hz.
      apply (Permutation_in _ (insert_by_permutation A key x l)) in Hz.
      destruct Hz as [<-|Hz]; [lia|apply Hy, Hz].
Qed.

Lemma insert_by_stable : forall (A : Type) (key : A -> Z) (p : Z) (x : A) (l : list A),
  filter (fun c => key c =? p) (ExtractionEngine.insert_by key x l) =
  filter (fun c => key c =? p) (x :: l).
Proof.
  intros A key p x l. induction l as [|y l IH]; [reflexivity|].
  cbn [ExtractionEngine.insert_by]. destruct (Z.leb_spec (key x) (key y)) as [L|L];
    [reflexivity|].
  cbn [filter] in *. rewrite IH.
  destruct (Z.eqb_spec (key x) p) as [Ex|Nx]; [|reflexivity].
  destruct (Z.eqb_spec (key y) p) as [Ey|Ny]; [lia|reflexivity].
Qed.

(** X20.  [extract_complex] takes the chunks by priority: the order in
    which it processes them holds every chunk once, [high] (rank 0) before
    [medium] (rank 1) before [low] (rank 2), and the chunks of one priority
    in the order in which they were given. *)
Theorem chunks_taken_by_priority : forall chunks : list SchemaAnalyzer.schema_chunk,
  let sorted_chunks := ExtractionEngine.sorted_by ExtractionEngine.priority_rank chunks in
  Permutation sorted_chunks chunks /\
  StronglySorted
    (fun a b => ExtractionEngine.priority_rank a <= ExtractionEngine.priority_rank b)
    sorted_chunks /\
  forall rank : Z,
    filter (fun c => ExtractionEngine.priority_rank c =? rank) sorted_chunks
    = filter (fun c => ExtractionEngine.priority_rank c =? rank) chunks.
Proof.
  intro chunks. cbv zeta. unfold ExtractionEngine.sorted_by.
  induction chunks as [|c chunks [P [S F]]]; cbn [fold_right].
  - split; [constructor|]. split; [constructor|reflexivity].
  - split; [|split].
    + eapply Permutation_trans; [apply insert_by_permutation|apply perm_skip, P].
    + apply insert_by_sorted, S.
    + intro rank. rewrite insert_by_stable. cbn [filter]. rewrite F. reflexivity.
Qed.

(** ** confidence_scorer.py: the type keyword *)

(** X21.  A field schema whose ['type'] is a non-empty list of type names
    or a dict cannot be scored: for every value but [None], [score_field]
    raises [TypeError], the type being looked up in a dict. *)
Theorem score_field_unhashable_type :
  forall (re_match : string -> string -> option bool) (field_value : json)
         (field_schema : schema) (ctx : ConfidenceScorer.context) (expected_type : json),
  is_none field_value = false ->
  attr "type" field_schema = Some expected_type ->
  truthy expected_type = true -> hashable expected_type = false ->
  ConfidenceScorer.score_field re_match field_value field_schema ctx = Raise TypeError.
Proof.
  intros re_match field_value field_schema ctx expected_type Hv Ht Htr Hh.
  unfold ConfidenceScorer.score_field. rewrite Hv.
  unfold ConfidenceScorer._score_data_type. rewrite Ht, Htr, Hh. reflexivity.
Qed.

Lemma score_field_unhashable_type_witness :
  ConfidenceScorer.score_field (fun _ _ => Some true) (JStr "Ann")
    (Node [("type", JList [JStr "string"; JStr "null"])] None None None None)
    {| ConfidenceScorer.original_text := None |}
  = Raise TypeError.
Proof.
  apply (score_field_unhashable_type (fun _ _ => Some true) (JStr "Ann")
           (Node [("type", JList [JStr "string"; JStr "null"])] None None None None)
           {| ConfidenceScorer.original_text := None |}
           (JList [JStr "string"; JStr "null"])); reflexivity.
Defined.

(** ** confidence_scorer.py: review candidates and completion *)

Lemma fold_append_filter : forall (A B : Type) (keep : A -> bool) (mk : A -> B)
    (l : list A) (acc : list B),
  fold_left (fun acc x => if keep x then (acc ++ [mk x])%list else acc) l acc
  = (acc ++ map mk (filter keep l))%list.
Proof.
  intros A B keep mk l. induction l as [|x l IH]; intro acc; cbn [fold_left filter].
  - rewrite app_nil_r. reflexivity.
  - rewrite IH. destruct (keep x); [|reflexivity].
    cbn [map]. rewrite <- app_assoc. reflexivity.
Qed.

Lemma insert_candidate_permutation : forall x l,
  Permutation (ConfidenceScorer.insert_candidate x l) (x :: l).
Proof.
  intros x l. induction l as [|y l IH]; simpl; [apply Permutation_refl|].
  destruct (Qle_bool _ _); [apply Permutation_refl|].
  eapply Permutation_trans; [apply perm_skip, IH|apply perm_swap].
Qed.

Lemma insert_candidate_sorted : forall x l,
  StronglySorted
    (fun a b => (ConfidenceScorer.rc_confidence a <= ConfidenceScorer.rc_confidence b)%Q) l ->
  StronglySorted
    (fun a b => (ConfidenceScorer.rc_confidence a <= ConfidenceScorer.rc_confidence b)%Q)
    (ConfidenceScorer.insert_candidate x l).
Proof.
  intros x l H. induction H as [|y l Hs IH Hy]; simpl.
  - constructor; constructor.
  - destruct (Qle_bool (ConfidenceScorer.rc_confidence x) (ConfidenceScorer.rc_confidence y))
      eqn:E.
    + apply Qle_bool_iff in E. constructor; [constructor; assumption|].
      constructor; [exact E|]. rewrite Forall_forall in *. intros z Hz.
      eapply Qle_trans; [exact E|apply Hy, Hz].
    + assert (L : (ConfidenceScorer.rc_confidence y <= ConfidenceScorer.rc_confidence x)%Q).
      { apply Qlt_le_weak, Qnot_le_lt. intro X. apply Qle_bool_iff in X. congruence. }
      constructor; [exact IH|]. rewrite Forall_forall in *. intros z Hz.
      apply (Permutation_in _ (insert_candidate_permutation x l)) in Hz.
      destruct Hz as [<-|Hz]; [exact L|apply Hy, Hz].
Qed.

Lemma sort_candidates_spec : forall l,
  Permutation (ConfidenceScorer.sort_candidates l) l /\
  StronglySorted
    (fun a b => (ConfidenceScorer.rc_confidence a <= ConfidenceScorer.rc_confidence b)%Q)
    (ConfidenceScorer.sort_candidates l).
Proof.
  unfold ConfidenceScorer.sort_candidates.
  induction l as [|x l [P S]]; cbn [fold_right].
  - split; constructor.
  - split; [|apply insert_candidate_sorted, S].
    eapply Permutation_trans; [apply insert_candidate_permutation|apply perm_skip, P].
Qed.

(** X22.  The review candidates are the fields whose score lies below the
    threshold, each once, in the order of their scores, lowest first; each
    carries the reason and the priority of its score. *)
Theorem review_candidates_below_threshold :
  forall (confidence_threshold : Q) (field_scores : dict Q) (threshold : option Q),
  let limit := match threshold with Some t => t | None => confidence_threshold end in
  let candidates :=
    ConfidenceScorer.get_review_candidates confidence_threshold field_scores threshold in
  Permutation
    (map (fun c => (ConfidenceScorer.rc_field c, ConfidenceScorer.rc_confidence c)) candidates)
    (filter (fun kv => Qltb (snd kv) limit) field_scores) /\
  StronglySorted
    (fun a b => (ConfidenceScorer.rc_confidence a <= ConfidenceScorer.rc_confidence b)%Q)
    candidates /\
  Forall (fun c =>
            (ConfidenceScorer.rc_confidence c < limit)%Q /\
            ConfidenceScorer.rc_reason c
              = ConfidenceScorer._get_review_reason (ConfidenceScorer.rc_confidence c) /\
            ConfidenceScorer.rc_priority c
              = ConfidenceScorer._get_review_priority (ConfidenceScorer.rc_confidence c))
    candidates.
Proof.
  intros confidence_threshold field_scores threshold. cbv zeta.
  unfold ConfidenceScorer.get_review_candidates.
  set (limit := match threshold with Some t => t | None => confidence_threshold end).
  rewrite (fold_append_filter _ _ (fun kv => Qltb (snd kv) limit)
             (fun kv => {| ConfidenceScorer.rc_field := fst kv;
                           ConfidenceScorer.rc_confidence := snd kv;
                           ConfidenceScorer.rc_reason :=
                             ConfidenceScorer._get_review_reason (snd kv);
                           ConfidenceScorer.rc_priority :=
                             ConfidenceScorer._get_review_priority (snd kv) |})).
  cbn [app].
  set (below := filter (fun kv => Qltb (snd kv) limit) field_scores).
  set (made := map _ below).
  destruct (sort_candidates_spec made) as [P S].
  split; [|split; [exact S|]].
  - eapply Permutation_trans; [apply Permutation_map, P|].
    subst made. rewrite map_map. cbn [ConfidenceScorer.rc_field ConfidenceScorer.rc_confidence].
    assert (E : map (fun x : string * Q => (fst x, snd x)) below = below).
    { rewrite <- (map_id below) at 2. apply map_ext. intros [k v]. reflexivity. }
    rewrite E. apply Permutation_refl.
  - apply Forall_forall. intros c Hc.
    apply (Permutation_in _ P) in Hc. subst made. apply in_map_iff in Hc.
    destruct Hc as [[k v] [<- Hkv]]. cbn [ConfidenceScorer.rc_confidence
      ConfidenceScorer.rc_reason ConfidenceScorer.rc_priority snd].
    split; [|split; reflexivity].
    subst below. apply filter_In in Hkv. destruct Hkv as [_ Hkv].
    apply Qltb_true, Hkv.
Qed.

Lemma ratio_bounds : forall a b : Z, 0 <= a -> a <= b -> 0 < b ->
  (0 <= inject_Z a / inject_Z b <= 1)%Q.
Proof.
  intros a b Ha Hab Hb.
  assert (Pb : (0 < inject_Z b)%Q) by (unfold Qlt, inject_Z; simpl; lia).
  split.
  - apply Qle_shift_div_l; [exact Pb|]. rewrite Qmult_0_l.
    unfold Qle, inject_Z. simpl. lia.
  - apply Qle_shift_div_r; [exact Pb|]. rewrite Qmult_1_l.
    rewrite <- Zle_Qle. exact Hab.
Qed.

Lemma completion_loop : forall (extracted : json) (fields : dict schema)
    (st : ConfidenceScorer.counters) (n : Z),
  counted n st ->
  counted (n + Z.of_nat (List.length fields))
    (fold_left
       (fun st kv =>
          let field_path := fst kv in
          let field_schema := snd kv in
          let field_value := Nested.get_nested_value extracted field_path JNull in
          let st :=
            if ConfidenceScorer.is_required field_schema then
              {| ConfidenceScorer.n_completed_fields := ConfidenceScorer.n_completed_fields st;
                 ConfidenceScorer.n_required_fields :=
                   ConfidenceScorer.n_required_fields st + 1;
                 ConfidenceScorer.n_completed_required :=
                   if negb (is_none field_value)
                   then ConfidenceScorer.n_completed_required st + 1
                   else ConfidenceScorer.n_completed_required st |}
            else st in
          if negb (is_none field_value) then
            {| ConfidenceScorer.n_completed_fields :=
                 ConfidenceScorer.n_completed_fields st + 1;
               ConfidenceScorer.n_required_fields := ConfidenceScorer.n_required_fields st;
               ConfidenceScorer.n_completed_required :=
                 ConfidenceScorer.n_completed_required st |}
          else st)
       fields st).
Proof.
  intros extracted fields. induction fields as [|[k v] fields IH]; intros st n H.
  - simpl. rewrite Z.add_0_r. exact H.
  - cbn [fold_left]. replace (n + Z.of_nat (List.length ((k, v) :: fields)))
      with ((n + 1) + Z.of_nat (List.length fields)) by (simpl List.length; lia).
    apply IH. unfold counted in *. cbv zeta. cbn [fst snd].
    destruct (ConfidenceScorer.is_required v);
      destruct (is_none (Nested.get_nested_value extracted k JNull));
      cbn [negb ConfidenceScorer.n_completed_fields ConfidenceScorer.n_required_fields
           ConfidenceScorer.n_completed_required]; lia.
Qed.

(** X23.  The completion metrics are coherent: the total is the number of
    paths of the flattened schema; the completed required fields are among
    the required and among the completed ones, which are among all; and the
    two rates lie between 0 and 1. *)
Theorem completion_metrics_bounds : forall (extracted : json) (s : schema),
  let m := ConfidenceScorer._calculate_completion_metrics extracted s in
  ConfidenceScorer.total_fields m = Z.of_nat (List.length (Utils.flatten_schema s "")) /\
  0 <= ConfidenceScorer.completed_required m /\
  ConfidenceScorer.completed_required m <= ConfidenceScorer.required_fields m /\
  ConfidenceScorer.required_fields m <= ConfidenceScorer.total_fields m /\
  ConfidenceScorer.completed_required m <= ConfidenceScorer.completed_fields m /\
  ConfidenceScorer.completed_fields m <= ConfidenceScorer.total_fields m /\
  (0 <= ConfidenceScorer.completion_rate m <= 1)%Q /\
  (0 <= ConfidenceScorer.required_completion_rate m <= 1)%Q.
Proof.
  intros extracted s. cbv zeta. unfold ConfidenceScorer._calculate_completion_metrics.
  set (fields := Utils.flatten_schema s "").
  set (st0 := {| ConfidenceScorer.n_completed_fields := 0;
                 ConfidenceScorer.n_required_fields := 0;
                 ConfidenceScorer.n_completed_required := 0 |}).
  assert (H0 : counted 0 st0) by (unfold counted; simpl; lia).
  pose proof (completion_loop extracted fields st0 0 H0) as H.
  rewrite Z.add_0_l in H. cbv zeta in H.
  set (st := fold_left _ fields st0) in *.
  set (n := Z.of_nat (List.length fields)) in *.
  destruct H as [H1 [H2 [H3 [H4 H5]]]].
  cbn [ConfidenceScorer.total_fields ConfidenceScorer.completed_fields
       ConfidenceScorer.required_fields ConfidenceScorer.completed_required
       ConfidenceScorer.completion_rate ConfidenceScorer.required_completion_rate].
  repeat (split; [assumption || reflexivity|]).
  split.
  - destruct (Z.gtb_spec n 0) as [G|G]; [apply ratio_bounds; lia|].
    split; unfold Qle; simpl; lia.
  - destruct (Z.gtb_spec (ConfidenceScorer.n_required_fields st) 0) as [G|G];
      [apply ratio_bounds; lia|].
    split; unfold Qle; simpl; lia.
Qed.

(** ** confidence_scorer.py: the score of an extraction *)

Lemma score_field_unit : forall re_match v s ctx r,
  ConfidenceScorer.score_field re_match v s ctx = Ok r -> (0 <= r <= 1)%Q.
Proof.
  intros re_match v s ctx r. unfold ConfidenceScorer.score_field. destruct (is_none v).
  - destruct (ConfidenceScorer.is_required s); intro H; injection H as <-; split; discriminate.
  - destruct (ConfidenceScorer._score_data_type v s); [|discriminate].
    destruct (ConfidenceScorer._score_pattern_match re_match v s); [|discriminate].
    destruct (ConfidenceScorer._score_range_validation v s); [|discriminate].
    destruct (ConfidenceScorer._score_length_validation v s); [|discriminate].
    simpl. intro H. injection H as <-. apply clamp_bounds.
Qed.

(** A dict of scores built field by field has the keys of the fields, in
    their order, and only values that the scoring function returned. *)
Lemma scores_of_fields : forall (f : string * schema -> result Q) (P : Q -> Prop)
    (fields : dict schema) (acc r : dict Q),
  (forall kv v, f kv = Ok v -> P v) ->
  NoDup (dict_keys acc ++ dict_keys fields) ->
  Forall (fun kv => P (snd kv)) acc ->
  fold_left
    (fun acc kv => scores <- acc ;; score <- f kv ;; Ok (dict_set (fst kv) score scores))
    fields (Ok acc) = Ok r ->
  dict_keys r = (dict_keys acc ++ dict_keys fields)%list /\
  Forall (fun kv => P (snd kv)) r.
Proof.
  intros f P fields. induction fields as [|[k s] fields IH]; intros acc r Hf Hn Ha H.
  - simpl in H. injection H as <-. simpl. rewrite app_nil_r. split; [reflexivity|exact Ha].
  - cbn [fold_left bind] in H. destruct (f (k, s)) as [v|e] eqn:E.
    + cbn [bind fst] in H.
      assert (Hk : ~ In k (dict_keys acc)).
      { intro I. apply NoDup_remove_2 in Hn. apply Hn. apply in_app_iff. left. exact I. }
      rewrite (dict_set_fresh _ k v acc Hk) in H.
      destruct (IH (acc ++ [(k, v)])%list r Hf) as [K F]; [| |exact H|].
      * unfold dict_keys in *. rewrite map_app. simpl. rewrite <- app_assoc. exact Hn.
      * apply Forall_app. split; [exact Ha|]. constructor; [|constructor].
        apply (Hf (k, s) v E).
      * split; [|exact F]. rewrite K. unfold dict_keys. rewrite map_app, <- app_assoc.
        reflexivity.
    + cbn [bind] in H.
      rewrite (fold_result_raise _ _
                 (fun acc kv => scores <- acc ;; score <- f kv ;;
                                Ok (dict_set (fst kv) score scores)))
        in H; [discriminate|reflexivity].
Qed.

(** X24.  What [score_extraction] returns is coherent: the overall
    confidence and every field score lie between 0 and 1; the fields scored
    are the paths of the flattened schema, in their order; a validation
    error is reported exactly when the result is not valid; and for a schema
    without field the overall confidence is 0.0. *)
Theorem score_extraction_bounds :
  forall (re_match : string -> string -> option bool)
         (validate : json -> schema -> Utils.validation) (confidence_threshold : Q)
         (extracted : json) (s : schema) (text : string)
         (es : ConfidenceScorer.extraction_score),
  ConfidenceScorer.score_extraction re_match validate confidence_threshold extracted s text
    = Ok es ->
  (0 <= ConfidenceScorer.es_overall es <= 1)%Q /\
  dict_keys (ConfidenceScorer.es_fields es) = dict_keys (Utils.flatten_schema s "") /\
  Forall (fun kv => (0 <= snd kv <= 1)%Q) (ConfidenceScorer.es_fields es) /\
  (ConfidenceScorer.es_validation_error es = None <->
   ConfidenceScorer.es_schema_valid es = true) /\
  (Utils.flatten_schema s "" = [] -> ConfidenceScorer.es_overall es = 0.0%Q).
Proof.
  intros re_match validate threshold extracted s text es H.
  unfold ConfidenceScorer.score_extraction in H.
  destruct (Utils.validate_json_against_schema validate extracted s) as [[valid err]|e];
    [|discriminate].
  cbn [bind fst snd] in H.
  destruct (ConfidenceScorer._calculate_field_scores re_match extracted s text)
    as [scores|e] eqn:Es; [|discriminate].
  cbn [bind] in H.
  destruct (ConfidenceScorer._calculate_consistency_scores extracted s) as [cons|e];
    [|discriminate].
  cbn [bind] in H. injection H as <-.
  cbn [ConfidenceScorer.es_overall ConfidenceScorer.es_fields
       ConfidenceScorer.es_validation_error ConfidenceScorer.es_schema_valid].
  unfold ConfidenceScorer._calculate_field_scores in Es.
  destruct (scores_of_fields
              (fun kv => ConfidenceScorer.score_field re_match
                           (Nested.get_nested_value extracted (fst kv) JNull) (snd kv)
                           {| ConfidenceScorer.original_text := Some text |})
              (fun v => (0 <= v <= 1)%Q) (Utils.flatten_schema s "") [] scores)
    as [K F].
  - intros kv v Hv. apply (score_field_unit _ _ _ _ _ Hv).
  - apply flatten_keys_nodup.
  - constructor.
  - exact Es.
  - split; [|split; [exact K|split; [exact F|split]]].
    + unfold ConfidenceScorer._calculate_overall_confidence.
      destruct scores; [split; discriminate|apply clamp_bounds].
    + destruct valid; simpl; split; congruence.
    + intro E. rewrite E in K. destruct scores; [reflexivity|discriminate].
Qed.

Lemma score_extraction_bounds_witness :
  exists es,
    ConfidenceScorer.score_extraction (fun _ _ => Some true) (fun _ _ => Utils.Valid) 0.7%Q
      (JDict [("name", JStr "Ann"); ("address", JDict [("city", JStr "Oslo")])])
      person_schema "Ann lives in Oslo." = Ok es /\
    (0 <= ConfidenceScorer.es_overall es <= 1)%Q /\
    dict_keys (ConfidenceScorer.es_fields es) = ["name"; "address.city"; "address.zip"].
Proof.
  destruct (ConfidenceScorer.score_extraction (fun _ _ => Some true)
              (fun _ _ => Utils.Valid) 0.7%Q
              (JDict [("name", JStr "Ann"); ("address", JDict [("city", JStr "Oslo")])])
              person_schema "Ann lives in Oslo.") as [es|e] eqn:E;
    [|vm_compute in E; discriminate E].
  exists es. split; [reflexivity|].
  destruct (score_extraction_bounds _ _ _ _ _ _ es E) as [H1 [H2 _]].
  split; [exact H1|exact H2].
Defined.

(** ** extraction_engine.py: the confidence of a reply *)

Lemma unit_scale : forall c f : Q, (0 <= c <= 1)%Q -> (0 <= f <= 1)%Q -> (0 <= c * f <= 1)%Q.
Proof.
  intros c f [C0 C1] [F0 F1]. split.
  - apply Qmult_le_0_compat; assumption.
  - apply Qle_trans with (1 * f)%Q; [apply Qmult_le_compat_r; assumption|].
    rewrite Qmult_1_l. exact F1.
Qed.

Lemma unit_scale_if : forall (b : bool) (c f : Q),
  (0 <= c <= 1)%Q -> (0 <= f <= 1)%Q -> (0 <= (if b then c * f else c) <= 1)%Q.
Proof. intros [|] c f C F; [apply unit_scale; assumption|exact C]. Qed.

Lemma field_confidence_unit :
  forall (re_match : string -> string -> option bool) (str_of_json : json -> string)
         (extracted : json) (field_path : string) (field_schema : schema) (text : string)
         (r : Q),
  ExtractionEngine._calculate_field_confidence re_match str_of_json extracted field_path
    field_schema text = Ok r ->
  (0 <= r <= 1)%Q.
Proof.
  intros re_match str_of_json extracted field_path field_schema text r.
  unfold ExtractionEngine._calculate_field_confidence.
  assert (U1 : (0 <= 1.0 <= 1)%Q) by (split; discriminate).
  assert (F6 : (0 <= 0.6 <= 1)%Q) by (split; discriminate).
  assert (F4 : (0 <= 0.4 <= 1)%Q) by (split; discriminate).
  assert (F7 : (0 <= 0.7 <= 1)%Q) by (split; discriminate).
  assert (F5 : (0 <= 0.5 <= 1)%Q) by (split; discriminate).
  destruct (is_none _).
  { destruct (ConfidenceScorer.is_required field_schema); intro H; injection H as <-;
      split; discriminate. }
  set (c0 := 1.0%Q) in *.
  match goal with
  | |- bind ?m _ = _ -> _ =>
      assert (S1 : forall c1, m = Ok c1 -> (0 <= c1 <= 1)%Q)
  end.
  { intros c1. destruct (attr "type" field_schema) as [t|].
    - destruct (truthy t).
      + destruct (ExtractionEngine._validate_type _ t) as [valid|e]; [|discriminate].
        cbn [bind]. intro H. injection H as <-.
        destruct valid; cbn [negb]; [exact U1|apply unit_scale; assumption].
      + intro H. injection H as <-. exact U1.
    - intro H. injection H as <-. exact U1. }
  match goal with
  | |- bind ?m _ = _ -> _ => destruct m as [c1|e]; [|discriminate]
  end.
  specialize (S1 c1 eq_refl). cbn [bind].
  set (c2 := match enum field_schema with
             | Some enum_values =>
                 if negb (existsb (py_eq _) enum_values) then (c1 * 0.4)%Q else c1
             | None => c1
             end).
  assert (S2 : (0 <= c2 <= 1)%Q).
  { subst c2. destruct (enum field_schema); [|exact S1]. apply unit_scale_if; assumption. }
  clearbody c2.
  match goal with
  | |- bind ?m _ = _ -> _ =>
      assert (S3 : forall c3, m = Ok c3 -> (0 <= c3 <= 1)%Q)
  end.
  { intros c3. destruct (attr "type" field_schema) as [t|];
      [|intro H; injection H as <-; exact S2].
    destruct (attr "pattern" field_schema) as [pattern|];
      [|intro H; injection H as <-; exact S2].
    destruct (py_eq t (JStr "string")); [|intro H; injection H as <-; exact S2].
    destruct pattern; try discriminate.
    destruct (re_match _ _) as [[|]|]; try discriminate; intro H; injection H as <-;
      [exact S2|apply unit_scale; assumption]. }
  match goal with
  | |- bind ?m _ = _ -> _ => destruct m as [c3|e]; [|discriminate]
  end.
  specialize (S3 c3 eq_refl). cbn [bind].
  destruct (match attr "type" field_schema with
            | Some t => _
            | None => false
            end); [|intro H; injection H as <-; exact S3].
  match goal with
  | |- bind ?m _ = _ -> _ => destruct m as [below|e]; [|discriminate]
  end.
  cbn [bind].
  match goal with
  | |- bind ?m _ = _ -> _ => destruct m as [above|e]; [|discriminate]
  end.
  cbn [bind]. intro H. injection H as <-.
  apply unit_scale_if; [|exact F5]. apply unit_scale_if; assumption.
Qed.

Lemma sum_bounds : forall (l : list Q) (acc : Q),
  Forall (fun v => (0 <= v <= 1)%Q) l ->
  (acc <= fold_left Qplus l acc <= acc + inject_Z (Z.of_nat (List.length l)))%Q.
Proof.
  induction l as [|v l IH]; intros acc H.
  - simpl. split; [apply Qle_refl|]. rewrite Qplus_0_r. apply Qle_refl.
  - inversion H as [|? ? [V0 V1] Hl]; subst. cbn [fold_left].
    destruct (IH (acc + v)%Q Hl) as [L U]. split.
    + eapply Qle_trans; [|exact L]. rewrite <- (Qplus_0_r acc) at 1.
      apply Qplus_le_compat; [apply Qle_refl|exact V0].
    + eapply Qle_trans; [exact U|].
      replace (Z.of_nat (List.length (v :: l))) with (1 + Z.of_nat (List.length l))
        by (simpl List.length; lia).
      rewrite inject_Z_plus, Qplus_assoc.
      apply Qplus_le_compat; [|apply Qle_refl].
      apply Qplus_le_compat; [apply Qle_refl|exact V1].
Qed.

Lemma mean_unit : forall (scores : dict Q),
  scores <> [] -> Forall (fun kv => (0 <= snd kv <= 1)%Q) scores ->
  (0 <= fold_left Qplus (map snd scores) 0 / inject_Z (Z.of_nat (List.length scores)) <= 1)%Q.
Proof.
  intros scores Hne H.
  assert (Hm : Forall (fun v => (0 <= v <= 1)%Q) (map snd scores)).
  { apply Forall_forall. intros v Hv. apply in_map_iff in Hv.
    destruct Hv as [kv [<- Hkv]]. rewrite Forall_forall in H. apply (H kv Hkv). }
  destruct (sum_bounds (map snd scores) 0 Hm) as [L U].
  rewrite length_map, Qplus_0_l in U.
  assert (P : (0 < inject_Z (Z.of_nat (List.length scores)))%Q).
  { destruct scores; [congruence|]. unfold Qlt, inject_Z. simpl. lia. }
  split.
  - apply Qle_shift_div_l; [exact P|]. rewrite Qmult_0_l. exact L.
  - apply Qle_shift_div_r; [exact P|]. rewrite Qmult_1_l. exact U.
Qed.

(** X25.  The confidence that the engine computes for a reply is coherent:
    the fields scored are the paths of the flattened schema, in their
    order; every field confidence and the overall confidence lie between 0
    and 1; and for a schema without field the overall confidence is 0.8 when
    the reply is valid and 0.3 when it is not. *)
Theorem engine_confidence_bounds :
  forall (validate : json -> schema -> Utils.validation)
         (re_match : string -> string -> option bool) (str_of_json : json -> string)
         (extracted : json) (s : schema) (text : string) (c : ExtractionEngine.confidence),
  ExtractionEngine.calculate_confidence validate re_match str_of_json extracted s text
    = Ok c ->
  dict_keys (ExtractionEngine.fields c) = dict_keys (Utils.flatten_schema s "") /\
  Forall (fun kv => (0 <= snd kv <= 1)%Q) (ExtractionEngine.fields c) /\
  (0 <= ExtractionEngine.overall c <= 1)%Q /\
  (Utils.flatten_schema s "" = [] ->
   ExtractionEngine.overall c =
   if match validate extracted s with Utils.Valid => true | _ => false end
   then 0.8%Q else 0.3%Q).
Proof.
  intros validate re_match str_of_json extracted s text c H.
  unfold ExtractionEngine.calculate_confidence, Utils.validate_json_against_schema in H.
  assert (V : exists valid err,
            match validate extracted s with
            | Utils.Valid => Ok (true, "")
            | Utils.ValidationError e => Ok (false, e)
            | Utils.SchemaError e => Raise (OtherError e)
            end = Ok (valid, err) /\
            valid = match validate extracted s with Utils.Valid => true | _ => false end).
  { destruct (validate extracted s); try discriminate; eexists; eexists; split; reflexivity. }
  destruct V as [valid [err [V1 V2]]]. rewrite V1 in H. cbn [bind fst snd] in H.
  match type of H with
  | bind ?m _ = _ => destruct m as [scores|e] eqn:Es; [|discriminate]
  end.
  cbn [bind] in H. injection H as <-.
  cbn [ExtractionEngine.fields ExtractionEngine.overall].
  destruct (scores_of_fields
              (fun kv => ExtractionEngine._calculate_field_confidence re_match str_of_json
                           extracted (fst kv) (snd kv) text)
              (fun v => (0 <= v <= 1)%Q) (Utils.flatten_schema s "") [] scores)
    as [K F].
  - intros kv v Hv. apply (field_confidence_unit _ _ _ _ _ _ _ Hv).
  - apply flatten_keys_nodup.
  - constructor.
  - exact Es.
  - split; [exact K|]. split; [exact F|]. split.
    + destruct scores as [|kv rest] eqn:E.
      * destruct valid; split; discriminate.
      * rewrite <- E in *. apply mean_unit; [rewrite E; discriminate|exact F].
    + intro E. rewrite E in K. destruct scores; [|discriminate].
      rewrite V2. reflexivity.
Qed.

Lemma engine_confidence_bounds_witness :
  exists c,
    ExtractionEngine.calculate_confidence (fun _ _ => Utils.Valid) (fun _ _ => Some true)
      (fun _ => "") (JDict [("name", JStr "Ann")]) person_schema "Ann lives in Oslo."
    = Ok c /\
    dict_keys (ExtractionEngine.fields c) = ["name"; "address.city"; "address.zip"] /\
    (0 <= ExtractionEngine.overall c <= 1)%Q.
Proof.
  destruct (ExtractionEngine.calculate_confidence (fun _ _ => Utils.Valid)
              (fun _ _ => Some true) (fun _ => "") (JDict [("name", JStr "Ann")])
              person_schema "Ann lives in Oslo.") as [c|e] eqn:E;
    [|vm_compute in E; discriminate E].
  exists c. split; [reflexivity|].
  destruct (engine_confidence_bounds _ _ _ _ _ _ c E) as [H1 [_ [H3 _]]].
  split; [exact H1|exact H3].
Defined.

(** ** extraction_engine.py: errors of the single pass and of the chunked pass *)

Lemma scoring_raises : forall (f : string * schema -> result Q) (fields : dict schema)
    (acc : dict Q),
  (exists kv e, In kv fields /\ f kv = Raise e) ->
  exists e,
    fold_left
      (fun acc kv => scores <- acc ;; score <- f kv ;; Ok (dict_set (fst kv) score scores))
      fields (Ok acc) = Raise e.
Proof.
  intros f fields. induction fields as [|kv0 fields IH]; intros acc [kv [e [Hin He]]].
  - destruct Hin.
  - cbn [fold_left bind]. destruct (f kv0) as [v|e0] eqn:E0; cbn [bind].
    + apply IH. exists kv, e. split; [|exact He].
      destruct Hin as [->|Hin]; [congruence|exact Hin].
    + exists e0.
      apply (fold_result_raise _ _
               (fun acc kv => scores <- acc ;; score <- f kv ;;
                              Ok (dict_set (fst kv) score scores))).
      reflexivity.
Qed.

(** X26.  The single pass discards a reply that it cannot score: when a
    field of the schema has a ['type'] that is a non-empty list or a dict
    and the reply holds a value for that field, [extract_simple] returns
    empty data with zero confidence and the text of the exception, although
    the model call and the parsing succeeded. *)
Theorem single_pass_discards_unscored_reply :
  forall (validate : json -> schema -> Utils.validation)
         (re_match : string -> string -> option bool) (str_of_json : json -> string)
         (str_of_exn : exn -> string)
         (chat_completion : string -> string -> result ExtractionEngine.response)
         (json_loads : string -> result json)
         (_build_extraction_prompt :
            string -> schema -> ExtractionEngine.prompt_context -> string)
         (text : string) (s : schema) (response : ExtractionEngine.response)
         (payload : json) (field_path : string) (field_schema : schema)
         (expected_type : json),
  ExtractionEngine.ask chat_completion json_loads ExtractionEngine.simple_system_message
    (_build_extraction_prompt text s ExtractionEngine.NoContext) = Ok (response, payload) ->
  In (field_path, field_schema) (Utils.flatten_schema s "") ->
  attr "type" field_schema = Some expected_type ->
  truthy expected_type = true -> hashable expected_type = false ->
  is_none (Nested.get_nested_value payload field_path JNull) = false ->
  exists e : exn,
    ExtractionEngine.extract_simple validate re_match str_of_json str_of_exn
      chat_completion json_loads _build_extraction_prompt text s
    = {| ExtractionEngine.sr_data := JDict [];
         ExtractionEngine.sr_confidence := ExtractionEngine.no_confidence;
         ExtractionEngine.sr_strategy := SchemaAnalyzer.single_pass;
         ExtractionEngine.sr_token_usage := None;
         ExtractionEngine.sr_error := Some (str_of_exn e) |}.
Proof.
  intros validate re_match str_of_json str_of_exn chat_completion json_loads prompt
    text s response payload field_path field_schema expected_type Hask Hin Ht Htr Hh Hv.
  unfold ExtractionEngine.extract_simple. rewrite Hask. cbn [bind fst snd].
  assert (R : exists e, ExtractionEngine.calculate_confidence validate re_match str_of_json
                          payload s text = Raise e).
  { unfold ExtractionEngine.calculate_confidence.
    destruct (Utils.validate_json_against_schema validate payload s) as [v|e];
      [|exists e; reflexivity].
    cbn [bind].
    destruct (scoring_raises
                (fun kv => ExtractionEngine._calculate_field_confidence re_match str_of_json
                             payload (fst kv) (snd kv) text)
                (Utils.flatten_schema s "") []) as [e He].
    - exists (field_path, field_schema), TypeError. split; [exact Hin|].
      cbn [fst snd]. unfold ExtractionEngine._calculate_field_confidence.
      rewrite Hv, Ht, Htr. unfold ExtractionEngine._validate_type. rewrite Hh. reflexivity.
    - exists e. cbv zeta.
      match goal with
      | |- bind ?m _ = _ => assert (Hm : m = Raise e) by exact He; rewrite Hm
      end.
      reflexivity. }
  destruct R as [e R]. rewrite R. exists e. reflexivity.
Qed.

Lemma single_pass_discards_unscored_reply_witness :
  exists e : exn,
    ExtractionEngine.extract_simple (fun _ _ => Utils.Valid) (fun _ _ => Some true)
      (fun _ => "") show_exn
      (fun _ _ => Ok {| ExtractionEngine.content := ""; ExtractionEngine.usage := Some 12 |})
      (fun _ => Ok (JDict [("name", JStr "Ann")])) plain_prompt "Ann lives in Oslo."
      (Node [] None None
         (Some [("name", Node [("type", JList [JStr "string"; JStr "null"])]
                           None None None None)]) None)
    = {| ExtractionEngine.sr_data := JDict [];
         ExtractionEngine.sr_confidence := ExtractionEngine.no_confidence;
         ExtractionEngine.sr_strategy := SchemaAnalyzer.single_pass;
         ExtractionEngine.sr_token_usage := None;
         ExtractionEngine.sr_error := Some (show_exn e) |}.
Proof.
  apply (single_pass_discards_unscored_reply (fun _ _ => Utils.Valid) (fun _ _ => Some true)
           (fun _ => "") show_exn
           (fun _ _ => Ok {| ExtractionEngine.content := "";
                             ExtractionEngine.usage := Some 12 |})
           (fun _ => Ok (JDict [("name", JStr "Ann")])) plain_prompt "Ann lives in Oslo."
           (Node [] None None
              (Some [("name", Node [("type", JList [JStr "string"; JStr "null"])]
                                None None None None)]) None)
           {| ExtractionEngine.content := ""; ExtractionEngine.usage := Some 12 |}
           (JDict [("name", JStr "Ann")]) "name"
           (Node [("type", JList [JStr "string"; JStr "null"])] None None None None)
           (JList [JStr "string"; JStr "null"]));
    try reflexivity.
  left. reflexivity.
Defined.

Lemma chunk_step_results : forall
    (chat_completion : string -> string -> result ExtractionEngine.response)
    (json_loads : string -> result json) (json_dumps : json -> string)
    (str_of_int : Z -> string) (str_of_exn : exn -> string)
    (calculate_confidence : json -> schema -> string -> result ExtractionEngine.confidence)
    (_build_extraction_prompt :
       string -> schema -> ExtractionEngine.prompt_context -> string)
    (text : string) (st : ExtractionEngine.complex_state)
    (chunk : SchemaAnalyzer.schema_chunk),
  exists more,
    ExtractionEngine.results
      (ExtractionEngine.chunk_step chat_completion json_loads json_dumps str_of_int
         str_of_exn calculate_confidence _build_extraction_prompt text st chunk)
    = (ExtractionEngine.results st ++ more)%list.
Proof.
  intros. unfold ExtractionEngine.chunk_step, ExtractionEngine.try_chunk.
  destruct (ExtractionEngine.ask _ _ _ _) as [[response payload]|e].
  - destruct (calculate_confidence _ _ _) as [c|e].
    + destruct payload; cbn [ExtractionEngine.results]; try (rewrite <- app_assoc);
        eexists; reflexivity.
    + cbn [ExtractionEngine.results]. eexists. reflexivity.
  - cbn [ExtractionEngine.results]. eexists. reflexivity.
Qed.

Lemma chunk_loop_results : forall
    (chat_completion : string -> string -> result ExtractionEngine.response)
    (json_loads : string -> result json) (json_dumps : json -> string)
    (str_of_int : Z -> string) (str_of_exn : exn -> string)
    (calculate_confidence : json -> schema -> string -> result ExtractionEngine.confidence)
    (_build_extraction_prompt :
       string -> schema -> ExtractionEngine.prompt_context -> string)
    (text : string) (chunks : list SchemaAnalyzer.schema_chunk)
    (st : ExtractionEngine.complex_state),
  exists more,
    ExtractionEngine.results
      (fold_left
         (ExtractionEngine.chunk_step chat_completion json_loads json_dumps str_of_int
            str_of_exn calculate_confidence _build_extraction_prompt text) chunks st)
    = (ExtractionEngine.results st ++ more)%list.
Proof.
  intros until chunks. induction chunks as [|chunk chunks IH]; intro st; cbn [fold_left].
  - exists []. rewrite app_nil_r. reflexivity.
  - destruct (IH (ExtractionEngine.chunk_step chat_completion json_loads json_dumps
                    str_of_int str_of_exn calculate_confidence _build_extraction_prompt
                    text st chunk)) as [more E].
    destruct (chunk_step_results chat_completion json_loads json_dumps str_of_int
                str_of_exn calculate_confidence _build_extraction_prompt text st chunk)
      as [more0 E0].
    rewrite E, E0, <- app_assoc. eexists. reflexivity.
Qed.

Lemma merge_raises : forall (entries : list ExtractionEngine.chunk_entry)
    (acc : dict json * dict Q),
  Exists (fun entry => is_dict (ExtractionEngine.entry_data entry) = false) entries ->
  fold_left
    (fun acc entry =>
       m <- acc ;;
       match ExtractionEngine.entry_data entry with
       | JDict d =>
           Ok (Nested.merge_dicts_deep (fst m) d,
               dict_update (snd m)
                 (ExtractionEngine.fields (ExtractionEngine.entry_confidence entry)))
       | _ => Raise AttributeError
       end)
    entries (Ok acc) = Raise AttributeError.
Proof.
  intros entries. induction entries as [|entry entries IH]; intros acc H.
  - inversion H.
  - cbn [fold_left bind].
    match goal with
    | |- fold_left ?g _ _ = _ =>
        assert (G : forall l, fold_left g l (Raise AttributeError) = Raise AttributeError)
          by (intro l; apply (fold_result_raise _ _ g); reflexivity)
    end.
    destruct (ExtractionEngine.entry_data entry) eqn:D; try apply G.
    apply IH. inversion H as [? ? H0|? ? H0]; subst; [|exact H0].
    rewrite D in H0. discriminate H0.
Qed.

(** X27.  A reply that is no JSON object stops the chunked pass.  When, in
    the run over the sorted chunks, the call for one chunk is answered and
    the reply parses to a list, a string, a number or [null] and is scored,
    the chunk leaves two entries: the one appended inside the [try], which
    holds the parsed reply, and the error entry of the [AttributeError] that
    [merge_dicts_deep] raises on it; the token count and the context are as
    they were.  The final merge over the results, outside any [try], then
    raises [AttributeError], whatever the other chunks return. *)
Theorem chunked_pass_raises_on_non_object :
  forall (chat_completion : string -> string -> result ExtractionEngine.response)
         (json_loads : string -> result json) (json_dumps : json -> string)
         (str_of_int : Z -> string) (str_of_exn : exn -> string)
         (calculate_confidence :
            json -> schema -> string -> result ExtractionEngine.confidence)
         (_build_extraction_prompt :
            string -> schema -> ExtractionEngine.prompt_context -> string)
         (text : string) (schema_chunks before after : list SchemaAnalyzer.schema_chunk)
         (chunk : SchemaAnalyzer.schema_chunk)
         (response : ExtractionEngine.response) (payload : json)
         (c : ExtractionEngine.confidence),
  let step :=
    ExtractionEngine.chunk_step chat_completion json_loads json_dumps str_of_int str_of_exn
      calculate_confidence _build_extraction_prompt text in
  let st :=
    fold_left step before
      {| ExtractionEngine.results := []; ExtractionEngine.total_tokens := 0;
         ExtractionEngine.previous_results := [] |} in
  ExtractionEngine.sorted_by ExtractionEngine.priority_rank schema_chunks
    = (before ++ chunk :: after)%list ->
  ExtractionEngine.ask chat_completion json_loads
    (ExtractionEngine.chunk_system_message str_of_int chunk)
    (ExtractionEngine.chunk_prompt json_dumps _build_extraction_prompt text chunk st)
    = Ok (response, payload) ->
  is_dict payload = false ->
  calculate_confidence payload (SchemaAnalyzer.chunk_schema_of chunk) text = Ok c ->
  step st chunk =
    {| ExtractionEngine.results :=
         (ExtractionEngine.results st ++
          [{| ExtractionEngine.entry_data := payload;
              ExtractionEngine.entry_confidence := c;
              ExtractionEngine.entry_chunk_id := SchemaAnalyzer.chunk_id chunk;
              ExtractionEngine.entry_priority := Some (SchemaAnalyzer.priority_of chunk);
              ExtractionEngine.entry_error := None |};
           ExtractionEngine.error_entry str_of_exn chunk AttributeError])%list;
       ExtractionEngine.total_tokens := ExtractionEngine.total_tokens st;
       ExtractionEngine.previous_results := ExtractionEngine.previous_results st |} /\
  ExtractionEngine.extract_complex chat_completion json_loads json_dumps str_of_int
    str_of_exn calculate_confidence _build_extraction_prompt text schema_chunks
  = Raise AttributeError.
Proof.
  intros chat_completion json_loads json_dumps str_of_int str_of_exn calculate_confidence
    prompt text schema_chunks before after chunk response payload c step st
    Hsorted Hask Hd Hc.
  assert (Hstep : step st chunk =
    {| ExtractionEngine.results :=
         (ExtractionEngine.results st ++
          [{| ExtractionEngine.entry_data := payload;
              ExtractionEngine.entry_confidence := c;
              ExtractionEngine.entry_chunk_id := SchemaAnalyzer.chunk_id chunk;
              ExtractionEngine.entry_priority := Some (SchemaAnalyzer.priority_of chunk);
              ExtractionEngine.entry_error := None |};
           ExtractionEngine.error_entry str_of_exn chunk AttributeError])%list;
       ExtractionEngine.total_tokens := ExtractionEngine.total_tokens st;
       ExtractionEngine.previous_results := ExtractionEngine.previous_results st |}).
  { subst step. unfold ExtractionEngine.chunk_step, ExtractionEngine.try_chunk.
    rewrite Hask, Hc.
    destruct payload; try discriminate Hd;
      cbn [ExtractionEngine.results ExtractionEngine.total_tokens
           ExtractionEngine.previous_results];
      rewrite <- app_assoc; reflexivity. }
  split; [exact Hstep|].
  unfold ExtractionEngine.extract_complex. rewrite Hsorted.
  match goal with
  | |- context [fold_left ?f (before ++ chunk :: after)%list ?s] =>
      rewrite (fold_left_app f before (chunk :: after) s);
      change (fold_left f (chunk :: after) (fold_left f before s))
        with (fold_left step after (step st chunk))
  end.
  rewrite Hstep.
  destruct (chunk_loop_results chat_completion json_loads json_dumps str_of_int str_of_exn
              calculate_confidence prompt text after
              {| ExtractionEngine.results :=
                   (ExtractionEngine.results st ++
                    [{| ExtractionEngine.entry_data := payload;
                        ExtractionEngine.entry_confidence := c;
                        ExtractionEngine.entry_chunk_id := SchemaAnalyzer.chunk_id chunk;
                        ExtractionEngine.entry_priority :=
                          Some (SchemaAnalyzer.priority_of chunk);
                        ExtractionEngine.entry_error := None |};
                     ExtractionEngine.error_entry str_of_exn chunk AttributeError])%list;
                 ExtractionEngine.total_tokens := ExtractionEngine.total_tokens st;
                 ExtractionEngine.previous_results := ExtractionEngine.previous_results st |})
    as [more E].
  fold step in E. rewrite E. cbn [ExtractionEngine.results].
  rewrite merge_raises; [reflexivity|].
  apply Exists_app. left. apply Exists_app. right. apply Exists_cons_hd. exact Hd.
Qed.

(** The chunk of the address is taken first and answered with an empty
    list; the chunk of the name, taken next, is answered with an object. *)
Lemma chunked_pass_raises_on_non_object_witness :
  ExtractionEngine.extract_complex address_call_gives_list parse_reply (fun _ => "")
    show_int show_exn
    (ExtractionEngine.calculate_confidence (fun _ _ => Utils.Valid) (fun _ _ => Some true)
       (fun _ => ""))
    plain_prompt "Ann lives in Oslo." [name_chunk; address_chunk]
  = Raise AttributeError.
Proof.
  destruct (ExtractionEngine.calculate_confidence (fun _ _ => Utils.Valid)
              (fun _ _ => Some true) (fun _ => "") (JList [])
              (SchemaAnalyzer.chunk_schema_of address_chunk) "Ann lives in Oslo.")
    as [c|e] eqn:E; [|vm_compute in E; discriminate E].
  apply (chunked_pass_raises_on_non_object address_call_gives_list parse_reply (fun _ => "")
           show_int show_exn
           (ExtractionEngine.calculate_confidence (fun _ _ => Utils.Valid)
              (fun _ _ => Some true) (fun _ => ""))
           plain_prompt "Ann lives in Oslo." [name_chunk; address_chunk]
           [] [name_chunk] address_chunk
           {| ExtractionEngine.content := "[]"; ExtractionEngine.usage := Some 7 |}
           (JList []) c).
  - reflexivity.
  - reflexivity.
  - reflexivity.
  - exact E.
Defined.

(** ** document_processor.py: the summary of the chunks *)

Lemma substring_length : forall (n : nat) (s : string),
  (String.length (substring 0 n s) <= n)%nat.
Proof.
  induction n as [|n IH]; intro s; destruct s as [|c s]; simpl; try lia.
  specialize (IH s). lia.
Qed.

Lemma append_length : forall a b : string,
  String.length (a ++ b) = (String.length a + String.length b)%nat.
Proof. induction a as [|c a IH]; intro b; simpl; [reflexivity|]. rewrite IH. reflexivity. Qed.

Lemma truncated_length : forall (n : nat) (s : string),
  str_len (if str_len s >? Z.of_nat n then substring 0 n s ++ "..." else s)
  <= Z.of_nat n + 3.
Proof.
  intros n s. destruct (Z.gtb_spec (str_len s) (Z.of_nat n)) as [G|G]; [|lia].
  unfold str_len. rewrite append_length. pose proof (substring_length n s). simpl. lia.
Qed.

(** X28.  A summary is short: [summarize_chunks] returns at most 2003
    characters, and at most 1003 for a single chunk, whose text it returns
    unchanged when that has 1000 characters or fewer; without chunks the
    summary is empty. *)
Theorem summary_is_bounded :
  forall (re_split : string -> string -> list string)
         (chunks : list DocumentProcessor.chunk),
  let summary := DocumentProcessor.summarize_chunks re_split chunks in
  str_len summary <= 2003 /\
  (chunks = [] -> summary = "") /\
  (forall only, chunks = [only] ->
     str_len summary <= 1003 /\
     (str_len (DocumentProcessor.text only) <= 1000 ->
      summary = DocumentProcessor.text only)).
Proof.
  intros re_split chunks. cbv zeta. unfold DocumentProcessor.summarize_chunks.
  destruct chunks as [|c [|c2 rest]].
  - split; [discriminate|]. split; [reflexivity|]. intros only E. discriminate.
  - pose proof (truncated_length 1000 (DocumentProcessor.text c)) as T.
    change (Z.of_nat 1000) with 1000 in T.
    split; [lia|]. split; [discriminate|]. intros only E. injection E as <-.
    split; [lia|]. intro L.
    destruct (Z.gtb_spec (str_len (DocumentProcessor.text c)) 1000); [lia|reflexivity].
  - match goal with
    | |- context [join " " ?parts] =>
        pose proof (truncated_length 2000 (join " " parts)) as T
    end.
    change (Z.of_nat 2000) with 2000 in T.
    split; [exact T|]. split; [discriminate|]. intros only E. discriminate.
Qed.

(** ** schema_analyzer.py: the complexity score grows with the metrics *)

(** X29.  The complexity score is monotone: of two sets of non-negative
    metrics, the one with the larger depth, field count, object count and
    enum count has the larger score, or the same. *)
Theorem complexity_score_monotone : forall m m' : SchemaAnalyzer.metrics,
  0 <= SchemaAnalyzer.max_depth m <= SchemaAnalyzer.max_depth m' ->
  0 <= SchemaAnalyzer.total_fields m <= SchemaAnalyzer.total_fields m' ->
  0 <= SchemaAnalyzer.object_count m <= SchemaAnalyzer.object_count m' ->
  0 <= SchemaAnalyzer.enum_complexity m <= SchemaAnalyzer.enum_complexity m' ->
  SchemaAnalyzer._calculate_complexity_score m
  <= SchemaAnalyzer._calculate_complexity_score m'.
Proof.
  intros [d f o e t r] [d' f' o' e' t' r']. simpl. intros Hd Hf Ho He.
  rewrite !score_closed by lia. unfold score_closed_form.
  assert (Z.min 1250 (f * 5) + Z.min 1000 e <= Z.min 1250 (f' * 5) + Z.min 1000 e') by lia.
  pose proof (Z.div_le_mono _ _ 50 ltac:(lia) H). lia.
Qed.

Lemma complexity_score_monotone_witness :
  SchemaAnalyzer._calculate_complexity_score
    {| SchemaAnalyzer.max_depth := 1; SchemaAnalyzer.total_fields := 30;
       SchemaAnalyzer.object_count := 2; SchemaAnalyzer.enum_complexity := 0;
       SchemaAnalyzer.estimated_tokens := 0; SchemaAnalyzer.required_fields := 0 |}
  <= SchemaAnalyzer._calculate_complexity_score
       {| SchemaAnalyzer.max_depth := 3; SchemaAnalyzer.total_fields := 45;
          SchemaAnalyzer.object_count := 2; SchemaAnalyzer.enum_complexity := 120;
          SchemaAnalyzer.estimated_tokens := 0; SchemaAnalyzer.required_fields := 0 |}.
Proof. apply complexity_score_monotone; simpl; lia. Defined.

(** ** document_processor.py: conflicts between numbers *)

Lemma py_eq_sym_hashable : forall a b,
  hashable a = true -> hashable b = true -> py_eq a b = py_eq b a.
Proof.
  intros a b Ha Hb. destruct a; destruct b; try discriminate; simpl;
    try reflexivity; try apply Qeq_bool_comm; apply String.eqb_sym.
Qed.

Lemma py_eq_trans_hashable : forall a b c,
  hashable a = true -> hashable b = true -> hashable c = true ->
  py_eq a b = true -> py_eq b c = true -> py_eq a c = true.
Proof.
  intros a b c Ha Hb Hc. destruct a; destruct b; try discriminate; simpl;
    destruct c; try discriminate; simpl; intros H1 H2; try reflexivity;
    try (eapply Qeq_bool_trans; eassumption).
  apply String.eqb_eq in H1, H2. subst. apply String.eqb_refl.
Qed.

Lemma py_eq_same_class : forall k v x,
  hashable k = true -> hashable v = true -> hashable x = true ->
  py_eq k v = true -> py_eq k x = py_eq v x.
Proof.
  intros k v x Hk Hv Hx E.
  destruct (py_eq k x) eqn:E1; destruct (py_eq v x) eqn:E2; try reflexivity.
  - rewrite (py_eq_sym_hashable k v Hk Hv) in E.
    rewrite (py_eq_trans_hashable v k x Hv Hk Hx E E1) in E2. discriminate.
  - rewrite (py_eq_trans_hashable k v x Hk Hv Hx E E2) in E1. discriminate.
Qed.

Lemma occurrences_snoc : forall v l x,
  occurrences v (l ++ [x]) = (occurrences v l + (if py_eq v x then 1 else 0))%nat.
Proof.
  intros v l x. unfold occurrences. rewrite filter_app, length_app. simpl.
  destruct (py_eq v x); reflexivity.
Qed.

Lemma occurrences_none : forall v l,
  (forall x, In x l -> py_eq v x = false) -> occurrences v l = O.
Proof.
  intros v l H. unfold occurrences. rewrite filter_none; [reflexivity|exact H].
Qed.

Lemma count_value_step : forall (seen : list json) (val : json) (counts : list (json * Z)),
  Forall (fun x => hashable x = true) seen -> hashable val = true ->
  counted_values seen counts ->
  counted_values (seen ++ [val]) (Merge.count_value val counts).
Proof.
  intros seen val counts Hs Hv [K A C]. rewrite Forall_forall in Hs.
  assert (Hk : forall k n, In (k, n) counts -> hashable k = true).
  { intros k n Hin. apply Hs. apply (K k n Hin). }
  (* where the value goes: a key equal to it, or the end of the list *)
  assert (W : (exists l1 k n l2,
                 counts = (l1 ++ (k, n) :: l2)%list /\ py_eq k val = true /\
                 (forall kn, In kn l1 -> py_eq (fst kn) val = false) /\
                 Merge.count_value val counts = (l1 ++ (k, n + 1) :: l2)%list) \/
              ((forall kn, In kn counts -> py_eq (fst kn) val = false) /\
               Merge.count_value val counts = (counts ++ [(val, 0 + 1)])%list)).
  { clear K A C Hk. induction counts as [|[k n] counts IH]; cbn [Merge.count_value].
    - right. split; [intros kn []|reflexivity].
    - destruct (py_eq k val) eqn:E.
      + left. exists [], k, n, counts. repeat split; auto. intros kn [].
      + destruct IH as [[l1 [k' [n' [l2 [E1 [E2 [E3 E4]]]]]]]|[E1 E2]].
        * left. exists ((k, n) :: l1), k', n', l2. rewrite E4, E1.
          repeat split; auto. intros kn [<-|Hin]; [exact E|apply E3, Hin].
        * right. rewrite E2. split; [|reflexivity].
          intros kn [<-|Hin]; [exact E|apply E1, Hin]. }
  destruct W as [[l1 [k [n [l2 [E1 [E2 [E3 E4]]]]]]]|[E1 E2]].
  - rewrite E4. subst counts.
    assert (Hkk : hashable k = true).
    { apply (Hk k n). apply in_app_iff. right. left. reflexivity. }
    assert (Other : forall k' n', In (k', n') (l1 ++ l2) -> py_eq k' val = false).
    { intros k' n' Hin. apply in_app_iff in Hin. destruct Hin as [Hin|Hin].
      - apply (E3 (k', n') Hin).
      - assert (Hk' : hashable k' = true).
        { apply (Hk k' n'). apply in_app_iff. right. right. exact Hin. }
        assert (D : py_eq k k' = false).
        { clear - A Hin. induction l1 as [|a l1 IH]; simpl in A.
          - inversion A as [|? ? F _]; subst. rewrite Forall_forall in F.
            apply (F (k', n') Hin).
          - inversion A; subst. apply IH. assumption. }
        destruct (py_eq k' val) eqn:X; [|reflexivity].
        rewrite (py_eq_sym_hashable k val Hkk Hv) in E2.
        rewrite (py_eq_sym_hashable k k' Hkk Hk') in D.
        rewrite (py_eq_trans_hashable k' val k Hk' Hv Hkk X E2) in D. discriminate. }
    split.
    + intros k0 n0 Hin. apply in_app_iff in Hin.
      rewrite occurrences_snoc.
      destruct Hin as [Hin|[Hin|Hin]].
      * destruct (K k0 n0) as [I N]; [apply in_app_iff; left; exact Hin|].
        split; [apply in_app_iff; left; exact I|].
        rewrite (Other k0 n0); [rewrite Nat.add_0_r; exact N|].
        apply in_app_iff. left. exact Hin.
      * injection Hin as <- <-.
        destruct (K k n) as [I N]; [apply in_app_iff; right; left; reflexivity|].
        split; [apply in_app_iff; left; exact I|]. rewrite E2, N. lia.
      * destruct (K k0 n0) as [I N]; [apply in_app_iff; right; right; exact Hin|].
        split; [apply in_app_iff; left; exact I|].
        rewrite (Other k0 n0); [rewrite Nat.add_0_r; exact N|].
        apply in_app_iff. right. exact Hin.
    + clear - A. induction l1 as [|a l1 IH]; simpl in *.
      * inversion A; subst. constructor; assumption.
      * inversion A as [|? ? F R]; subst. constructor; [|apply IH, R].
        rewrite Forall_forall in *. intros b Hb. apply in_app_iff in Hb.
        destruct Hb as [Hb|[<-|Hb]].
        -- apply F. apply in_app_iff. left. exact Hb.
        -- apply (F (k, n)). apply in_app_iff. right. left. reflexivity.
        -- apply F. apply in_app_iff. right. right. exact Hb.
    + intros x Hx. apply in_app_iff in Hx. destruct Hx as [Hx|[<-|[]]].
      * destruct (C x Hx) as [k0 [n0 [Hin E0]]]. apply in_app_iff in Hin.
        destruct Hin as [Hin|[Hin|Hin]].
        -- exists k0, n0. split; [apply in_app_iff; left; exact Hin|exact E0].
        -- injection Hin as <- <-. exists k, (n + 1).
           split; [apply in_app_iff; right; left; reflexivity|exact E0].
        -- exists k0, n0. split; [apply in_app_iff; right; right; exact Hin|exact E0].
      * exists k, (n + 1). split; [apply in_app_iff; right; left; reflexivity|exact E2].
  - rewrite E2.
    assert (Fresh : forall x, In x seen -> py_eq val x = false).
    { intros x Hx. destruct (C x Hx) as [k [n [Hin E]]].
      pose proof (E1 (k, n) Hin) as D. cbn [fst] in D.
      assert (Hkk : hashable k = true) by apply (Hk k n Hin).
      destruct (py_eq val x) eqn:X; [|reflexivity].
      rewrite (py_eq_sym_hashable val x Hv (Hs x Hx)) in X.
      rewrite (py_eq_trans_hashable k x val Hkk (Hs x Hx) Hv E X) in D. discriminate. }
    split.
    + intros k0 n0 Hin. apply in_app_iff in Hin. rewrite occurrences_snoc.
      destruct Hin as [Hin|[Hin|[]]].
      * destruct (K k0 n0 Hin) as [I N]. split; [apply in_app_iff; left; exact I|].
        pose proof (E1 (k0, n0) Hin) as D. cbn [fst] in D.
        rewrite D, Nat.add_0_r. exact N.
      * injection Hin as <- <-. split; [apply in_app_iff; right; left; reflexivity|].
        rewrite (occurrences_none val seen Fresh), (py_eq_refl_hashable val Hv). reflexivity.
    + apply ordered_pairs_snoc; [exact A|]. apply Forall_forall. intros kn Hin.
      apply (E1 kn Hin).
    + intros x Hx. apply in_app_iff in Hx. destruct Hx as [Hx|[<-|[]]].
      * destruct (C x Hx) as [k0 [n0 [Hin E0]]]. exists k0, n0.
        split; [apply in_app_iff; left; exact Hin|exact E0].
      * exists val, (0 + 1). split; [apply in_app_iff; right; left; reflexivity|].
        apply py_eq_refl_hashable, Hv.
Qed.

Lemma count_values_loop : forall (values seen : list json) (counts : list (json * Z)),
  Forall (fun x => hashable x = true) seen ->
  Forall (fun x => hashable x = true) values ->
  counted_values seen counts ->
  exists counts',
    fold_left
      (fun acc val =>
         counts <- acc ;;
         if hashable val then Ok (Merge.count_value val counts) else Raise TypeError)
      values (Ok counts) = Ok counts' /\
    counted_values (seen ++ values) counts'.
Proof.
  induction values as [|val values IH]; intros seen counts Hs Hv H.
  - exists counts. rewrite app_nil_r. split; [reflexivity|exact H].
  - inversion Hv as [|? ? Hval Hrest]; subst. cbn [fold_left bind]. rewrite Hval.
    destruct (IH (seen ++ [val])%list (Merge.count_value val counts)) as [counts' [E C]].
    + apply Forall_app. split; [exact Hs|]. constructor; [exact Hval|constructor].
    + exact Hrest.
    + apply count_value_step; assumption.
    + exists counts'. split; [exact E|]. rewrite <- app_assoc in C. exact C.
Qed.

Lemma max_by_count_spec : forall (x : json * Z) (rest : list (json * Z)),
  let best := fold_left (fun best y => if snd y >? snd best then y else best) rest x in
  In best (x :: rest) /\ forall y, In y (x :: rest) -> snd y <= snd best.
Proof.
  intros x rest. revert x. induction rest as [|y rest IH]; intro x; cbv zeta; cbn [fold_left].
  - split; [left; reflexivity|]. intros y [<-|[]]. lia.
  - destruct (Z.gtb_spec (snd y) (snd x)) as [G|G].
    + destruct (IH y) as [I M]. cbv zeta in I, M. split.
      * destruct I as [<-|I]; [right; left; reflexivity|right; right; exact I].
      * intros z [<-|[<-|Hz]].
        -- specialize (M y (or_introl eq_refl)). lia.
        -- apply M. left. reflexivity.
        -- apply M. right. exact Hz.
    + destruct (IH x) as [I M]. cbv zeta in I, M. split.
      * destruct I as [<-|I]; [left; reflexivity|right; right; exact I].
      * intros z [<-|[<-|Hz]].
        -- apply M. left. reflexivity.
        -- specialize (M x (or_introl eq_refl)). lia.
        -- apply M. right. exact Hz.
Qed.

(** X30.  Two different numbers found for one field are resolved by
    frequency: of the values collected for the field, the one that occurs
    most often is kept, values being compared with [==]; no other value
    occurs more often than the one returned. *)
Theorem numeric_conflict_most_frequent :
  forall (existing_value new_value : json) (all_values : list json),
  py_eq existing_value new_value = false ->
  is_number existing_value = true -> is_number new_value = true ->
  all_values <> [] -> Forall (fun x => hashable x = true) all_values ->
  exists r : json,
    Merge._resolve_field_conflict existing_value new_value all_values = Ok r /\
    In r all_values /\
    forall v, In v all_values ->
      (occurrences v all_values <= occurrences r all_values)%nat.
Proof.
  intros e n all_values Hne He Hn Hnil Hh.
  assert (E : Merge._resolve_field_conflict e n all_values =
              value_counts <-
                fold_left
                  (fun acc val =>
                     counts <- acc ;;
                     if hashable val then Ok (Merge.count_value val counts)
                     else Raise TypeError)
                  all_values (Ok []) ;;
              best <- Merge.max_by_count value_counts ;;
              Ok (fst best)).
  { unfold Merge._resolve_field_conflict. rewrite Hne, He, Hn.
    destruct e; try discriminate He; destruct n; try discriminate Hn; reflexivity. }
  rewrite E. clear E.
  destruct (count_values_loop all_values [] [] (Forall_nil _) Hh) as [counts [E [K A C]]].
  { split; [intros k m []|constructor|intros x []]. }
  rewrite E. cbn [bind app] in *.
  destruct counts as [|x rest].
  { exfalso. destruct all_values as [|v vs]; [congruence|].
    destruct (C v (or_introl eq_refl)) as [k [m [[] _]]]. }
  cbn [Merge.max_by_count bind].
  destruct (max_by_count_spec x rest) as [I M]. cbv zeta in I, M.
  set (best := fold_left _ rest x) in *.
  exists (fst best). split; [reflexivity|].
  destruct best as [r m] eqn:Eb. cbn [fst].
  destruct (K r m I) as [Hr Hm]. split; [exact Hr|].
  intros v Hv. destruct (C v Hv) as [k [c [Hin Ek]]].
  destruct (K k c Hin) as [Hk Hc].
  specialize (M (k, c) Hin). cbn [snd] in M.
  rewrite Forall_forall in Hh.
  assert (S : occurrences v all_values = occurrences k all_values).
  { unfold occurrences. f_equal. apply filter_ext_in. intros x0 Hx0.
    symmetry. apply py_eq_same_class; auto. }
  rewrite S. lia.
Qed.

Lemma numeric_conflict_most_frequent_witness :
  exists r : json,
    Merge._resolve_field_conflict (JInt 3) (JInt 4) [JInt 4; JInt 3; JFloat 3; JInt 4; JInt 3]
      = Ok r /\
    In r [JInt 4; JInt 3; JFloat 3; JInt 4; JInt 3] /\
    forall v, In v [JInt 4; JInt 3; JFloat 3; JInt 4; JInt 3] ->
      (occurrences v [JInt 4; JInt 3; JFloat 3; JInt 4; JInt 3]
       <= occurrences r [JInt 4; JInt 3; JFloat 3; JInt 4; JInt 3])%nat.
Proof.
  apply (numeric_conflict_most_frequent (JInt 3) (JInt 4)
           [JInt 4; JInt 3; JFloat 3; JInt 4; JInt 3]); try reflexivity.
  - discriminate.
  - repeat constructor.
Defined.
